(** * LingoLink: real-time room, presence and translation fan-out

    A shallow embedding of the backend of LingoLink:
    - [shared/schema.ts]      the four tables and their constraints,
    - [server/storage.ts]     the storage object ([createRoom], [joinRoom], ...),
    - [server/translation.ts] [translateMessage],
    - [server/socket.ts]      the socket.io event handlers,
    followed by the properties of the specification, each settled against
    these definitions.

    Modelling conventions.
    - JavaScript numbers that hold row identifiers are [Z]; the confidence
      score is a rational ([Q]).
    - JavaScript strings are [string]s, one character per code unit (code
      units below 256).
    - A [Map] is a [gmap]; a [Set] is a duplicate-free list in insertion
      order (the order [for ... of] visits it); an object used as a
      [Record<string, string>] is a [gmap] from its keys to its values.
    - A table is the list of its rows in insertion order; a [serial] column
      draws from a sequence kept next to the tables.
    - An [async] handler is run to completion: the interleaving of two
      handlers at their [await]s is not represented. The trace of the
      process records, in order, every packet sent to a connection, every
      completed [createMessage] and every call of the Translator.
    - An [INSERT] or [DELETE] that a constraint of the schema rejects
      throws; the foreign keys then hold in every state the process reaches
      ([reachable_store_ok]).
    - What the program cannot decide itself (what [Math.random] returns, how
      the completion API answers, what [JSON.parse] makes of a text) is an
      argument of the function that asks. *)

From Stdlib Require Import ZArith QArith Qround String Ascii List Lia.
From stdpp Require Import base gmap strings list pretty.

Open Scope string_scope.
Open Scope list_scope.
Open Scope Z_scope.
Open Scope stdpp_scope.

(** ** The state-and-exception monad of the embedding *)

(** What a rejected [INSERT] or [DELETE] raises. *)
Inductive Exn : Type :=
| UniqueViolation (column : string)
| ForeignKeyViolation (column : string)
| ValueTooLong (column : string).

(** A computation over a state [S] either returns a value or throws; both
    leave a state behind (a rejected statement has still drawn from its
    sequence). *)
Inductive Outcome (S A : Type) : Type :=
| Returned (a : A) (s : S)
| Threw (e : Exn) (s : S).
Arguments Returned {S A} a s.
Arguments Threw {S A} e s.

Definition M (S A : Type) : Type := S -> Outcome S A.

Definition state_of {S A} (o : Outcome S A) : S :=
  match o with Returned _ s => s | Threw _ s => s end.


Definition throws {S A} (o : Outcome S A) : bool :=
  match o with Returned _ _ => false | Threw _ _ => true end.

#[global] Instance M_ret {S} : MRet (M S) := fun A a s => Returned a s.

#[global] Instance M_bind {S} : MBind (M S) := fun A B f m s =>
  match m s with
  | Returned a s' => f a s'
  | Threw e s' => Threw e s'
  end.

Definition gets {S A} (f : S -> A) : M S A := fun s => Returned (f s) s.
Definition modify {S} (f : S -> S) : M S unit := fun s => Returned tt (f s).
Definition throw {S A} (e : Exn) : M S A := fun s => Threw e s.
Definition when_ {S} (b : bool) (m : M S unit) : M S unit :=
  if b then m else mret tt.

(** Runs a computation on a component of the state ([get] reads the
    component, [set] writes it back). *)
Definition zoom {S T A} (get : S -> T) (set : T -> S -> S) (m : M T A) : M S A :=
  fun s =>
    match m (get s) with
    | Returned a t => Returned a (set t s)
    | Threw e t => Threw e (set t s)
    end.

(** ** JavaScript helpers *)

Module JS.

(** [a || d] for [a : string | undefined]: the empty string is falsy. *)
Definition or_string (a : option string) (d : string) : string :=
  match a with
  | Some s => if decide (s = "") then d else s
  | None => d
  end.

(** [!n] for [n : number | null]. *)
Definition falsy_number (n : option Z) : bool :=
  match n with
  | Some z => bool_decide (z = 0)
  | None => true
  end.

(** [a || d] for [a : number | undefined] read from JSON. *)
Definition or_number (a : option Q) (d : Q) : Q :=
  match a with
  | Some q => if Qeq_bool q 0 then d else q
  | None => d
  end.

(** [s.charAt(i)]: the empty string outside the string. *)
Definition charAt (s : string) (i : Z) : string :=
  if decide (i < 0) then ""
  else match String.get (Z.to_nat i) s with
       | Some c => String c EmptyString
       | None => ""
       end.

(** White space and line terminators of ECMAScript among the code units
    below 256: TAB, LF, VT, FF, CR, SP and NBSP. *)
Definition is_white (c : ascii) : bool :=
  let n := nat_of_ascii c in
  ((9 <=? n)%nat && (n <=? 13)%nat) || (n =? 32)%nat || (n =? 160)%nat.

Fixpoint trimStart (s : string) : string :=
  match s with
  | String c r => if is_white c then trimStart r else s
  | EmptyString => EmptyString
  end.

Fixpoint trimEnd (s : string) : string :=
  match s with
  | String c r =>
      match trimEnd r with
      | EmptyString => if is_white c then EmptyString else String c EmptyString
      | r' => String c r'
      end
  | EmptyString => EmptyString
  end.

(** [s.trim()] *)
Definition trim (s : string) : string := trimEnd (trimStart s).

(** [Set.prototype.add] and [delete] on an insertion-ordered set. *)
Definition set_add `{EqDecision A} (x : A) (l : list A) : list A :=
  if decide (x ∈ l) then l else l ++ [x].
Definition set_delete `{EqDecision A} (x : A) (l : list A) : list A :=
  filter (fun y => y ≠ x) l.

(** [[...new Set(l)]]: the first occurrence of every element, in order. *)
Definition distinct `{EqDecision A} (l : list A) : list A :=
  foldl (fun acc x => set_add x acc) [] l.

(** [Math.random()]: the values the generator will return, in order. *)
Definition Rand : Type := nat -> Q.
Definition Math_random (r : Rand) : Q * Rand := (r 0%nat, fun n => r (S n)).

End JS.

(** ** shared/schema.ts: rows and tables *)

Module User.
Record t : Type := mk {
  id : Z;
  email : string;
  username : string;
  password : string;
  displayName : string;
  profilePhoto : option string;
  publicKey : option string;
  role : string;
  preferredLanguage : string;
  createdAt : Z
}.
#[global] Instance eq_dec : EqDecision t.
Proof. solve_decision. Defined.
End User.

Module Room.
Record t : Type := mk {
  id : Z;
  roomCode : string;
  name : string;
  createdBy : Z;
  languages : list string;
  isActive : bool;
  createdAt : Z
}.
#[global] Instance eq_dec : EqDecision t.
Proof. solve_decision. Defined.
End Room.

Module RoomParticipant.
Record t : Type := mk {
  id : Z;
  roomId : Z;
  userId : Z;
  language : string;
  joinedAt : Z
}.
#[global] Instance eq_dec : EqDecision t.
Proof. solve_decision. Defined.
End RoomParticipant.

Module Message.
Record t : Type := mk {
  id : Z;
  roomId : Z;
  senderId : Z;
  content : string;
  translatedContent : option (gmap string string);
  originalLanguage : option string;
  messageType : string;
  createdAt : Z
}.
#[global] Instance eq_dec : EqDecision t.
Proof. solve_decision. Defined.
End Message.

(** [InsertUser]: the columns [createUser] receives. *)
Module InsertUser.
Record t : Type := mk {
  email : string;
  username : string;
  password : string;
  displayName : string;
  preferredLanguage : option string
}.
End InsertUser.

(** The database: the four tables, the sequences behind their [serial]
    keys and the clock behind [CURRENT_TIMESTAMP]. *)
Record Store : Type := mkStore {
  users : list User.t;
  rooms : list Room.t;
  roomParticipants : list RoomParticipant.t;
  messages : list Message.t;
  users_id_seq : Z;
  rooms_id_seq : Z;
  room_participants_id_seq : Z;
  messages_id_seq : Z;
  CURRENT_TIMESTAMP : Z
}.

Definition empty_store : Store :=
  {| users := []; rooms := []; roomParticipants := []; messages := [];
     users_id_seq := 1; rooms_id_seq := 1;
     room_participants_id_seq := 1; messages_id_seq := 1;
     CURRENT_TIMESTAMP := 0 |}.

(** *** Statements on the tables

    Each [INSERT] draws the key from the sequence first and then checks the
    constraints the schema declares: [unique] columns, [references] and the
    length of a [varchar]. *)
Module Db.

Definition set_users f (s : Store) : Store :=
  {| users := f (users s); rooms := rooms s;
     roomParticipants := roomParticipants s; messages := messages s;
     users_id_seq := users_id_seq s; rooms_id_seq := rooms_id_seq s;
     room_participants_id_seq := room_participants_id_seq s;
     messages_id_seq := messages_id_seq s;
     CURRENT_TIMESTAMP := CURRENT_TIMESTAMP s |}.
Definition set_rooms f (s : Store) : Store :=
  {| users := users s; rooms := f (rooms s);
     roomParticipants := roomParticipants s; messages := messages s;
     users_id_seq := users_id_seq s; rooms_id_seq := rooms_id_seq s;
     room_participants_id_seq := room_participants_id_seq s;
     messages_id_seq := messages_id_seq s;
     CURRENT_TIMESTAMP := CURRENT_TIMESTAMP s |}.
Definition set_roomParticipants f (s : Store) : Store :=
  {| users := users s; rooms := rooms s;
     roomParticipants := f (roomParticipants s); messages := messages s;
     users_id_seq := users_id_seq s; rooms_id_seq := rooms_id_seq s;
     room_participants_id_seq := room_participants_id_seq s;
     messages_id_seq := messages_id_seq s;
     CURRENT_TIMESTAMP := CURRENT_TIMESTAMP s |}.
Definition set_messages f (s : Store) : Store :=
  {| users := users s; rooms := rooms s;
     roomParticipants := roomParticipants s; messages := f (messages s);
     users_id_seq := users_id_seq s; rooms_id_seq := rooms_id_seq s;
     room_participants_id_seq := room_participants_id_seq s;
     messages_id_seq := messages_id_seq s;
     CURRENT_TIMESTAMP := CURRENT_TIMESTAMP s |}.

(** [nextval] of the four sequences. *)
Definition next_user_id : M Store Z := fun s =>
  Returned (users_id_seq s)
    {| users := users s; rooms := rooms s;
       roomParticipants := roomParticipants s; messages := messages s;
       users_id_seq := users_id_seq s + 1; rooms_id_seq := rooms_id_seq s;
       room_participants_id_seq := room_participants_id_seq s;
       messages_id_seq := messages_id_seq s;
       CURRENT_TIMESTAMP := CURRENT_TIMESTAMP s |}.
Definition next_room_id : M Store Z := fun s =>
  Returned (rooms_id_seq s)
    {| users := users s; rooms := rooms s;
       roomParticipants := roomParticipants s; messages := messages s;
       users_id_seq := users_id_seq s; rooms_id_seq := rooms_id_seq s + 1;
       room_participants_id_seq := room_participants_id_seq s;
       messages_id_seq := messages_id_seq s;
       CURRENT_TIMESTAMP := CURRENT_TIMESTAMP s |}.
Definition next_participant_id : M Store Z := fun s =>
  Returned (room_participants_id_seq s)
    {| users := users s; rooms := rooms s;
       roomParticipants := roomParticipants s; messages := messages s;
       users_id_seq := users_id_seq s; rooms_id_seq := rooms_id_seq s;
       room_participants_id_seq := room_participants_id_seq s + 1;
       messages_id_seq := messages_id_seq s;
       CURRENT_TIMESTAMP := CURRENT_TIMESTAMP s |}.
Definition next_message_id : M Store Z := fun s =>
  Returned (messages_id_seq s)
    {| users := users s; rooms := rooms s;
       roomParticipants := roomParticipants s; messages := messages s;
       users_id_seq := users_id_seq s; rooms_id_seq := rooms_id_seq s;
       room_participants_id_seq := room_participants_id_seq s;
       messages_id_seq := messages_id_seq s + 1;
       CURRENT_TIMESTAMP := CURRENT_TIMESTAMP s |}.

(** [references(() => users.id)] and [references(() => rooms.id)] *)
Definition user_exists (s : Store) (uid : Z) : bool :=
  bool_decide (uid ∈ User.id <$> users s).
Definition room_exists (s : Store) (rid : Z) : bool :=
  bool_decide (rid ∈ Room.id <$> rooms s).

Definition check {S} (ok : bool) (e : Exn) : M S unit :=
  if ok then mret tt else throw e.

(** [db.insert(users).values(v).returning()] *)
Definition insert_user (v : InsertUser.t) : M Store User.t :=
  id ← next_user_id;
  s ← gets (fun s => s);
  check (negb (bool_decide (InsertUser.email v ∈ User.email <$> users s)))
        (UniqueViolation "email");;
  check (negb (bool_decide (InsertUser.username v ∈ User.username <$> users s)))
        (UniqueViolation "username");;
  let row := {| User.id := id;
                User.email := InsertUser.email v;
                User.username := InsertUser.username v;
                User.password := InsertUser.password v;
                User.displayName := InsertUser.displayName v;
                User.profilePhoto := None;
                User.publicKey := None;
                User.role := "user";
                User.preferredLanguage :=
                  default "en" (InsertUser.preferredLanguage v);
                User.createdAt := CURRENT_TIMESTAMP s |} in
  modify (set_users (fun t => t ++ [row]));;
  mret row.

(** [db.insert(rooms).values({ roomCode, name, createdBy, languages })] *)
Definition insert_room (roomCode name : string) (createdBy : Z)
    (languages : list string) : M Store Room.t :=
  id ← next_room_id;
  s ← gets (fun s => s);
  check (bool_decide (String.length roomCode ≤ 8)%nat)
        (ValueTooLong "room_code");;
  check (negb (bool_decide (roomCode ∈ Room.roomCode <$> rooms s)))
        (UniqueViolation "room_code");;
  check (user_exists s createdBy) (ForeignKeyViolation "created_by");;
  let row := {| Room.id := id;
                Room.roomCode := roomCode;
                Room.name := name;
                Room.createdBy := createdBy;
                Room.languages := languages;
                Room.isActive := true;
                Room.createdAt := CURRENT_TIMESTAMP s |} in
  modify (set_rooms (fun t => t ++ [row]));;
  mret row.

(** [db.insert(roomParticipants).values({ roomId, userId, language })] *)
Definition insert_participant (roomId userId : Z) (language : string)
    : M Store RoomParticipant.t :=
  id ← next_participant_id;
  s ← gets (fun s => s);
  check (room_exists s roomId) (ForeignKeyViolation "room_id");;
  check (user_exists s userId) (ForeignKeyViolation "user_id");;
  let row := {| RoomParticipant.id := id;
                RoomParticipant.roomId := roomId;
                RoomParticipant.userId := userId;
                RoomParticipant.language := language;
                RoomParticipant.joinedAt := CURRENT_TIMESTAMP s |} in
  modify (set_roomParticipants (fun t => t ++ [row]));;
  mret row.

(** [db.insert(messages).values({ roomId, senderId, content, messageType,
    originalLanguage, translatedContent })] *)
Definition insert_message (roomId senderId : Z) (content messageType : string)
    (originalLanguage : option string)
    (translatedContent : option (gmap string string)) : M Store Message.t :=
  id ← next_message_id;
  s ← gets (fun s => s);
  check (room_exists s roomId) (ForeignKeyViolation "room_id");;
  check (user_exists s senderId) (ForeignKeyViolation "sender_id");;
  let row := {| Message.id := id;
                Message.roomId := roomId;
                Message.senderId := senderId;
                Message.content := content;
                Message.translatedContent := translatedContent;
                Message.originalLanguage := originalLanguage;
                Message.messageType := messageType;
                Message.createdAt := CURRENT_TIMESTAMP s |} in
  modify (set_messages (fun t => t ++ [row]));;
  mret row.

(** [db.delete(users).where(eq(users.id, id))]: rejected while a room
    ([created_by]) or a message ([sender_id]) refers to the row; the
    participants of the user go with it ([onDelete: "cascade"]). *)
Definition delete_user (id : Z) : M Store unit :=
  s ← gets (fun s => s);
  check (negb (user_exists s id
               && bool_decide (id ∈ Room.createdBy <$> rooms s)))
        (ForeignKeyViolation "created_by");;
  check (negb (user_exists s id
               && bool_decide (id ∈ Message.senderId <$> messages s)))
        (ForeignKeyViolation "sender_id");;
  modify (set_roomParticipants (filter (fun p => RoomParticipant.userId p ≠ id)));;
  modify (set_users (filter (fun u => User.id u ≠ id))).

End Db.

(** ** server/storage.ts *)

(** [Pick<User, "id" | "displayName" | "profilePhoto">] *)
Module UserSummary.
Record t : Type := mk {
  id : Z;
  displayName : string;
  profilePhoto : option string
}.
#[global] Instance eq_dec : EqDecision t.
Proof. solve_decision. Defined.
Definition of_user (u : User.t) : t :=
  {| id := User.id u; displayName := User.displayName u;
     profilePhoto := User.profilePhoto u |}.
End UserSummary.

(** [Partial<Pick<User, "displayName" | "profilePhoto" | "publicKey" |
    "preferredLanguage">>]: an absent field leaves the column as it is. *)
Module UserPatch.
Record t : Type := mk {
  displayName : option string;
  profilePhoto : option (option string);
  publicKey : option (option string);
  preferredLanguage : option string
}.
End UserPatch.

(** [Room & { participantCount: number }], an element of what
    [getUserRooms] returns. *)
Module RoomWithCount.
Record t : Type := mk {
  room : Room.t;
  participantCount : nat
}.
End RoomWithCount.

Module storage.

Definition chars : string := "ABCDEFGHJKLMNPQRSTUVWXYZ23456789".

(** The body of the [for] loop of [generateRoomCode], [n] more times. *)
Fixpoint generateRoomCode_loop (n : nat) (code : string) (r : JS.Rand)
    : string * JS.Rand :=
  match n with
  | O => (code, r)
  | S n' =>
      let '(x, r') := JS.Math_random r in
      let i := Qfloor (x * inject_Z (Z.of_nat (String.length chars))) in
      generateRoomCode_loop n' (code +:+ JS.charAt chars i) r'
  end.

Definition generateRoomCode (r : JS.Rand) : string * JS.Rand :=
  generateRoomCode_loop 6 "" r.

Definition getUserByEmail (s : Store) (email : string) : option User.t :=
  head (filter (fun u => User.email u = email) (users s)).

Definition getUserById (s : Store) (id : Z) : option User.t :=
  head (filter (fun u => User.id u = id) (users s)).


(** [hashedPassword] is what [bcrypt.hash(data.password, 12)] returned. *)
Definition createUser (data : InsertUser.t) (hashedPassword : string)
    : M Store User.t :=
  Db.insert_user
    {| InsertUser.email := InsertUser.email data;
       InsertUser.username := InsertUser.username data;
       InsertUser.password := hashedPassword;
       InsertUser.displayName := InsertUser.displayName data;
       InsertUser.preferredLanguage := InsertUser.preferredLanguage data |}.

Definition patch_user (data : UserPatch.t) (u : User.t) : User.t :=
  {| User.id := User.id u;
     User.email := User.email u;
     User.username := User.username u;
     User.password := User.password u;
     User.displayName := default (User.displayName u) (UserPatch.displayName data);
     User.profilePhoto := default (User.profilePhoto u) (UserPatch.profilePhoto data);
     User.publicKey := default (User.publicKey u) (UserPatch.publicKey data);
     User.role := User.role u;
     User.preferredLanguage :=
       default (User.preferredLanguage u) (UserPatch.preferredLanguage data);
     User.createdAt := User.createdAt u |}.

Definition updateUser (id : Z) (data : UserPatch.t) : M Store (option User.t) :=
  modify (Db.set_users
            (fmap (fun u => if decide (User.id u = id) then patch_user data u else u)));;
  gets (fun s => getUserById s id).

(** The three [DELETE]s of [deleteUser] are separate statements: when
    the last one is rejected the first two have happened. *)
Definition deleteUser (id : Z) : M Store unit :=
  modify (Db.set_roomParticipants (filter (fun p => RoomParticipant.userId p ≠ id)));;
  modify (Db.set_messages (filter (fun m => Message.senderId m ≠ id)));;
  Db.delete_user id.

(** The [while (attempts < 10)] loop of [createRoom], with
    [attempts_left = 10 - attempts]: probe, stop on a free code, otherwise
    draw the next one. *)
Fixpoint createRoom_loop (s : Store) (attempts_left : nat) (roomCode : string)
    (r : JS.Rand) : string * JS.Rand :=
  match attempts_left with
  | O => (roomCode, r)
  | S n =>
      let existing := filter (fun x => Room.roomCode x = roomCode) (rooms s) in
      if decide (length existing = 0%nat) then (roomCode, r)
      else let '(roomCode', r') := generateRoomCode r in
           createRoom_loop s n roomCode' r'
  end.

Definition createRoom (name : string) (createdBy : Z)
    (languages : option (list string)) (random : JS.Rand) : M Store Room.t :=
  let languages := default ["en"] languages in
  s ← gets (fun s => s);
  let '(roomCode, r) := generateRoomCode random in
  let '(roomCode, _) := createRoom_loop s 10 roomCode r in
  room ← Db.insert_room roomCode name createdBy languages;
  Db.insert_participant (Room.id room) createdBy
    (JS.or_string (head languages) "en");;
  mret room.

Definition getRoomById (s : Store) (id : Z) : option Room.t :=
  head (filter (fun x => Room.id x = id) (rooms s)).

Definition membership (s : Store) (roomId userId : Z) : list RoomParticipant.t :=
  filter (fun p => RoomParticipant.roomId p = roomId
                   ∧ RoomParticipant.userId p = userId) (roomParticipants s).

Definition joinRoom (roomId userId : Z) (language : option string)
    : M Store RoomParticipant.t :=
  existing ← gets (fun s => membership s roomId userId);
  match existing with
  | p :: _ => mret p
  | [] => Db.insert_participant roomId userId (default "en" language)
  end.

Definition leaveRoom (roomId userId : Z) : M Store unit :=
  modify (Db.set_roomParticipants
            (filter (fun p => ¬ (RoomParticipant.roomId p = roomId
                                 ∧ RoomParticipant.userId p = userId)))).

Definition isUserInRoom (s : Store) (roomId userId : Z) : bool :=
  bool_decide (0 < length (membership s roomId userId))%nat.

Definition getRoomParticipants (s : Store) (roomId : Z)
    : list (RoomParticipant.t * UserSummary.t) :=
  omap (fun p => match getUserById s (RoomParticipant.userId p) with
                 | Some user => Some (p, UserSummary.of_user user)
                 | None => None
                 end)
       (filter (fun p => RoomParticipant.roomId p = roomId) (roomParticipants s)).

Definition createMessage (roomId senderId : Z) (content : string)
    (messageType : option string) (originalLanguage : option string)
    (translatedContent : option (gmap string string)) : M Store Message.t :=
  Db.insert_message roomId senderId content (default "text" messageType)
    originalLanguage translatedContent.

Definition setRoomActive (roomId : Z) (isActive : bool) : M Store unit :=
  modify (Db.set_rooms
            (fmap (fun x => if decide (Room.id x = roomId)
                            then {| Room.id := Room.id x;
                                    Room.roomCode := Room.roomCode x;
                                    Room.name := Room.name x;
                                    Room.createdBy := Room.createdBy x;
                                    Room.languages := Room.languages x;
                                    Room.isActive := isActive;
                                    Room.createdAt := Room.createdAt x |}
                            else x))).

Definition setUserRole (userId : Z) (role : string) : M Store unit :=
  modify (Db.set_users
            (fmap (fun u => if decide (User.id u = userId)
                            then {| User.id := User.id u;
                                    User.email := User.email u;
                                    User.username := User.username u;
                                    User.password := User.password u;
                                    User.displayName := User.displayName u;
                                    User.profilePhoto := User.profilePhoto u;
                                    User.publicKey := User.publicKey u;
                                    User.role := role;
                                    User.preferredLanguage := User.preferredLanguage u;
                                    User.createdAt := User.createdAt u |}
                            else u))).

Definition getParticipantLanguage (s : Store) (roomId userId : Z) : string :=
  JS.or_string (RoomParticipant.language <$> head (membership s roomId userId)) "en".

Definition updateParticipantLanguage (roomId userId : Z) (language : string)
    : M Store unit :=
  modify (Db.set_roomParticipants
            (fmap (fun p => if decide (RoomParticipant.roomId p = roomId
                                       ∧ RoomParticipant.userId p = userId)
                            then {| RoomParticipant.id := RoomParticipant.id p;
                                    RoomParticipant.roomId := RoomParticipant.roomId p;
                                    RoomParticipant.userId := RoomParticipant.userId p;
                                    RoomParticipant.language := language;
                                    RoomParticipant.joinedAt := RoomParticipant.joinedAt p |}
                            else p))).

(** [compare] is [bcrypt.compare] of the library: whether the password
    matches the stored hash. *)
Definition verifyPassword (compare : string -> string -> bool) (s : Store)
    (email password : string) : option User.t :=
  match getUserByEmail s email with
  | None => None
  | Some user => if compare password (User.password user) then Some user else None
  end.

(** [toUpperCase] is [String.prototype.toUpperCase] of the runtime. *)
Definition getRoomByCode (toUpperCase : string -> string) (s : Store)
    (roomCode : string) : option Room.t :=
  head (filter (fun x => Room.roomCode x = toUpperCase roomCode) (rooms s)).

Definition getUserRooms (s : Store) (userId : Z) : list RoomWithCount.t :=
  let participations :=
    filter (fun p => RoomParticipant.userId p = userId) (roomParticipants s) in
  omap (fun p =>
          match getRoomById s (RoomParticipant.roomId p) with
          | Some room =>
              if Room.isActive room then
                let allParticipants :=
                  filter (fun q => RoomParticipant.roomId q = Room.id room)
                         (roomParticipants s) in
                Some {| RoomWithCount.room := room;
                        RoomWithCount.participantCount := length allParticipants |}
              else None
          | None => None
          end)
       participations.


Definition getTotalRooms (s : Store) : nat := length (rooms s).

End storage.

(** ** The server process: database, presence maps, live groups, trace *)

Abbreviation SocketId := string (only parsing).

(** [interface TranslationResult] of translation.ts *)
Module TranslationResult.
Record t : Type := mk {
  detectedLanguage : string;
  translations : gmap string string;
  confidence : Q
}.
End TranslationResult.

(** The payloads the server sends (section 6 of the specification). *)
Module Out.
Inductive t : Type :=
| authenticated (userId : Z)
| error (message : string)
| user_joined (userId : Z) (displayName : option string) (roomId : Z)
| user_left (userId roomId : Z)
| online_users (roomId : Z) (users : list Z)
| new_message (message : Message.t) (sender : UserSummary.t)
              (translationResult : TranslationResult.t)
| user_typing (userId roomId : Z) (isTyping : bool).

Definition is_new_message (ev : t) : bool :=
  match ev with new_message _ _ _ => true | _ => false end.
End Out.

(** What an observer of the process sees, in the order it happens. *)
Inductive Effect : Type :=
| Emit (to : SocketId) (ev : Out.t)
    (* one packet written to one connection *)
| StoreWrite (m : Message.t)
    (* the INSERT of [storage.createMessage] has completed with row [m] *)
| TranslatorCall (text : string) (targetLanguages : list string)
    (* [translateMessage] was invoked *)
| ConsoleError (label : string).
    (* [console.error] on the server *)

Record World : Type := mkWorld {
  db : Store;
  (* const onlineUsers = new Map<number, Set<string>>() *)
  onlineUsers : gmap Z (list SocketId);
  (* const userRooms = new Map<string, Set<number>>() *)
  userRooms : gmap SocketId (list Z);
  (* the rooms of the socket.io adapter that the handlers name: room key to
     the sockets joined to it *)
  adapter_rooms : gmap string (list SocketId);
  (* [let currentUserId] of each open connection *)
  currentUserId : gmap SocketId (option Z);
  trace : list Effect
}.

Definition initial_world : World :=
  {| db := empty_store; onlineUsers := ∅; userRooms := ∅; adapter_rooms := ∅;
     currentUserId := ∅; trace := [] |}.

Definition set_db (s : Store) (w : World) : World :=
  {| db := s; onlineUsers := onlineUsers w; userRooms := userRooms w;
     adapter_rooms := adapter_rooms w; currentUserId := currentUserId w;
     trace := trace w |}.
Definition set_onlineUsers (f : gmap Z (list SocketId) -> gmap Z (list SocketId))
    (w : World) : World :=
  {| db := db w; onlineUsers := f (onlineUsers w); userRooms := userRooms w;
     adapter_rooms := adapter_rooms w; currentUserId := currentUserId w;
     trace := trace w |}.
Definition set_userRooms (f : gmap SocketId (list Z) -> gmap SocketId (list Z))
    (w : World) : World :=
  {| db := db w; onlineUsers := onlineUsers w; userRooms := f (userRooms w);
     adapter_rooms := adapter_rooms w; currentUserId := currentUserId w;
     trace := trace w |}.
Definition set_adapter_rooms
    (f : gmap string (list SocketId) -> gmap string (list SocketId))
    (w : World) : World :=
  {| db := db w; onlineUsers := onlineUsers w; userRooms := userRooms w;
     adapter_rooms := f (adapter_rooms w); currentUserId := currentUserId w;
     trace := trace w |}.
Definition set_currentUserId
    (f : gmap SocketId (option Z) -> gmap SocketId (option Z))
    (w : World) : World :=
  {| db := db w; onlineUsers := onlineUsers w; userRooms := userRooms w;
     adapter_rooms := adapter_rooms w; currentUserId := f (currentUserId w);
     trace := trace w |}.

(** The world once [es] has been observed. *)
Definition logged (w : World) (es : list Effect) : World :=
  {| db := db w; onlineUsers := onlineUsers w; userRooms := userRooms w;
     adapter_rooms := adapter_rooms w; currentUserId := currentUserId w;
     trace := trace w ++ es |}.

(** Appends to the trace. *)
Definition log (es : list Effect) : M World unit :=
  modify (fun w => logged w es).

(** [await storage.f(...)] for a statement [f] of storage.ts. *)
Definition await_storage {A} (m : M Store A) : M World A := zoom db set_db m.

Fixpoint for_of {S A} (l : list A) (body : A -> M S unit) : M S unit :=
  match l with
  | [] => mret tt
  | x :: l' => body x;; for_of l' body
  end.

(** ** server/translation.ts *)

(** How [openai.chat.completions.create] answers: the promise rejects (or
    the response has no [choices]), or it resolves and
    [response.choices[0]?.message?.content] is this text, if any. *)
Inductive ApiOutcome : Type :=
| ApiRejects
| ApiResolves (content : option string).

(** What [JSON.parse(...) as TranslationResult] yields: the cast checks
    nothing, so each field may be absent. *)
Module ParsedResult.
Record t : Type := mk {
  detectedLanguage : option string;
  translations : option (gmap string string);
  confidence : option Q
}.
End ParsedResult.

Module translation.

Definition open_brace : ascii := "{"%char.
Definition close_brace : ascii := "}"%char.

(** The suffix that starts at the first opening brace. *)
Fixpoint from_first_open (s : string) : option string :=
  match s with
  | EmptyString => None
  | String c r => if decide (c = open_brace) then Some s else from_first_open r
  end.

(** The longest prefix that ends in a closing brace. *)
Fixpoint to_last_close (s : string) : option string :=
  match s with
  | EmptyString => None
  | String c r =>
      match to_last_close r with
      | Some p => Some (String c p)
      | None => if decide (c = close_brace) then Some (String c EmptyString)
                else None
      end
  end.

(** [content.match(/\{[\s\S]*\}/)]: from the first opening brace to the
    last closing brace after it. *)
Definition json_match (content : string) : option string :=
  from_first_open content ≫= to_last_close.

(** The loop of the [catch] block: [fallback[lang] = text]. *)
Definition fallback (text : string) (targetLanguages : list string)
    : gmap string string :=
  foldl (fun acc lang => <[lang := text]> acc) ∅ targetLanguages.

Section WithRuntime.
(** [JSON.parse]: [None] when it throws a [SyntaxError]. *)
Variable JSON_parse : string -> option ParsedResult.t.

(** The [try] block: [None] when anything in it throws. *)
Definition attempt (api : ApiOutcome) : option TranslationResult.t :=
  match api with
  | ApiRejects => None
  | ApiResolves content =>
      let content := JS.or_string content "" in
      match json_match content with
      | None => None
      | Some jsonMatch =>
          match JSON_parse jsonMatch with
          | None => None
          | Some result =>
              Some {| TranslationResult.detectedLanguage :=
                        JS.or_string (ParsedResult.detectedLanguage result) "en";
                      TranslationResult.translations :=
                        default ∅ (ParsedResult.translations result);
                      TranslationResult.confidence :=
                        JS.or_number (ParsedResult.confidence result) (8 # 10) |}
          end
      end
  end.

Definition translateMessage (text : string) (targetLanguages : list string)
    (api : ApiOutcome) : M World TranslationResult.t :=
  log [TranslatorCall text targetLanguages];;
  if decide (length targetLanguages = 0%nat) then
    mret {| TranslationResult.detectedLanguage := "en";
            TranslationResult.translations := ∅;
            TranslationResult.confidence := 1 |}
  else
    match attempt api with
    | Some result => mret result
    | None =>
        log [ConsoleError "Translation error:"];;
        mret {| TranslationResult.detectedLanguage := "unknown";
                TranslationResult.translations := fallback text targetLanguages;
                TranslationResult.confidence := 0 |}
    end.
End WithRuntime.


End translation.

(** ** server/socket.ts *)

Module socket.

(** [`room:${roomId}`] *)
Definition roomKey (roomId : Z) : string := "room:" +:+ pretty roomId.

(** The sockets joined to a room of the adapter. *)
Definition sockets_in (w : World) (key : string) : list SocketId :=
  default [] (adapter_rooms w !! key).

(** [socket.join(key)] *)
Definition socket_join (sid : SocketId) (key : string) : M World unit :=
  modify (fun w =>
    set_adapter_rooms (insert key (JS.set_add sid (sockets_in w key))) w).

(** [socket.leave(key)]: an emptied room is dropped by the adapter. *)
Definition socket_leave (sid : SocketId) (key : string) : M World unit :=
  modify (fun w =>
    match adapter_rooms w !! key with
    | Some l =>
        let l' := JS.set_delete sid l in
        if decide (length l' = 0%nat)
        then set_adapter_rooms (delete key) w
        else set_adapter_rooms (insert key l') w
    | None => w
    end).

(** [socket.emit(ev)]: to this connection only. *)
Definition socket_emit (sid : SocketId) (ev : Out.t) : M World unit :=
  log [Emit sid ev].

(** [socket.to(key).emit(ev)]: to every socket of the room but this one. *)
Definition socket_to_emit (sid : SocketId) (key : string) (ev : Out.t)
    : M World unit :=
  w ← gets (fun w => w);
  log ((fun to => Emit to ev) <$> JS.set_delete sid (sockets_in w key)).

(** [io.to(key).emit(ev)]: to every socket of the room. *)
Definition io_to_emit (key : string) (ev : Out.t) : M World unit :=
  w ← gets (fun w => w);
  log ((fun to => Emit to ev) <$> sockets_in w key).

(** Reads [currentUserId] of the connection; [None] is [null]. *)
Definition read_currentUserId (sid : SocketId) : M World (option Z) :=
  gets (fun w => default None (currentUserId w !! sid)).

(** The value of a [number | null] that passes [if (!x) ... return]. *)
Definition truthy (n : option Z) : option Z :=
  if JS.falsy_number n then None else n.

Definition getOnlineUsersInRoom (roomId : Z) : M World (list Z) :=
  participants ← gets (fun w => storage.getRoomParticipants (db w) roomId);
  w ← gets (fun w => w);
  mret ((fun p => RoomParticipant.userId p.1)
          <$> filter (fun p => is_Some (onlineUsers w !! RoomParticipant.userId p.1))
                     participants).

(** [socket.on("authenticate", ...)]; after the assignment of its first
    line [currentUserId] is [data.userId] throughout. *)
Definition authenticate (sid : SocketId) (userId : Z) : M World unit :=
  modify (set_currentUserId (insert sid (Some userId)));;
  user ← gets (fun w => storage.getUserById (db w) userId);
  match user with
  | None => socket_emit sid (Out.error "User not found")
  | Some _ =>
      has ← gets (fun w => bool_decide (is_Some (onlineUsers w !! userId)));
      when_ (negb has) (modify (set_onlineUsers (insert userId [])));;
      modify (fun w =>
        set_onlineUsers
          (insert userId (JS.set_add sid (default [] (onlineUsers w !! userId)))) w);;
      socket_emit sid (Out.authenticated userId)
  end.

(** [socket.on("join_room", ...)] *)
Definition join_room (sid : SocketId) (roomId : Z) : M World unit :=
  cur ← read_currentUserId sid;
  match truthy cur with
  | None => socket_emit sid (Out.error "Not authenticated")
  | Some currentUserId =>
      inRoom ← gets (fun w => storage.isUserInRoom (db w) roomId currentUserId);
      if negb inRoom then socket_emit sid (Out.error "Not a member of this room")
      else
        let roomKey := roomKey roomId in
        socket_join sid roomKey;;
        has ← gets (fun w => bool_decide (is_Some (userRooms w !! sid)));
        when_ (negb has) (modify (set_userRooms (insert sid [])));;
        modify (fun w =>
          set_userRooms
            (insert sid (JS.set_add roomId (default [] (userRooms w !! sid)))) w);;
        user ← gets (fun w => storage.getUserById (db w) currentUserId);
        socket_to_emit sid roomKey
          (Out.user_joined currentUserId (User.displayName <$> user) roomId);;
        onlineInRoom ← getOnlineUsersInRoom roomId;
        io_to_emit roomKey (Out.online_users roomId onlineInRoom)
  end.

(** [socket.on("leave_room", ...)] *)
Definition leave_room (sid : SocketId) (roomId : Z) : M World unit :=
  let roomKey := roomKey roomId in
  socket_leave sid roomKey;;
  modify (set_userRooms (alter (JS.set_delete roomId) sid));;
  cur ← read_currentUserId sid;
  match truthy cur with
  | Some currentUserId =>
      socket_to_emit sid roomKey (Out.user_left currentUserId roomId)
  | None => mret tt
  end.

(** [socket.on("typing", ...)] *)
Definition typing (sid : SocketId) (roomId : Z) (isTyping : bool) : M World unit :=
  cur ← read_currentUserId sid;
  match truthy cur with
  | None => mret tt
  | Some currentUserId =>
      socket_to_emit sid (roomKey roomId)
        (Out.user_typing currentUserId roomId isTyping)
  end.

(** [socket.on("disconnect", ...)] *)
Definition disconnect (sid : SocketId) : M World unit :=
  cur ← read_currentUserId sid;
  match truthy cur with
  | None => mret tt
  | Some currentUserId =>
      sockets ← gets (fun w => onlineUsers w !! currentUserId);
      match sockets with
      | Some sockets =>
          let sockets := JS.set_delete sid sockets in
          modify (set_onlineUsers (insert currentUserId sockets));;
          when_ (bool_decide (length sockets = 0%nat))
                (modify (set_onlineUsers (delete currentUserId)))
      | None => mret tt
      end;;
      rooms ← gets (fun w => userRooms w !! sid);
      match rooms with
      | Some rooms =>
          for_of rooms (fun roomId =>
            let roomKey := roomKey roomId in
            socket_to_emit sid roomKey (Out.user_left currentUserId roomId);;
            onlineInRoom ← getOnlineUsersInRoom roomId;
            io_to_emit roomKey (Out.online_users roomId onlineInRoom))
      | None => mret tt
      end;;
      modify (set_userRooms (delete sid))
  end.

Section WithRuntime.
Variable JSON_parse : string -> option ParsedResult.t.

(** The languages to translate into: [[...new Set(participants
    .map(p => p.language).filter(lang => lang !== senderLang))]]. *)
Definition targetLanguages_of
    (participants : list (RoomParticipant.t * UserSummary.t))
    (senderLang : string) : list string :=
  JS.distinct
    (filter (fun lang => lang ≠ senderLang)
            ((fun p => RoomParticipant.language p.1) <$> participants)).

(** [socket.on("send_message", ...)]; [api] is the answer the
    completion API gives if [translateMessage] reaches it. *)
Definition send_message (sid : SocketId) (roomId : Z) (content : string)
    (messageType : option string) (api : ApiOutcome) : M World unit :=
  cur ← read_currentUserId sid;
  match truthy cur with
  | None => socket_emit sid (Out.error "Not authenticated")
  | Some currentUserId =>
      inRoom ← gets (fun w => storage.isUserInRoom (db w) roomId currentUserId);
      if negb inRoom then socket_emit sid (Out.error "Not a member of this room")
      else
        room ← gets (fun w => storage.getRoomById (db w) roomId);
        match room with
        | None => mret tt
        | Some _ =>
            participants ← gets (fun w => storage.getRoomParticipants (db w) roomId);
            let senderParticipant :=
              head (filter (fun p => RoomParticipant.userId p.1 = currentUserId)
                           participants) in
            let senderLang :=
              JS.or_string ((fun p => RoomParticipant.language p.1) <$> senderParticipant)
                           "en" in
            let targetLanguages := targetLanguages_of participants senderLang in
            translationResult ←
              (if bool_decide (0 < length targetLanguages)%nat
                  && bool_decide (0 < String.length (JS.trim content))%nat
               then translation.translateMessage JSON_parse content targetLanguages api
               else mret {| TranslationResult.detectedLanguage := senderLang;
                            TranslationResult.translations := ∅;
                            TranslationResult.confidence := 1 |});
            message ← await_storage
              (storage.createMessage roomId currentUserId content
                 (Some (JS.or_string messageType "text"))
                 (Some (TranslationResult.detectedLanguage translationResult))
                 (Some (TranslationResult.translations translationResult)));
            log [StoreWrite message];;
            sender ← gets (fun w => storage.getUserById (db w) currentUserId);
            io_to_emit (roomKey roomId)
              (Out.new_message message
                 (match sender with
                  | Some sender => UserSummary.of_user sender
                  | None => {| UserSummary.id := currentUserId;
                               UserSummary.displayName := "Unknown";
                               UserSummary.profilePhoto := None |}
                  end)
                 translationResult)
        end
  end.
End WithRuntime.

End socket.

(** ** The process as a transition system *)

(** A call on the storage object from a REST route. *)
Inductive StorageCall : Type :=
| CreateUser (data : InsertUser.t) (hashedPassword : string)
| UpdateUser (id : Z) (data : UserPatch.t)
| DeleteUser (id : Z)
| CreateRoom (name : string) (createdBy : Z) (languages : option (list string))
             (random : JS.Rand)
| JoinRoom (roomId userId : Z) (language : option string)
| LeaveRoom (roomId userId : Z)
| SetRoomActive (roomId : Z) (isActive : bool)
| SetUserRole (userId : Z) (role : string)
| UpdateParticipantLanguage (roomId userId : Z) (language : string).

Definition storage_call (c : StorageCall) : M Store unit :=
  match c with
  | CreateUser data h => storage.createUser data h;; mret tt
  | UpdateUser id data => storage.updateUser id data;; mret tt
  | DeleteUser id => storage.deleteUser id
  | CreateRoom name by_ langs random => storage.createRoom name by_ langs random;; mret tt
  | JoinRoom r u l => storage.joinRoom r u l;; mret tt
  | LeaveRoom r u => storage.leaveRoom r u
  | SetRoomActive r a => storage.setRoomActive r a
  | SetUserRole u role => storage.setUserRole u role
  | UpdateParticipantLanguage r u l => storage.updateParticipantLanguage r u l
  end.

(** What happens to the process: the socket.io events of one connection,
    a storage call of a route, the passing of time. *)
Inductive Event : Type :=
| Connection (sid : SocketId)
| Authenticate (sid : SocketId) (userId : Z)
| Join_room (sid : SocketId) (roomId : Z)
| Leave_room (sid : SocketId) (roomId : Z)
| Send_message (sid : SocketId) (roomId : Z) (content : string)
               (messageType : option string) (api : ApiOutcome)
| Typing (sid : SocketId) (roomId : Z) (isTyping : bool)
| Disconnect (sid : SocketId)
| Route (c : StorageCall)
| Clock (now : Z).

(** socket.io takes a closing socket out of every room before it fires
    [disconnect]. *)
Definition leaveAll (sid : SocketId) (w : World) : World :=
  set_adapter_rooms
    (omap (fun l => let l' := JS.set_delete sid l in
                    if decide (length l' = 0%nat) then None else Some l')) w.

Definition set_clock (now : Z) (s : Store) : Store :=
  {| users := users s; rooms := rooms s;
     roomParticipants := roomParticipants s; messages := messages s;
     users_id_seq := users_id_seq s; rooms_id_seq := rooms_id_seq s;
     room_participants_id_seq := room_participants_id_seq s;
     messages_id_seq := messages_id_seq s;
     CURRENT_TIMESTAMP := now |}.

Section Process.
Variable JSON_parse : string -> option ParsedResult.t.

Definition connected (w : World) (sid : SocketId) : bool :=
  bool_decide (is_Some (currentUserId w !! sid)).

(** One event: [None] when it cannot happen (an event of a socket that is
    not open, the connection of one that is).  A handler that throws
    leaves the state it had reached. *)
Definition step (ev : Event) (w : World) : option World :=
  let on sid (h : M World unit) :=
    if connected w sid then Some (state_of (h w)) else None in
  match ev with
  | Connection sid =>
      if connected w sid then None
      else Some (set_currentUserId (insert sid None) w)
  | Authenticate sid userId => on sid (socket.authenticate sid userId)
  | Join_room sid roomId => on sid (socket.join_room sid roomId)
  | Leave_room sid roomId => on sid (socket.leave_room sid roomId)
  | Send_message sid roomId content messageType api =>
      on sid (socket.send_message JSON_parse sid roomId content messageType api)
  | Typing sid roomId isTyping => on sid (socket.typing sid roomId isTyping)
  | Disconnect sid =>
      if connected w sid
      then Some (set_currentUserId (delete sid)
                   (state_of (socket.disconnect sid (leaveAll sid w))))
      else None
  | Route c => Some (state_of (await_storage (storage_call c) w))
  | Clock now => Some (set_db (set_clock now (db w)) w)
  end.

Fixpoint run (evs : list Event) (w : World) : option World :=
  match evs with
  | [] => Some w
  | ev :: evs' =>
      match step ev w with
      | Some w' => run evs' w'
      | None => None
      end
  end.

Definition reachable (w : World) : Prop :=
  exists evs, run evs initial_world = Some w.

End Process.

(** ** Sample data for the examples *)

Module Sample.

(** A parser that accepts the empty object and nothing else. *)
Definition JSON_parse (s : string) : option ParsedResult.t :=
  if decide (s = "{}")
  then Some {| ParsedResult.detectedLanguage := None;
               ParsedResult.translations := None;
               ParsedResult.confidence := None |}
  else None.

Definition alice : InsertUser.t :=
  {| InsertUser.email := "alice@example.org"; InsertUser.username := "alice";
     InsertUser.password := "secret1"; InsertUser.displayName := "Alice";
     InsertUser.preferredLanguage := Some "en" |}.
Definition bob : InsertUser.t :=
  {| InsertUser.email := "bob@example.org"; InsertUser.username := "bob";
     InsertUser.password := "secret2"; InsertUser.displayName := "Bob";
     InsertUser.preferredLanguage := Some "es" |}.

(** A generator stuck at zero: every code it yields is AAAAAA. *)
Definition zeros : JS.Rand := fun _ => 0%Q.

(** Alice (user 1) and Bob (user 2) register; Alice creates room 1 with
    English, Bob joins it with Spanish. *)
Definition setup : list Event :=
  [ Route (CreateUser alice "hash1");
    Route (CreateUser bob "hash2");
    Route (CreateRoom "R42" 1 (Some ["en"; "es"]) zeros);
    Route (JoinRoom 1 2 (Some "es")) ].

(** The world a list of events leads to from the initial one. *)
Definition world_of (evs : list Event) : World :=
  default initial_world (run JSON_parse evs initial_world).

(** Alice on connection a and Bob on connection b, both attached to room 1. *)
Definition world_online : World :=
  world_of (setup ++ [ Connection "a"; Authenticate "a" 1;
                       Connection "b"; Authenticate "b" 2;
                       Join_room "a" 1; Join_room "b" 1 ]).

Definition carol : InsertUser.t :=
  {| InsertUser.email := "carol@example.org"; InsertUser.username := "carol";
     InsertUser.password := "secret3"; InsertUser.displayName := "Carol";
     InsertUser.preferredLanguage := Some "fr" |}.

(** The database once Alice has registered. *)
Definition store_alice : Store :=
  state_of (storage.createUser alice "hash1" empty_store).

(** The database once Alice has also created a room: its code is AAAAAA. *)
Definition store_room : Store :=
  state_of (storage.createRoom "R42" 1 (Some ["en"]) zeros store_alice).

End Sample.

(** ** Integrity of the database *)

Module Inv.

(** The [references] clauses of the schema. *)
Record foreign_keys (s : Store) : Prop := {
  fk_participant_room : forall p, p ∈ roomParticipants s ->
    RoomParticipant.roomId p ∈ Room.id <$> rooms s;
  fk_participant_user : forall p, p ∈ roomParticipants s ->
    RoomParticipant.userId p ∈ User.id <$> users s;
  fk_message_room : forall m, m ∈ messages s ->
    Message.roomId m ∈ Room.id <$> rooms s;
  fk_message_sender : forall m, m ∈ messages s ->
    Message.senderId m ∈ User.id <$> users s;
  fk_room_creator : forall r, r ∈ rooms s ->
    Room.createdBy r ∈ User.id <$> users s
}.

(** At most one Participant row per (room, user) pair. *)
Definition at_most_one_membership (s : Store) : Prop :=
  forall roomId userId, (length (storage.membership s roomId userId) <= 1)%nat.

(** Every room key was drawn from the sequence. *)
Definition room_ids_drawn (s : Store) : Prop :=
  forall r, r ∈ rooms s -> Room.id r < rooms_id_seq s.

Record store_ok (s : Store) : Prop := {
  ok_foreign_keys : foreign_keys s;
  ok_membership : at_most_one_membership s;
  ok_room_ids : room_ids_drawn s
}.

End Inv.

(** ** Room codes: vocabulary of the properties *)

Module Codes.




(** A room of the store already has this code. *)
Definition collides (s : Store) (code : string) : Prop :=
  code ∈ Room.roomCode <$> rooms s.


(** The code [createRoom] ends its loop with. *)
Definition chosen_code (s : Store) (random : JS.Rand) : string :=
  let '(roomCode, r) := storage.generateRoomCode random in
  (storage.createRoom_loop s 10 roomCode r).1.

End Codes.

(** The language the specification gives the creator of a room: the first
    element of [languages], or en when [languages] is empty. *)
Definition creator_language_as_specified (languages : list string) : string :=
  match languages with
  | [] => "en"
  | l :: _ => l
  end.

(** The language [createRoom] stores: the first element of [languages]
    when it is a non-empty string, en otherwise. *)
Definition creator_language (languages : list string) : string :=
  match languages with
  | [] => "en"
  | l :: _ => if decide (l = "") then "en" else l
  end.

(** ** Live groups and presence: vocabulary of the properties *)

(** The world once connection [sid] is attached to the room: joined to the
    live group [room:roomId] and recorded in the reverse index. *)
Definition joined (sid : SocketId) (roomId : Z) (w : World) : World :=
  set_userRooms
    (insert sid (JS.set_add roomId (default [] (userRooms w !! sid))))
    (set_adapter_rooms
       (insert (socket.roomKey roomId)
               (JS.set_add sid (socket.sockets_in w (socket.roomKey roomId)))) w).

(** The list [getOnlineUsersInRoom] computes. *)
Definition online_in_room (w : World) (roomId : Z) : list Z :=
  (fun p => RoomParticipant.userId p.1)
    <$> filter (fun p => is_Some (onlineUsers w !! RoomParticipant.userId p.1))
               (storage.getRoomParticipants (db w) roomId).

(** The connection counts as unauthenticated for a guard [!currentUserId]
    when this is [None]. *)
Definition authenticated_as (w : World) (sid : SocketId) : option Z :=
  socket.truthy (default None (currentUserId w !! sid)).

(** ** send_message: vocabulary of the properties *)

(** [senderLang] and [targetLanguages] as send_message computes them for a
    sender [u] of room [roomId]. *)
Definition senderLang_of (s : Store) (roomId u : Z) : string :=
  JS.or_string
    ((fun p => RoomParticipant.language p.1)
       <$> head (filter (fun p => RoomParticipant.userId p.1 = u)
                        (storage.getRoomParticipants s roomId)))
    "en".

Definition targetLanguages (s : Store) (roomId u : Z) : list string :=
  socket.targetLanguages_of (storage.getRoomParticipants s roomId)
    (senderLang_of s roomId u).

(** The sender summary of a [new_message]. *)
Definition sender_of (s : Store) (u : Z) : UserSummary.t :=
  match storage.getUserById s u with
  | Some sender => UserSummary.of_user sender
  | None => {| UserSummary.id := u; UserSummary.displayName := "Unknown";
               UserSummary.profilePhoto := None |}
  end.

(** The last part of send_message: [createMessage], then the broadcast. *)
Definition persist_and_broadcast (roomId u : Z) (content : string)
    (messageType : option string) (translationResult : TranslationResult.t)
    : M World unit :=
  message ← await_storage
    (storage.createMessage roomId u content
       (Some (JS.or_string messageType "text"))
       (Some (TranslationResult.detectedLanguage translationResult))
       (Some (TranslationResult.translations translationResult)));
  log [StoreWrite message];;
  sender ← gets (fun w => sender_of (db w) u);
  socket.io_to_emit (socket.roomKey roomId)
    (Out.new_message message sender translationResult).

(** The row [createMessage] inserts for a translation result. *)
Definition message_row (s : Store) (roomId u : Z) (content : string)
    (messageType : option string) (translationResult : TranslationResult.t)
    : Message.t :=
  {| Message.id := messages_id_seq s;
     Message.roomId := roomId;
     Message.senderId := u;
     Message.content := content;
     Message.translatedContent :=
       Some (TranslationResult.translations translationResult);
     Message.originalLanguage :=
       Some (TranslationResult.detectedLanguage translationResult);
     Message.messageType := JS.or_string messageType "text";
     Message.createdAt := CURRENT_TIMESTAMP s |}.

(** The Translator call fails: the completion API throws, or what it
    returns holds no JSON object text, or [JSON.parse] rejects that text. *)
Definition translator_fails (JSON_parse : string -> option ParsedResult.t)
    (api : ApiOutcome) : Prop :=
  api = ApiRejects
  \/ exists content, api = ApiResolves content
       /\ (translation.json_match (JS.or_string content "") = None
           \/ exists text, translation.json_match (JS.or_string content "") = Some text
                           /\ JSON_parse text = None).

(** The effects that are a [new_message] packet, and those that are the
    Translator being invoked. *)
Definition is_broadcast (e : Effect) : bool :=
  match e with Emit _ ev => Out.is_new_message ev | _ => false end.

(** Persistence before broadcast: every [new_message] packet of the trace
    has the [StoreWrite] of its message earlier in the trace. *)
Definition persisted_before_broadcast (tr : list Effect) : Prop :=
  forall j to message sender translationResult,
    tr !! j = Some (Emit to (Out.new_message message sender translationResult)) ->
    exists i, (i < j)%nat /\ tr !! i = Some (StoreWrite message).

(** ** Invariants of the process: vocabulary of the properties *)

(** A computation keeps a property of the world, whether it returns or
    throws. *)
Definition preserves {A} (P : World -> Prop) (m : M World A) : Prop :=
  forall w, P w -> P (state_of (m w)).

(** The trace has grown from [tr0] by effects none of which is a
    [new_message] packet. *)
Definition grown_quietly (tr0 : list Effect) (w : World) : Prop :=
  exists es, trace w = tr0 ++ es /\ Forall (fun e => is_broadcast e = false) es.

(** Every set of [onlineUsers] has an element: a user is a key of the map
    exactly when some connection id is registered for the user. *)
Definition presence_ok (w : World) : Prop :=
  forall u sockets, onlineUsers w !! u = Some sockets -> sockets ≠ [].

(** [store_ok] on the tables themselves. *)
Definition tables_ok (us : list User.t) (rs : list Room.t)
    (ps : list RoomParticipant.t) (ms : list Message.t) (next_room : Z) : Prop :=
  (forall p, p ∈ ps -> RoomParticipant.roomId p ∈ Room.id <$> rs
                       /\ RoomParticipant.userId p ∈ User.id <$> us)
  /\ (forall m, m ∈ ms -> Message.roomId m ∈ Room.id <$> rs
                          /\ Message.senderId m ∈ User.id <$> us)
  /\ (forall r, r ∈ rs -> Room.createdBy r ∈ User.id <$> us
                          /\ Room.id r < next_room)
  /\ (forall roomId userId,
        (length (filter (fun p => RoomParticipant.roomId p = roomId
                                  ∧ RoomParticipant.userId p = userId) ps)
         <= 1)%nat).


(** [tr] interleaves [tr1] and [tr2]: it has the effects of both, those of
    each in their own order. *)
Inductive interleaves : list Effect -> list Effect -> list Effect -> Prop :=
| interleaves_nil : interleaves [] [] []
| interleaves_left e tr1 tr2 tr :
    interleaves tr1 tr2 tr -> interleaves (e :: tr1) tr2 (e :: tr)
| interleaves_right e tr1 tr2 tr :
    interleaves tr1 tr2 tr -> interleaves tr1 (e :: tr2) (e :: tr).

(** ** Handlers and the state they touch: vocabulary of the properties *)

(** The connection an event comes from, if it comes from one. *)
Definition socket_of (ev : Event) : option SocketId :=
  match ev with
  | Connection sid | Authenticate sid _ | Join_room sid _ | Leave_room sid _
  | Send_message sid _ _ _ _ | Typing sid _ _ | Disconnect sid => Some sid
  | Route _ | Clock _ => None
  end.

(** An effect that, when it is an error packet, goes to connection [sid]. *)
Definition error_only_to (sid : SocketId) (e : Effect) : Prop :=
  match e with
  | Emit to (Out.error _) => to = sid
  | _ => True
  end.

(** The trace has grown from [tr0] by effects that all satisfy [ok]. *)
Definition grown_by (ok : Effect -> Prop) (tr0 : list Effect) (w : World) : Prop :=
  exists es, trace w = tr0 ++ es /\ Forall ok es.

(** The database of the world is [s]. *)
Definition db_is (s : Store) (w : World) : Prop := db w = s.

(** The sockets of the live group of a room other than [sid]: those
    [socket.to(roomKey)] reaches. *)
Definition others_in (w : World) (sid : SocketId) (roomId : Z) : list SocketId :=
  JS.set_delete sid (socket.sockets_in w (socket.roomKey roomId)).


(** A room with its [isActive] flag replaced. *)
Definition with_active (isActive : bool) (x : Room.t) : Room.t :=
  {| Room.id := Room.id x; Room.roomCode := Room.roomCode x;
     Room.name := Room.name x; Room.createdBy := Room.createdBy x;
     Room.languages := Room.languages x; Room.isActive := isActive;
     Room.createdAt := Room.createdAt x |}.

(** [toUpperCase] on text of the ASCII range: the letters a to z become
    A to Z, every other character stays. *)
Definition ascii_toUpperCase (s : string) : string :=
  string_of_list_ascii
    ((fun c => let n := nat_of_ascii c in
               if ((97 <=? n)%nat && (n <=? 122)%nat)%bool
               then ascii_of_nat (n - 32) else c)
       <$> list_ascii_of_string s).

(** [onlineUsers] once connection [sid] is taken out of the set of user
    [u]; a set that this empties is dropped. *)
Definition unregistered (sid : SocketId) (u : Z) (m : gmap Z (list SocketId))
    : gmap Z (list SocketId) :=
  match m !! u with
  | Some sockets =>
      if decide (length (JS.set_delete sid sockets) = 0%nat) then delete u m
      else <[u := JS.set_delete sid sockets]> m
  | None => m
  end.

(** What disconnect sends for the rooms of the connection, room after
    room: user_left to the other sockets of the live group, then
    online_users, with the list computed in [w], to the group. *)
Definition farewell (w : World) (sid : SocketId) (u : Z) (rooms : list Z)
    : list Effect :=
  concat
    ((fun r =>
        ((fun to => Emit to (Out.user_left u r)) <$> others_in w sid r)
        ++ ((fun to => Emit to (Out.online_users r (online_in_room w r)))
              <$> socket.sockets_in w (socket.roomKey r)))
       <$> rooms).

(** The world once [setRoomActive(roomId, isActive)] has run. *)
Definition with_room_active (roomId : Z) (isActive : bool) (w : World) : World :=
  set_db (state_of (storage.setRoomActive roomId isActive (db w))) w.


(** * Properties *)

(** ** The definitions on small inputs *)

Example trim_example : JS.trim "  a b  " = "a b".
Proof. reflexivity. Qed.

Example trim_blank_example : JS.trim "   " = "".
Proof. reflexivity. Qed.

Example distinct_example : JS.distinct ["es"; "fr"; "es"] = ["es"; "fr"].
Proof. reflexivity. Qed.

Example json_match_example :
  translation.json_match "ab{c}d}e" = Some "{c}d}"
  /\ translation.json_match "no object here" = None
  /\ translation.json_match "}{" = None.
Proof. done. Qed.

Example roomKey_example : socket.roomKey 42 = "room:42".
Proof. reflexivity. Qed.

Example generateRoomCode_example :
  (storage.generateRoomCode Sample.zeros).1 = "AAAAAA"
  /\ (storage.generateRoomCode (fun _ => (31 # 32)%Q)).1 = "999999".
Proof. vm_compute. done. Qed.

(** Room 1 after the set-up: Alice with English, Bob with Spanish; the
    languages to translate a message of Alice into. *)
Example targetLanguages_example :
  storage.getParticipantLanguage (db Sample.world_online) 1 1 = "en"
  /\ targetLanguages (db Sample.world_online) 1 1 = ["es"]
  /\ online_in_room Sample.world_online 1 = [1; 2]
  /\ socket.sockets_in Sample.world_online (socket.roomKey 1) = ["a"; "b"].
Proof. vm_compute. done. Qed.

(** ** Unfolding the monad *)

Lemma bind_returned {S A B} (m : M S A) (f : A -> M S B) s a s' :
  m s = Returned a s' -> (m ≫= f) s = f a s'.
Proof. intros H. unfold mbind, M_bind. by rewrite H. Qed.

Lemma bind_threw {S A B} (m : M S A) (f : A -> M S B) s e s' :
  m s = Threw e s' -> (m ≫= f) s = Threw e s'.
Proof. intros H. unfold mbind, M_bind. by rewrite H. Qed.

(** Settles a decidable proposition about concrete data by evaluation. *)
Ltac by_evaluation :=
  refine (bool_decide_unpack _ _); vm_compute; exact I.

Ltac monad_simpl :=
  unfold when_, Db.check, throw, gets, modify, mbind, M_bind, mret, M_ret in *;
  simpl in *.


(** ** joinRoom (storage.ts) *)

Lemma membership_snoc s roomId userId row :
  storage.membership (Db.set_roomParticipants (fun t => t ++ [row]) s) roomId userId
  = storage.membership s roomId userId
    ++ (if decide (RoomParticipant.roomId row = roomId
                   ∧ RoomParticipant.userId row = userId)
        then [row] else []).
Proof.
  unfold storage.membership. simpl. by rewrite filter_app.
Qed.


(** What [insert_participant] does: the sequence advances; the row is
    appended unless a foreign key rejects it. *)
Lemma insert_participant_cases roomId userId language s :
  let s0 := state_of (Db.next_participant_id s) in
  let row := {| RoomParticipant.id := room_participants_id_seq s;
                RoomParticipant.roomId := roomId;
                RoomParticipant.userId := userId;
                RoomParticipant.language := language;
                RoomParticipant.joinedAt := CURRENT_TIMESTAMP s |} in
  (roomId ∈ Room.id <$> rooms s /\ userId ∈ User.id <$> users s /\
   Db.insert_participant roomId userId language s
   = Returned row (Db.set_roomParticipants (fun t => t ++ [row]) s0))
  \/ ((roomId ∉ Room.id <$> rooms s \/ userId ∉ User.id <$> users s) /\
      exists e, Db.insert_participant roomId userId language s = Threw e s0).
Proof.
  unfold Db.insert_participant, Db.room_exists, Db.user_exists. monad_simpl.
  case_bool_decide as Hr; simpl.
  - case_bool_decide as Hu; simpl.
    + left. done.
    + right. split; [by right | eauto].
  - right. split; [by left | eauto].
Qed.

Lemma joinRoom_existing s roomId userId language p rest :
  storage.membership s roomId userId = p :: rest ->
  storage.joinRoom roomId userId language s = Returned p s.
Proof. intros H. unfold storage.joinRoom, mbind, M_bind, gets. by rewrite H. Qed.

Lemma joinRoom_fresh s roomId userId language :
  storage.membership s roomId userId = [] ->
  storage.joinRoom roomId userId language s
  = Db.insert_participant roomId userId (default "en" language) s.
Proof. intros H. unfold storage.joinRoom, mbind, M_bind, gets. by rewrite H. Qed.


(** ** Room codes (storage.ts, [generateRoomCode] and [createRoom]) *)

Lemma string_length_append (a b : string) :
  String.length (a +:+ b) = (String.length a + String.length b)%nat.
Proof. induction a as [|c a IH]; simpl; [done | by rewrite IH]. Qed.

Lemma list_ascii_append (a b : string) :
  list_ascii_of_string (a +:+ b)
  = list_ascii_of_string a ++ list_ascii_of_string b.
Proof. induction a as [|c a IH]; simpl; [done | by rewrite IH]. Qed.
















(** What [insert_room] does: the sequence advances; the row is appended
    unless a constraint rejects it. *)
Lemma insert_room_cases code name createdBy languages s :
  let s0 := state_of (Db.next_room_id s) in
  let row := {| Room.id := rooms_id_seq s;
                Room.roomCode := code;
                Room.name := name;
                Room.createdBy := createdBy;
                Room.languages := languages;
                Room.isActive := true;
                Room.createdAt := CURRENT_TIMESTAMP s |} in
  ((String.length code <= 8)%nat /\ ¬ Codes.collides s code
   /\ createdBy ∈ User.id <$> users s
   /\ Db.insert_room code name createdBy languages s
      = Returned row (Db.set_rooms (fun t => t ++ [row]) s0))
  \/ ((¬ (String.length code <= 8)%nat \/ Codes.collides s code
       \/ createdBy ∉ User.id <$> users s)
      /\ exists e, Db.insert_room code name createdBy languages s = Threw e s0).
Proof.
  unfold Db.insert_room, Db.user_exists, Codes.collides. monad_simpl.
  case_bool_decide as Hlen; simpl; [|right; split; [by left | eauto]].
  case_bool_decide as Hcode; simpl; [right; split; [by right; left | eauto]|].
  case_bool_decide as Huser; simpl; [|right; split; [by right; right | eauto]].
  left. done.
Qed.

Lemma createRoom_unfold name createdBy languages random s :
  storage.createRoom name createdBy languages random s
  = (room ← Db.insert_room (Codes.chosen_code s random) name createdBy
              (default ["en"] languages);
     Db.insert_participant (Room.id room) createdBy
       (JS.or_string (head (default ["en"] languages)) "en");;
     mret room) s.
Proof.
  unfold storage.createRoom, Codes.chosen_code.
  unfold mbind at 1. unfold M_bind at 1. unfold gets at 1.
  destruct (storage.generateRoomCode random) as [c0 r1].
  by destruct (storage.createRoom_loop s 10 c0 r1) as [c r].
Qed.

(** A creation that [insert_room] accepts goes through: the room is new,
    so is the membership of its creator. *)
Lemma createRoom_cases name createdBy languages random s :
  let code := Codes.chosen_code s random in
  let langs := default ["en"] languages in
  let room := {| Room.id := rooms_id_seq s;
                 Room.roomCode := code;
                 Room.name := name;
                 Room.createdBy := createdBy;
                 Room.languages := langs;
                 Room.isActive := true;
                 Room.createdAt := CURRENT_TIMESTAMP s |} in
  let row := {| RoomParticipant.id := room_participants_id_seq s;
                RoomParticipant.roomId := rooms_id_seq s;
                RoomParticipant.userId := createdBy;
                RoomParticipant.language := JS.or_string (head langs) "en";
                RoomParticipant.joinedAt := CURRENT_TIMESTAMP s |} in
  ((String.length code <= 8)%nat /\ ¬ Codes.collides s code
   /\ createdBy ∈ User.id <$> users s
   /\ storage.createRoom name createdBy languages random s
      = Returned room
          (Db.set_roomParticipants (fun t => t ++ [row])
             (state_of (Db.next_participant_id
                (Db.set_rooms (fun t => t ++ [room])
                   (state_of (Db.next_room_id s)))))))
  \/ ((¬ (String.length code <= 8)%nat \/ Codes.collides s code
       \/ createdBy ∉ User.id <$> users s)
      /\ exists e, storage.createRoom name createdBy languages random s
                   = Threw e (state_of (Db.next_room_id s))).
Proof.
  intros code langs room row. rewrite createRoom_unfold.
  destruct (insert_room_cases code name createdBy langs s)
    as [(Hlen & Hfree & Huser & Hins)|(Hno & e & Hins)].
  - left. split; [done|]. split; [done|]. split; [done|].
    erewrite bind_returned by exact Hins.
    destruct (insert_participant_cases (rooms_id_seq s) createdBy
                (JS.or_string (head langs) "en")
                (Db.set_rooms (fun t => t ++ [room]) (state_of (Db.next_room_id s))))
      as [(_ & _ & Hp)|([Hr|Hu] & _)].
    + erewrite bind_returned by exact Hp. done.
    + exfalso. apply Hr. simpl. rewrite fmap_app, elem_of_app. right.
      by apply list_elem_of_singleton.
    + exfalso. by apply Hu.
  - right. split; [done|]. exists e. by erewrite bind_threw by exact Hins.
Qed.



(** When the code drawn last collides as well, the insertion is the one
    that fails: [room_code] is unique. *)
Lemma createRoom_last_code_taken :
  exists s',
    storage.createRoom "Second" 1 None Sample.zeros Sample.store_room
    = Threw (UniqueViolation "room_code") s'.
Proof. eexists. vm_compute. reflexivity. Qed.

(** ** The creator of a room (storage.ts, [createRoom]) *)

Lemma or_string_head (languages : list string) :
  JS.or_string (head languages) "en" = creator_language languages.
Proof. by destruct languages. Qed.

(** No participant refers to the room key the sequence will give next. *)
Lemma no_membership_of_next_room (s : Store) (userId : Z) :
  Inv.store_ok s -> storage.membership s (rooms_id_seq s) userId = [].
Proof.
  intros [Hfk _ Hids]. apply elem_of_nil_inv. intros p Hp.
  apply list_elem_of_filter in Hp as [[Hroom _] Hp].
  apply (Inv.fk_participant_room s Hfk) in Hp.
  apply list_elem_of_fmap in Hp as (r & Hr & Hin).
  apply Hids in Hin. lia.
Qed.

(** C10, as the code has it: a successful createRoom has inserted the
    creating user as the one Participant of (new room, creator), with the
    first element of languages as per-room language when that element is a
    non-empty string and en otherwise (languages empty, or its first element
    the empty string); the creator is a member at once. *)
Theorem createRoom_enrols_creator (s : Store) (name : string) (createdBy : Z)
    (languages : option (list string)) (random : JS.Rand) (room : Room.t)
    (s' : Store) :
  Inv.store_ok s ->
  storage.createRoom name createdBy languages random s = Returned room s' ->
  exists p,
    storage.membership s' (Room.id room) createdBy = [p]
    /\ RoomParticipant.language p = creator_language (default ["en"] languages)
    /\ storage.isUserInRoom s' (Room.id room) createdBy = true.
Proof.
  intros Hok Hcreate.
  destruct (createRoom_cases name createdBy languages random s)
    as [(_ & _ & _ & Heq)|(_ & e & Heq)]; rewrite Heq in Hcreate; [|done].
  injection Hcreate as <- <-. cbn [Room.id].
  assert (forall row,
    RoomParticipant.roomId row = rooms_id_seq s ->
    RoomParticipant.userId row = createdBy ->
    storage.membership
      (Db.set_roomParticipants (fun t => t ++ [row])
         (state_of (Db.next_participant_id
            (Db.set_rooms
               (fun t => t ++ [{| Room.id := rooms_id_seq s;
                                  Room.roomCode := Codes.chosen_code s random;
                                  Room.name := name;
                                  Room.createdBy := createdBy;
                                  Room.languages := default ["en"] languages;
                                  Room.isActive := true;
                                  Room.createdAt := CURRENT_TIMESTAMP s |}])
               (state_of (Db.next_room_id s))))))
      (rooms_id_seq s) createdBy = [row]) as Hmem.
  { intros row Hr Hu. rewrite membership_snoc, decide_True by done.
    change (storage.membership _ (rooms_id_seq s) createdBy)
      with (storage.membership s (rooms_id_seq s) createdBy).
    by rewrite no_membership_of_next_room. }
  eexists. split; [by apply Hmem|]. split.
  - cbn [RoomParticipant.language]. apply or_string_head.
  - unfold storage.isUserInRoom. rewrite Hmem by done. done.
Qed.

Lemma store_alice_ok : Inv.store_ok Sample.store_alice.
Proof.
  split; [split|..]; try (intros x Hx; vm_compute in Hx; by apply elem_of_nil in Hx).
  - intros r u. vm_compute. lia.
Qed.

Lemma createRoom_enrols_creator_witness :
  exists p,
    storage.membership Sample.store_room 1 1 = [p]
    /\ RoomParticipant.language p = "en"
    /\ storage.isUserInRoom Sample.store_room 1 1 = true.
Proof.
  apply (createRoom_enrols_creator Sample.store_alice "R42" 1 (Some ["en"])
           Sample.zeros
           {| Room.id := 1; Room.roomCode := "AAAAAA"; Room.name := "R42";
              Room.createdBy := 1; Room.languages := ["en"];
              Room.isActive := true; Room.createdAt := 0 |}
           Sample.store_room).
  - exact store_alice_ok.
  - vm_compute. reflexivity.
Defined.

(** C10 as stated fails when the first element of languages is the empty
    string: the specification gives the creator that empty string as
    language, the store has en. *)
Lemma createRoom_creator_language_counterexample :
  exists room s',
    storage.createRoom "Lobby" 1 (Some [""]) Sample.zeros Sample.store_alice
    = Returned room s'
    /\ ¬ (exists p, p ∈ roomParticipants s'
                    /\ RoomParticipant.roomId p = Room.id room
                    /\ RoomParticipant.userId p = 1
                    /\ RoomParticipant.language p
                       = creator_language_as_specified [""]).
Proof.
  eexists _, _. split; [vm_compute; reflexivity|].
  intros (p & Hp & _ & _ & Hlang). cbn [roomParticipants] in Hp.
  apply list_elem_of_singleton in Hp. subst p. discriminate Hlang.
Qed.

(** ** The handlers of socket.ts, run on an arbitrary world *)

Ltac run_handler :=
  cbv beta iota zeta delta
    [socket.authenticate socket.join_room socket.leave_room socket.typing
     socket.read_currentUserId socket.socket_emit
     socket.socket_join socket.socket_to_emit socket.io_to_emit
     socket.getOnlineUsersInRoom log gets modify mbind M_bind mret M_ret when_
     authenticated_as].

Lemma world_eq (w1 w2 : World) :
  db w1 = db w2 -> onlineUsers w1 = onlineUsers w2 ->
  userRooms w1 = userRooms w2 -> adapter_rooms w1 = adapter_rooms w2 ->
  currentUserId w1 = currentUserId w2 -> trace w1 = trace w2 -> w1 = w2.
Proof. destruct w1, w2. simpl. by intros -> -> -> -> -> ->. Qed.

Lemma set_add_elem `{EqDecision A} (x : A) (l : list A) : x ∈ JS.set_add x l.
Proof.
  unfold JS.set_add. case_decide; [done|].
  apply elem_of_app. right. by apply list_elem_of_singleton.
Qed.

Lemma set_delete_elem `{EqDecision A} (x y : A) (l : list A) :
  y ∈ JS.set_delete x l <-> y ∈ l /\ y ≠ x.
Proof. unfold JS.set_delete. rewrite list_elem_of_filter. tauto. Qed.

Lemma getOnlineUsersInRoom_run (roomId : Z) (w : World) :
  socket.getOnlineUsersInRoom roomId w = Returned (online_in_room w roomId) w.
Proof. reflexivity. Qed.



Lemma join_room_member (w : World) (sid : SocketId) (roomId u : Z) :
  authenticated_as w sid = Some u ->
  storage.isUserInRoom (db w) roomId u = true ->
  socket.join_room sid roomId w
  = Returned tt
      (logged (joined sid roomId w)
         (((fun to =>
              Emit to (Out.user_joined u
                         (User.displayName <$> storage.getUserById (db w) u)
                         roomId))
             <$> JS.set_delete sid
                   (socket.sockets_in (joined sid roomId w) (socket.roomKey roomId)))
          ++ ((fun to => Emit to (Out.online_users roomId (online_in_room w roomId)))
                <$> socket.sockets_in (joined sid roomId w) (socket.roomKey roomId)))).
Proof.
  intros Hcur Hin. run_handler. unfold authenticated_as in Hcur.
  rewrite Hcur. cbv beta iota.
  cbn [db logged set_adapter_rooms]. rewrite Hin. cbn [negb].
  cbn [userRooms set_adapter_rooms].
  case_bool_decide as Hhas; cbn [negb]; f_equal; apply world_eq; try reflexivity.
  - cbn. by rewrite <- app_assoc.
  - cbn. rewrite lookup_insert_eq. cbn. rewrite insert_insert_eq.
    apply eq_None_not_Some in Hhas. by rewrite Hhas.
  - cbn. by rewrite <- app_assoc.
Qed.


(** ** Lookups under the foreign keys *)

Lemma filter_nil_iff {A} (P : A -> Prop) `{forall x, Decision (P x)} (l : list A) :
  filter P l = [] <-> forall x, x ∈ l -> ¬ P x.
Proof.
  split.
  - intros Hnil x Hx HP. by apply (filter_nil_not_elem_of P l x).
  - intros Hall. apply elem_of_nil_inv. intros x Hx.
    apply list_elem_of_filter in Hx as [HP Hx]. by apply (Hall x).
Qed.


Lemma getUserById_None (s : Store) (id : Z) :
  storage.getUserById s id = None <-> id ∉ User.id <$> users s.
Proof.
  unfold storage.getUserById. rewrite head_None, filter_nil_iff. split.
  - intros Hall Hin. apply list_elem_of_fmap in Hin as (r & -> & Hr).
    by apply (Hall r).
  - intros Hnot r Hr <-. apply Hnot. apply list_elem_of_fmap. eauto.
Qed.

Lemma isUserInRoom_true (s : Store) (roomId u : Z) :
  storage.isUserInRoom s roomId u = true
  <-> exists p rest, storage.membership s roomId u = p :: rest.
Proof.
  unfold storage.isUserInRoom.
  destruct (storage.membership s roomId u) as [|p rest]; simpl.
  - split; [done | by intros (? & ? & ?)].
  - split; [eauto | done].
Qed.

Lemma isUserInRoom_false (s : Store) (roomId u : Z) :
  storage.isUserInRoom s roomId u = false <-> storage.membership s roomId u = [].
Proof.
  unfold storage.isUserInRoom.
  destruct (storage.membership s roomId u) as [|p rest]; simpl.
  - done.
  - split; done.
Qed.

Lemma membership_elem (s : Store) (roomId u : Z) (p : RoomParticipant.t) :
  p ∈ storage.membership s roomId u
  <-> p ∈ roomParticipants s
      /\ RoomParticipant.roomId p = roomId /\ RoomParticipant.userId p = u.
Proof. unfold storage.membership. rewrite list_elem_of_filter. tauto. Qed.




(** ** authenticate *)

Lemma authenticate_unknown_user (w : World) (sid : SocketId) (userId : Z) :
  storage.getUserById (db w) userId = None ->
  socket.authenticate sid userId w
  = Returned tt
      (logged (set_currentUserId (insert sid (Some userId)) w)
         [Emit sid (Out.error "User not found")]).
Proof. intros Hnone. run_handler. cbn [db set_currentUserId]. by rewrite Hnone. Qed.

Lemma authenticate_known_user (w : World) (sid : SocketId) (userId : Z) (user : User.t) :
  storage.getUserById (db w) userId = Some user ->
  socket.authenticate sid userId w
  = Returned tt
      (logged
         (set_onlineUsers
            (insert userId (JS.set_add sid (default [] (onlineUsers w !! userId))))
            (set_currentUserId (insert sid (Some userId)) w))
         [Emit sid (Out.authenticated userId)]).
Proof.
  intros Hsome. run_handler. cbn [db set_currentUserId]. rewrite Hsome.
  cbn [onlineUsers set_currentUserId].
  case_bool_decide as Hhas; cbn [negb]; f_equal; apply world_eq; try reflexivity.
  cbn. rewrite lookup_insert_eq. cbn. rewrite insert_insert_eq.
  apply eq_None_not_Some in Hhas. by rewrite Hhas.
Qed.

(** ** send_message, branch by branch *)

Lemma send_message_unauthenticated JSON_parse (w : World) (sid : SocketId)
    (roomId : Z) content messageType api :
  authenticated_as w sid = None ->
  socket.send_message JSON_parse sid roomId content messageType api w
  = Returned tt (logged w [Emit sid (Out.error "Not authenticated")]).
Proof.
  intros Hcur. unfold socket.send_message. run_handler.
  unfold authenticated_as in Hcur. by rewrite Hcur.
Qed.

Lemma send_message_not_member JSON_parse (w : World) (sid : SocketId)
    (roomId u : Z) content messageType api :
  authenticated_as w sid = Some u ->
  storage.isUserInRoom (db w) roomId u = false ->
  socket.send_message JSON_parse sid roomId content messageType api w
  = Returned tt (logged w [Emit sid (Out.error "Not a member of this room")]).
Proof.
  intros Hcur Hin. unfold socket.send_message. run_handler.
  unfold authenticated_as in Hcur. rewrite Hcur. cbv beta iota. by rewrite Hin.
Qed.

(** The guard [if (!room) return]: it needs a membership whose room is
    gone, which the foreign key on [room_id] excludes. *)
Lemma send_message_no_room JSON_parse (w : World) (sid : SocketId)
    (roomId u : Z) content messageType api :
  authenticated_as w sid = Some u ->
  storage.isUserInRoom (db w) roomId u = true ->
  storage.getRoomById (db w) roomId = None ->
  socket.send_message JSON_parse sid roomId content messageType api w
  = Returned tt w.
Proof.
  intros Hcur Hin Hroom. unfold socket.send_message. run_handler.
  unfold authenticated_as in Hcur. rewrite Hcur. cbv beta iota.
  rewrite Hin. cbn [negb]. by rewrite Hroom.
Qed.

Lemma send_message_member JSON_parse (w : World) (sid : SocketId) (roomId u : Z)
    content messageType api room :
  authenticated_as w sid = Some u ->
  storage.isUserInRoom (db w) roomId u = true ->
  storage.getRoomById (db w) roomId = Some room ->
  socket.send_message JSON_parse sid roomId content messageType api w
  = (translationResult ←
       (if bool_decide (0 < length (targetLanguages (db w) roomId u))%nat
           && bool_decide (0 < String.length (JS.trim content))%nat
        then translation.translateMessage JSON_parse content
               (targetLanguages (db w) roomId u) api
        else mret {| TranslationResult.detectedLanguage := senderLang_of (db w) roomId u;
                     TranslationResult.translations := ∅;
                     TranslationResult.confidence := 1 |});
     persist_and_broadcast roomId u content messageType translationResult) w.
Proof.
  intros Hcur Hin Hroom. unfold socket.send_message, authenticated_as in *.
  unfold socket.read_currentUserId.
  unfold mbind at 1. unfold M_bind at 1. unfold gets at 1. rewrite Hcur.
  unfold mbind at 1. unfold M_bind at 1. unfold gets at 1. rewrite Hin. cbn [negb].
  unfold mbind at 1. unfold M_bind at 1. unfold gets at 1. rewrite Hroom.
  unfold mbind at 1. unfold M_bind at 1. unfold gets at 1.
  reflexivity.
Qed.

Lemma insert_message_cases roomId senderId content messageType originalLanguage
    translatedContent s :
  let s0 := state_of (Db.next_message_id s) in
  let row := {| Message.id := messages_id_seq s;
                Message.roomId := roomId;
                Message.senderId := senderId;
                Message.content := content;
                Message.translatedContent := translatedContent;
                Message.originalLanguage := originalLanguage;
                Message.messageType := messageType;
                Message.createdAt := CURRENT_TIMESTAMP s |} in
  (roomId ∈ Room.id <$> rooms s /\ senderId ∈ User.id <$> users s /\
   Db.insert_message roomId senderId content messageType originalLanguage
     translatedContent s
   = Returned row (Db.set_messages (fun t => t ++ [row]) s0))
  \/ ((roomId ∉ Room.id <$> rooms s \/ senderId ∉ User.id <$> users s) /\
      exists e, Db.insert_message roomId senderId content messageType
                  originalLanguage translatedContent s = Threw e s0).
Proof.
  unfold Db.insert_message, Db.room_exists, Db.user_exists. monad_simpl.
  case_bool_decide as Hr; simpl.
  - case_bool_decide as Hu; simpl.
    + left. done.
    + right. split; [by right | eauto].
  - right. split; [by left | eauto].
Qed.

(** [createMessage] then the broadcast: either the row is inserted and
    then sent to the live group, or the insertion is rejected and nothing
    is sent. *)
Lemma persist_and_broadcast_cases roomId u content messageType tr w :
  let row := message_row (db w) roomId u content messageType tr in
  let s' := Db.set_messages (fun t => t ++ [row])
              (state_of (Db.next_message_id (db w))) in
  (roomId ∈ Room.id <$> rooms (db w) /\ u ∈ User.id <$> users (db w) /\
   persist_and_broadcast roomId u content messageType tr w
   = Returned tt
       (logged (set_db s' w)
          (StoreWrite row
           :: ((fun to => Emit to (Out.new_message row (sender_of (db w) u) tr))
                 <$> socket.sockets_in w (socket.roomKey roomId)))))
  \/ ((roomId ∉ Room.id <$> rooms (db w) \/ u ∉ User.id <$> users (db w)) /\
      exists e, persist_and_broadcast roomId u content messageType tr w
                = Threw e (set_db (state_of (Db.next_message_id (db w))) w)).
Proof.
  intros row s'. unfold persist_and_broadcast, storage.createMessage.
  destruct (insert_message_cases roomId u content
              (default "text" (Some (JS.or_string messageType "text")))
              (Some (TranslationResult.detectedLanguage tr))
              (Some (TranslationResult.translations tr)) (db w))
    as [(Hr & Hu & Hins)|(Hno & e & Hins)].
  - left. split; [done|]. split; [done|].
    unfold mbind at 1. unfold M_bind at 1. unfold await_storage, zoom. rewrite Hins.
    run_handler. f_equal. apply world_eq; try reflexivity.
    cbn. by rewrite <- app_assoc.
  - right. split; [done|]. exists e.
    unfold mbind at 1. unfold M_bind at 1. unfold await_storage, zoom. by rewrite Hins.
Qed.

(** The foreign keys of a concrete store, by evaluation. *)
Lemma foreign_keys_intro (s : Store) :
  Forall (fun p => RoomParticipant.roomId p ∈ Room.id <$> rooms s
                   ∧ RoomParticipant.userId p ∈ User.id <$> users s)
         (roomParticipants s) ->
  Forall (fun m => Message.roomId m ∈ Room.id <$> rooms s
                   ∧ Message.senderId m ∈ User.id <$> users s)
         (messages s) ->
  Forall (fun r => Room.createdBy r ∈ User.id <$> users s) (rooms s) ->
  Inv.foreign_keys s.
Proof.
  rewrite !Forall_forall. intros Hp Hm Hr.
  split; intros x Hx; try (by apply Hp); try (by apply Hm); by apply Hr.
Qed.

Ltac foreign_keys_by_evaluation :=
  apply foreign_keys_intro; by_evaluation.

(** ** A failed authenticate (C3) *)

(** C3 at a failing input: after authenticate for a user the store does
    not have, the connection has the error, and currentUserId holds the
    identity it was given; the join_room that follows passes the
    authentication guard and is answered Not a member of this room. *)
Lemma failed_authenticate_passes_guard :
  let w := Sample.world_of
             (Sample.setup ++ [ Connection "s1"; Authenticate "s1" 42;
                                Join_room "s1" 1;
                                Send_message "s1" 1 "hi" None ApiRejects ]) in
  storage.getUserById (db w) 42 = None
  /\ trace w = [ Emit "s1" (Out.error "User not found");
                 Emit "s1" (Out.error "Not a member of this room");
                 Emit "s1" (Out.error "Not a member of this room") ]
  /\ authenticated_as w "s1" = Some 42.
Proof. vm_compute. done. Qed.

(** The same slip, further: a connection whose authenticate failed for
    the identity the next registration receives acts as that user once the
    user exists, without ever being recorded online. *)
Lemma failed_authenticate_then_acts_as_user :
  let w := Sample.world_of
             (Sample.setup ++ [ Connection "s1"; Authenticate "s1" 3;
                                Route (CreateUser Sample.carol "hash3");
                                Route (JoinRoom 1 3 (Some "fr"));
                                Join_room "s1" 1 ]) in
  trace w = [ Emit "s1" (Out.error "User not found");
              Emit "s1" (Out.online_users 1 []) ]
  /\ socket.sockets_in w (socket.roomKey 1) = ["s1"]
  /\ onlineUsers w !! 3 = None.
Proof. vm_compute. done. Qed.

(** ** Missing rooms and users under the foreign keys *)


Lemma world_online_foreign_keys : Inv.foreign_keys (db Sample.world_online).
Proof. foreign_keys_by_evaluation. Qed.

(** ** translateMessage *)

Lemma attempt_None_iff JSON_parse (api : ApiOutcome) :
  translation.attempt JSON_parse api = None <-> translator_fails JSON_parse api.
Proof.
  unfold translator_fails, translation.attempt. destruct api as [|content].
  - split; [by left | done].
  - destruct (translation.json_match (JS.or_string content "")) as [text|] eqn:Hm.
    + destruct (JSON_parse text) as [result|] eqn:Hp.
      * split; [done|].
        intros [?|(c & [= <-] & [Hn|(t & Ht & Hnone)])]; [done| |].
        -- by rewrite Hm in Hn.
        -- rewrite Hm in Ht. injection Ht as <-. by rewrite Hp in Hnone.
      * split; [|done]. intros _. right. exists content. split; [done|].
        right. exists text. by rewrite Hm.
    + split; [|done]. intros _. right. exists content. split; [done|].
      left. by rewrite Hm.
Qed.


(** A failed Translator call resolves to the echo of the original text
    with confidence 0; the failure goes to the server console. *)
Lemma translateMessage_fails JSON_parse (text : string) (targetLanguages : list string)
    (api : ApiOutcome) (w : World) :
  targetLanguages ≠ [] ->
  translator_fails JSON_parse api ->
  translation.translateMessage JSON_parse text targetLanguages api w
  = Returned
      {| TranslationResult.detectedLanguage := "unknown";
         TranslationResult.translations := translation.fallback text targetLanguages;
         TranslationResult.confidence := 0 |}
      (logged w [TranslatorCall text targetLanguages;
                 ConsoleError "Translation error:"]).
Proof.
  intros Hne Hfail%attempt_None_iff. unfold translation.translateMessage.
  run_handler. rewrite decide_False by (by destruct targetLanguages).
  rewrite Hfail. f_equal. apply world_eq; try reflexivity.
  cbn. by rewrite <- app_assoc.
Qed.

(** Whatever the Translator does, it returns, and what it adds to the
    trace is its own call and, at most, a console line. *)
Lemma translateMessage_run JSON_parse (text : string) (targetLanguages : list string)
    (api : ApiOutcome) (w : World) :
  exists result console,
    translation.translateMessage JSON_parse text targetLanguages api w
    = Returned result (logged w (TranslatorCall text targetLanguages :: console))
    /\ (console = [] \/ console = [ConsoleError "Translation error:"]).
Proof.
  unfold translation.translateMessage. run_handler.
  case_decide.
  - eexists _, []. split; [reflexivity | by left].
  - destruct (translation.attempt JSON_parse api).
    + eexists _, []. split; [reflexivity | by left].
    + eexists _, [_]. split; [|by right]. f_equal. apply world_eq; try reflexivity.
      cbn. by rewrite <- app_assoc.
Qed.

(** ** The language of the sender *)

Lemma getUserById_Some_of_id (s : Store) (u : Z) :
  u ∈ User.id <$> users s -> exists user, storage.getUserById s u = Some user.
Proof.
  intros Hin. destruct (storage.getUserById s u) as [user|] eqn:Hget; [eauto|].
  by apply getUserById_None in Hget.
Qed.





(** ** send_message without translation (C5) *)

Lemma string_length_zero (s : string) : String.length s = 0%nat <-> s = "".
Proof. by destruct s. Qed.



(** ** send_message when the Translator fails (C2) *)



(** ** Properties kept by the handlers *)

Section Preservation.
Context (P : World -> Prop).

Lemma preserves_ret {A} (a : A) : preserves P (mret a).
Proof. by intros w Hw. Qed.

Lemma preserves_gets {A} (f : World -> A) : preserves P (gets f).
Proof. by intros w Hw. Qed.

Lemma preserves_bind {A B} (m : M World A) (f : A -> M World B) :
  preserves P m -> (forall a, preserves P (f a)) -> preserves P (m ≫= f).
Proof.
  intros Hm Hf w Hw. specialize (Hm w Hw). unfold mbind, M_bind.
  destruct (m w) as [a w'|e w']; [by apply Hf | done].
Qed.

Lemma preserves_modify (g : World -> World) :
  (forall w, P w -> P (g w)) -> preserves P (modify g).
Proof. intros Hg w Hw. by apply Hg. Qed.

Lemma preserves_when (b : bool) (m : M World unit) :
  preserves P m -> preserves P (when_ b m).
Proof. intros Hm. destruct b; [done | apply preserves_ret]. Qed.

Lemma preserves_for_of {A} (l : list A) (body : A -> M World unit) :
  (forall x, preserves P (body x)) -> preserves P (for_of l body).
Proof.
  intros Hbody. induction l as [|x l IH]; simpl.
  - apply preserves_ret.
  - apply preserves_bind; [apply Hbody | intros _; apply IH].
Qed.

Lemma preserves_await_storage {A} (m : M Store A) :
  (forall w, P w -> P (set_db (state_of (m (db w))) w)) ->
  preserves P (await_storage m).
Proof.
  intros Hm w Hw. specialize (Hm w Hw). unfold await_storage, zoom.
  by destruct (m (db w)).
Qed.
End Preservation.

(** Takes a handler apart, down to its [modify], [log] and
    [await_storage] steps. *)
Ltac preserves_steps :=
  unfold socket.socket_emit, socket.socket_to_emit, socket.io_to_emit,
    socket.socket_join, socket.socket_leave, socket.getOnlineUsersInRoom,
    socket.read_currentUserId;
  repeat first
    [ apply preserves_ret
    | apply preserves_gets
    | apply preserves_bind; [|intros ?]
    | apply preserves_when
    | apply preserves_for_of; intros ?
    | match goal with
      | |- preserves _ (match ?x with _ => _ end) => destruct x
      end ].

(** *** The trace grows, and quietly outside send_message *)

Lemma grown_quietly_frame (tr0 : list Effect) (w w' : World) :
  trace w' = trace w -> grown_quietly tr0 w -> grown_quietly tr0 w'.
Proof. intros Htr (es & Hes & Hq). exists es. by rewrite Htr. Qed.

Lemma grown_quietly_logged (tr0 : list Effect) (w : World) (es : list Effect) :
  Forall (fun e => is_broadcast e = false) es ->
  grown_quietly tr0 w -> grown_quietly tr0 (logged w es).
Proof.
  intros Hes (es0 & Htr & Hq). exists (es0 ++ es). split.
  - cbn. by rewrite Htr, app_assoc.
  - by apply Forall_app.
Qed.

Lemma quiet_log (tr0 : list Effect) (es : list Effect) :
  Forall (fun e => is_broadcast e = false) es ->
  preserves (grown_quietly tr0) (log es).
Proof. intros Hes w Hw. by apply grown_quietly_logged. Qed.

Ltac quiet_leaves :=
  first
    [ apply quiet_log;
      first [ by repeat constructor
            | apply Forall_fmap, Forall_forall; by intros ]
    | apply preserves_modify; intros ? ?;
      eapply grown_quietly_frame; [|eassumption];
      cbn; repeat case_match; reflexivity ].

Lemma authenticate_quiet tr0 sid userId :
  preserves (grown_quietly tr0) (socket.authenticate sid userId).
Proof. unfold socket.authenticate. preserves_steps; quiet_leaves. Qed.

Lemma join_room_quiet tr0 sid roomId :
  preserves (grown_quietly tr0) (socket.join_room sid roomId).
Proof. unfold socket.join_room. preserves_steps; quiet_leaves. Qed.

Lemma leave_room_quiet tr0 sid roomId :
  preserves (grown_quietly tr0) (socket.leave_room sid roomId).
Proof. unfold socket.leave_room. preserves_steps; quiet_leaves. Qed.

Lemma typing_quiet tr0 sid roomId isTyping :
  preserves (grown_quietly tr0) (socket.typing sid roomId isTyping).
Proof. unfold socket.typing. preserves_steps; quiet_leaves. Qed.

Lemma disconnect_quiet tr0 sid :
  preserves (grown_quietly tr0) (socket.disconnect sid).
Proof. unfold socket.disconnect. preserves_steps; quiet_leaves. Qed.

(** *** Persistence before broadcast (C1) *)

Lemma quiet_lookup (es : list Effect) (j : nat) to message sender translationResult :
  Forall (fun e => is_broadcast e = false) es ->
  es !! j = Some (Emit to (Out.new_message message sender translationResult)) ->
  False.
Proof.
  intros Hq Hj. rewrite Forall_forall in Hq.
  specialize (Hq _ (list_elem_of_lookup_2 _ _ _ Hj)). done.
Qed.

Lemma persisted_before_broadcast_quiet (tr es : list Effect) :
  persisted_before_broadcast tr ->
  Forall (fun e => is_broadcast e = false) es ->
  persisted_before_broadcast (tr ++ es).
Proof.
  intros Htr Hq j to message sender translationResult Hj.
  apply lookup_app_Some in Hj as [Hj|[_ Hj]].
  - destruct (Htr _ _ _ _ _ Hj) as (i & Hi & Hw).
    exists i. split; [done|]. by apply lookup_app_l_Some.
  - by destruct (quiet_lookup _ _ _ _ _ _ Hq Hj).
Qed.

Lemma persisted_before_broadcast_send (tr pre : list Effect) (m : Message.t)
    (sender : UserSummary.t) (result : TranslationResult.t)
    (recipients : list SocketId) :
  persisted_before_broadcast tr ->
  Forall (fun e => is_broadcast e = false) pre ->
  persisted_before_broadcast
    (tr ++ pre ++ StoreWrite m
        :: ((fun to => Emit to (Out.new_message m sender result)) <$> recipients)).
Proof.
  intros Htr Hq. rewrite app_assoc.
  assert (persisted_before_broadcast (tr ++ pre)) as Hpre
    by (by apply persisted_before_broadcast_quiet).
  intros j to message sender' result' Hj.
  apply lookup_app_Some in Hj as [Hj|[Hge Hj]].
  - destruct (Hpre _ _ _ _ _ Hj) as (i & Hi & Hw).
    exists i. split; [done|]. by apply lookup_app_l_Some.
  - destruct (j - length (tr ++ pre))%nat as [|k] eqn:Hk; [done|].
    cbn in Hj. apply list_lookup_fmap_Some in Hj as (to' & Heq & Hto).
    injection Heq as -> -> -> ->.
    exists (length (tr ++ pre)). split; [lia|].
    rewrite lookup_app_r by lia. by rewrite Nat.sub_diag.
Qed.

(** The order of a write and its broadcast survives interleaving: when
    the effects of two activities, each with its writes before its
    broadcasts, are merged in any order that keeps the order of each, the
    merged trace has every write before its broadcast. *)
Lemma persisted_before_broadcast_split (tr : list Effect) :
  persisted_before_broadcast tr
  <-> forall pre post to message sender translationResult,
        tr = pre ++ Emit to (Out.new_message message sender translationResult) :: post ->
        StoreWrite message ∈ pre.
Proof.
  split.
  - intros Htr pre post to message sender result ->.
    destruct (Htr (length pre) to message sender result) as (i & Hi & Hw).
    { by rewrite list_lookup_middle. }
    rewrite lookup_app_l in Hw by done. by eapply list_elem_of_lookup_2.
  - intros Hsplit j to message sender result Hj.
    apply list_elem_of_split_length in Hj as (pre & post & -> & ->).
    specialize (Hsplit _ _ _ _ _ _ eq_refl).
    apply list_elem_of_lookup_1 in Hsplit as [i Hi].
    exists i. split; [by eapply lookup_lt_Some|]. by apply lookup_app_l_Some.
Qed.

Lemma interleaves_elem (tr1 tr2 tr : list Effect) (e : Effect) :
  interleaves tr1 tr2 tr -> e ∈ tr1 \/ e ∈ tr2 -> e ∈ tr.
Proof.
  induction 1 as [|x tr1 tr2 tr _ IH|x tr1 tr2 tr _ IH]; intros Hin.
  - destruct Hin as [Hin|Hin]; by apply elem_of_nil in Hin.
  - destruct Hin as [[->|Hin]%elem_of_cons|Hin].
    + apply list_elem_of_here.
    + apply list_elem_of_further, IH. by left.
    + apply list_elem_of_further, IH. by right.
  - destruct Hin as [Hin|[->|Hin]%elem_of_cons].
    + apply list_elem_of_further, IH. by left.
    + apply list_elem_of_here.
    + apply list_elem_of_further, IH. by right.
Qed.

Lemma interleaves_split (tr1 tr2 pre post : list Effect) (e : Effect) :
  interleaves tr1 tr2 (pre ++ e :: post) ->
  exists pre1 pre2,
    interleaves pre1 pre2 pre
    /\ ((exists post1, tr1 = pre1 ++ e :: post1)
        \/ (exists post2, tr2 = pre2 ++ e :: post2)).
Proof.
  revert tr1 tr2. induction pre as [|x pre IH]; intros tr1 tr2 Hm.
  - exists [], []. split; [constructor|].
    inversion Hm; subst; [left | right]; by eexists.
  - inversion Hm as [|y t1 t2 t Hm'|y t1 t2 t Hm']; subst.
    + destruct (IH _ _ Hm') as (pre1 & pre2 & Hpre & Hcase).
      exists (x :: pre1), pre2. split; [by constructor|].
      destruct Hcase as [[post1 ->]|[post2 ->]]; [left | right]; by eexists.
    + destruct (IH _ _ Hm') as (pre1 & pre2 & Hpre & Hcase).
      exists pre1, (x :: pre2). split; [by constructor|].
      destruct Hcase as [[post1 ->]|[post2 ->]]; [left | right]; by eexists.
Qed.

Lemma interleaving_keeps_order (tr1 tr2 tr : list Effect) :
  interleaves tr1 tr2 tr ->
  persisted_before_broadcast tr1 ->
  persisted_before_broadcast tr2 ->
  persisted_before_broadcast tr.
Proof.
  rewrite !persisted_before_broadcast_split. intros Hm H1 H2.
  intros pre post to message sender result ->.
  destruct (interleaves_split _ _ _ _ _ Hm) as (pre1 & pre2 & Hpre & Hcase).
  apply (interleaves_elem pre1 pre2 pre _ Hpre).
  destruct Hcase as [[post1 ->]|[post2 ->]].
  - left. by eapply H1.
  - right. by eapply H2.
Qed.

(** What one send_message adds to the trace: nothing that is a broadcast,
    or, after the Translator's own effects, the write of a row and then
    the broadcast of that row, which is in the store. *)
Lemma send_message_trace JSON_parse (sid : SocketId) (roomId : Z)
    (content : string) (messageType : option string) (api : ApiOutcome)
    (w : World) :
  let o := socket.send_message JSON_parse sid roomId content messageType api w in
  exists es,
    trace (state_of o) = trace w ++ es
    /\ (Forall (fun e => is_broadcast e = false) es
        \/ exists pre m sender result recipients,
             es = pre ++ StoreWrite m
                    :: ((fun to => Emit to (Out.new_message m sender result))
                          <$> recipients)
             /\ Forall (fun e => is_broadcast e = false) pre
             /\ m ∈ messages (db (state_of o))
             /\ throws o = false).
Proof.
  intros o. unfold o. clear o.
  destruct (authenticated_as w sid) as [u|] eqn:Hcur; cycle 1.
  { rewrite send_message_unauthenticated by done. eexists. split; [done|].
    left. by repeat constructor. }
  destruct (storage.isUserInRoom (db w) roomId u) eqn:Hin; cycle 1.
  { rewrite (send_message_not_member _ _ _ _ u) by done. eexists. split; [done|].
    left. by repeat constructor. }
  destruct (storage.getRoomById (db w) roomId) as [room|] eqn:Hroom; cycle 1.
  { rewrite (send_message_no_room _ _ _ _ u) by done. exists []. split.
    - by rewrite app_nil_r.
    - by left. }
  rewrite (send_message_member _ _ _ _ u _ _ _ room) by done.
  assert (exists result pre,
            (if bool_decide (0 < length (targetLanguages (db w) roomId u))%nat
                && bool_decide (0 < String.length (JS.trim content))%nat
             then translation.translateMessage JSON_parse content
                    (targetLanguages (db w) roomId u) api
             else mret {| TranslationResult.detectedLanguage :=
                            senderLang_of (db w) roomId u;
                          TranslationResult.translations := ∅;
                          TranslationResult.confidence := 1 |}) w
            = Returned result (logged w pre)
            /\ Forall (fun e => is_broadcast e = false) pre)
    as (result & pre & Htr & Hpre).
  { destruct (_ && _).
    - destruct (translateMessage_run JSON_parse content
                  (targetLanguages (db w) roomId u) api w)
        as (result & console & -> & Hconsole).
      eexists _, _. split; [done|].
      destruct Hconsole as [-> | ->]; by repeat constructor.
    - eexists _, []. split; [|done]. unfold mret, M_ret. f_equal.
      apply world_eq; try reflexivity. cbn. by rewrite app_nil_r. }
  erewrite bind_returned by exact Htr.
  destruct (persist_and_broadcast_cases roomId u content messageType result
              (logged w pre)) as [(_ & _ & ->)|(_ & e & ->)].
  - eexists. split; [cbn; by rewrite <- app_assoc|].
    right. eexists pre, _, _, _, _. split; [done|]. split; [done|].
    split; [|done]. cbn. apply elem_of_app. right. by apply list_elem_of_singleton.
  - exists pre. split; [done|]. by left.
Qed.

(** The effects of one send_message, taken on their own, have the write
    before the broadcast, from whatever world the handler starts. *)
Lemma send_message_effects_ordered JSON_parse (sid : SocketId) (roomId : Z)
    (content : string) (messageType : option string) (api : ApiOutcome)
    (w : World) :
  exists es,
    trace (state_of (socket.send_message JSON_parse sid roomId content
                       messageType api w)) = trace w ++ es
    /\ persisted_before_broadcast es.
Proof.
  destruct (send_message_trace JSON_parse sid roomId content messageType api w)
    as (es & Htr & [Hq|(pre & m & sender & result & recipients & -> & Hq & _)]);
    eexists; (split; [exact Htr|]).
  - apply (persisted_before_broadcast_quiet [] es); [|done].
    intros j ? ? ? ? Hj. by rewrite lookup_nil in Hj.
  - apply (persisted_before_broadcast_send [] pre); [|done].
    intros j ? ? ? ? Hj. by rewrite lookup_nil in Hj.
Qed.

Lemma step_trace JSON_parse (ev : Event) (w w' : World) :
  step JSON_parse ev w = Some w' ->
  persisted_before_broadcast (trace w) ->
  persisted_before_broadcast (trace w').
Proof.
  intros Hstep Hw.
  assert (forall m : M World unit,
            preserves (grown_quietly (trace w)) m ->
            forall w0, trace w0 = trace w ->
            persisted_before_broadcast (trace (state_of (m w0)))) as Hquiet.
  { intros m Hm w0 Hw0. destruct (Hm w0) as (es & -> & Hes).
    - exists []. by rewrite app_nil_r.
    - by apply persisted_before_broadcast_quiet. }
  unfold step in Hstep.
  destruct ev as [sid|sid userId|sid roomId|sid roomId|sid roomId content mt api
                 |sid roomId isTyping|sid|c|now];
    try destruct (connected w sid); try discriminate Hstep;
    injection Hstep as <-.
  - exact Hw.
  - by apply Hquiet; [apply authenticate_quiet|].
  - by apply Hquiet; [apply join_room_quiet|].
  - by apply Hquiet; [apply leave_room_quiet|].
  - destruct (send_message_trace JSON_parse sid roomId content mt api w)
      as (es & -> & [Hq|(pre & m & sender & result & recipients & -> & Hq & _)]).
    + by apply persisted_before_broadcast_quiet.
    + by apply persisted_before_broadcast_send.
  - by apply Hquiet; [apply typing_quiet|].
  - change (persisted_before_broadcast
              (trace (state_of (socket.disconnect sid (leaveAll sid w))))).
    by apply Hquiet; [apply disconnect_quiet|].
  - unfold await_storage, zoom. by destruct (storage_call c (db w)).
  - exact Hw.
Qed.

Lemma run_invariant JSON_parse (P : World -> Prop) :
  (forall ev w w', step JSON_parse ev w = Some w' -> P w -> P w') ->
  forall evs w w', run JSON_parse evs w = Some w' -> P w -> P w'.
Proof.
  intros Hstep evs. induction evs as [|ev evs IH]; intros w w' Hrun Hw; simpl in Hrun.
  - by injection Hrun as <-.
  - destruct (step JSON_parse ev w) as [w1|] eqn:Hev; [|done].
    eapply IH; [exact Hrun|]. by eapply Hstep.
Qed.

(** C1: in every execution of the process, each new_message packet of
    the trace comes after the StoreWrite of the message it carries, the
    completion of createMessage for that row; and whenever a send_message
    handler emits new_message for a row, the handler has not thrown and the
    row is in the messages table of the store it leaves. *)
Theorem persistence_precedes_broadcast
    (JSON_parse : string -> option ParsedResult.t) (evs : list Event) (w : World) :
  run JSON_parse evs initial_world = Some w ->
  persisted_before_broadcast (trace w)
  /\ (forall sid roomId content messageType api,
        let o := socket.send_message JSON_parse sid roomId content messageType api w in
        forall to message sender translationResult,
          Emit to (Out.new_message message sender translationResult)
            ∈ drop (length (trace w)) (trace (state_of o)) ->
          message ∈ messages (db (state_of o)) /\ throws o = false).
Proof.
  intros Hrun. split.
  - eapply (run_invariant JSON_parse (fun w => persisted_before_broadcast (trace w)));
      [apply step_trace | exact Hrun |].
    intros j to message sender translationResult Hj. done.
  - intros sid roomId content messageType api o to message sender result Hin.
    destruct (send_message_trace JSON_parse sid roomId content messageType api w)
      as (es & Htr & Hes). fold o in Htr, Hes.
    rewrite Htr, drop_app_length in Hin.
    destruct Hes as [Hq|(pre & m & sender' & result' & recipients & -> & Hq & Hm & Hok)].
    + rewrite Forall_forall in Hq. by specialize (Hq _ Hin).
    + apply elem_of_app in Hin as [Hin|Hin].
      { rewrite Forall_forall in Hq. by specialize (Hq _ Hin). }
      apply elem_of_cons in Hin as [Hin|Hin]; [done|].
      apply list_elem_of_fmap in Hin as (to' & Heq & _).
      by injection Heq as -> -> -> ->.
Qed.

Lemma persistence_precedes_broadcast_witness :
  exists i message sender translationResult,
    (i < 5)%nat
    /\ trace (Sample.world_of
                (Sample.setup ++ [ Connection "a"; Authenticate "a" 1;
                                   Join_room "a" 1;
                                   Send_message "a" 1 "Hello" None ApiRejects ]))
          !! i = Some (StoreWrite message)
    /\ trace (Sample.world_of
                (Sample.setup ++ [ Connection "a"; Authenticate "a" 1;
                                   Join_room "a" 1;
                                   Send_message "a" 1 "Hello" None ApiRejects ]))
          !! 5%nat = Some (Emit "a" (Out.new_message message sender translationResult)).
Proof.
  destruct (persistence_precedes_broadcast Sample.JSON_parse
              (Sample.setup ++ [ Connection "a"; Authenticate "a" 1;
                                 Join_room "a" 1;
                                 Send_message "a" 1 "Hello" None ApiRejects ])
              (Sample.world_of
                 (Sample.setup ++ [ Connection "a"; Authenticate "a" 1;
                                    Join_room "a" 1;
                                    Send_message "a" 1 "Hello" None ApiRejects ])))
    as [Hordered _].
  { vm_compute. reflexivity. }
  assert (exists message sender translationResult,
            trace (Sample.world_of
                     (Sample.setup ++ [ Connection "a"; Authenticate "a" 1;
                                        Join_room "a" 1;
                                        Send_message "a" 1 "Hello" None ApiRejects ]))
              !! 5%nat
            = Some (Emit "a" (Out.new_message message sender translationResult)))
    as (message & sender & translationResult & Hj).
  { eexists _, _, _. vm_compute. reflexivity. }
  destruct (Hordered _ _ _ _ _ Hj) as (i & Hi & Hw).
  exists i, message, sender, translationResult.
  split; [exact Hi|]. split; [exact Hw | exact Hj].
Defined.

(** ** Presence (C4) *)

Lemma presence_ok_frame (w w' : World) :
  onlineUsers w' = onlineUsers w -> presence_ok w -> presence_ok w'.
Proof. intros Heq Hw u sockets. rewrite Heq. apply Hw. Qed.

Ltac presence_leaves :=
  unfold log;
  first
    [ apply preserves_modify; intros ? ?;
      eapply presence_ok_frame; [|eassumption];
      cbn; repeat case_match; reflexivity
    | apply preserves_await_storage; intros ? ?;
      eapply presence_ok_frame; [|eassumption]; reflexivity ].

Lemma set_add_not_nil `{EqDecision A} (x : A) (l : list A) : JS.set_add x l ≠ [].
Proof.
  intros Hnil. pose proof (set_add_elem x l) as Hin. rewrite Hnil in Hin.
  by apply elem_of_nil in Hin.
Qed.

Lemma authenticate_presence sid userId :
  preserves presence_ok (socket.authenticate sid userId).
Proof.
  intros w Hw.
  destruct (storage.getUserById (db w) userId) as [user|] eqn:Huser.
  - rewrite (authenticate_known_user w sid userId user) by done.
    intros u sockets. cbn.
    destruct (decide (userId = u)) as [->|Hne].
    + rewrite lookup_insert_eq. intros [= <-]. apply set_add_not_nil.
    + rewrite lookup_insert_ne by done. apply Hw.
  - rewrite authenticate_unknown_user by done. exact Hw.
Qed.

Lemma join_room_presence sid roomId :
  preserves presence_ok (socket.join_room sid roomId).
Proof. unfold socket.join_room. preserves_steps; presence_leaves. Qed.

Lemma leave_room_presence sid roomId :
  preserves presence_ok (socket.leave_room sid roomId).
Proof. unfold socket.leave_room. preserves_steps; presence_leaves. Qed.

Lemma typing_presence sid roomId isTyping :
  preserves presence_ok (socket.typing sid roomId isTyping).
Proof. unfold socket.typing. preserves_steps; presence_leaves. Qed.

Lemma send_message_presence JSON_parse sid roomId content messageType api :
  preserves presence_ok
    (socket.send_message JSON_parse sid roomId content messageType api).
Proof.
  unfold socket.send_message, translation.translateMessage.
  preserves_steps; presence_leaves.
Qed.

(** The presence part of disconnect: the connection is taken out of the
    user's set, and a set left empty is deleted from the map. *)
Lemma disconnect_presence sid :
  preserves presence_ok (socket.disconnect sid).
Proof.
  unfold socket.disconnect.
  apply preserves_bind; [apply preserves_gets|]. intros cur.
  destruct (socket.truthy cur) as [u|]; [|apply preserves_ret].
  apply preserves_bind; [apply preserves_gets|]. intros sockets.
  apply preserves_bind; [|intros ?; preserves_steps; presence_leaves].
  destruct sockets as [sockets|]; [|apply preserves_ret].
  intros w Hw. monad_simpl. case_bool_decide as Hempty; cbn.
  - intros u' sockets' Hlook. cbn in Hlook.
    destruct (decide (u = u')) as [->|Hne].
    + by rewrite lookup_delete_eq in Hlook.
    + rewrite lookup_delete_ne, lookup_insert_ne in Hlook by done.
      by apply (Hw u').
  - intros u' sockets' Hlook. cbn in Hlook.
    destruct (decide (u = u')) as [->|Hne].
    + rewrite lookup_insert_eq in Hlook. injection Hlook as <-.
      intros Hnil. apply Hempty. by rewrite Hnil.
    + rewrite lookup_insert_ne in Hlook by done. by apply (Hw u').
Qed.

Lemma step_presence JSON_parse (ev : Event) (w w' : World) :
  step JSON_parse ev w = Some w' -> presence_ok w -> presence_ok w'.
Proof.
  intros Hstep Hw. unfold step in Hstep.
  destruct ev as [sid|sid userId|sid roomId|sid roomId|sid roomId content mt api
                 |sid roomId isTyping|sid|c|now];
    try destruct (connected w sid); try discriminate Hstep;
    injection Hstep as <-.
  - exact Hw.
  - by apply authenticate_presence.
  - by apply join_room_presence.
  - by apply leave_room_presence.
  - by apply send_message_presence.
  - by apply typing_presence.
  - apply (presence_ok_frame (state_of (socket.disconnect sid (leaveAll sid w))));
      [done|].
    by apply disconnect_presence.
  - unfold await_storage, zoom. by destruct (storage_call c (db w)).
  - exact Hw.
Qed.

Lemma reachable_presence_ok JSON_parse (w : World) :
  reachable JSON_parse w -> presence_ok w.
Proof.
  intros [evs Hrun].
  eapply (run_invariant JSON_parse presence_ok); [apply step_presence | exact Hrun |].
  intros u sockets Hlook. cbn in Hlook. by rewrite lookup_empty in Hlook.
Qed.

Lemma online_in_room_elem (w : World) (roomId u : Z) :
  u ∈ online_in_room w roomId
  <-> (exists q, q ∈ storage.getRoomParticipants (db w) roomId
                 /\ RoomParticipant.userId q.1 = u)
      /\ is_Some (onlineUsers w !! u).
Proof.
  unfold online_in_room. rewrite list_elem_of_fmap. split.
  - intros (q & -> & Hq). apply list_elem_of_filter in Hq as [Hon Hq]. eauto.
  - intros [(q & Hq & <-) Hon]. exists q. split; [done|].
    by apply list_elem_of_filter.
Qed.

(** A member whose user row exists is a participant of the room as
    [getRoomParticipants] lists them. *)
Lemma member_is_listed (s : Store) (roomId u : Z) (user : User.t) :
  storage.getUserById s u = Some user ->
  storage.isUserInRoom s roomId u = true ->
  exists q, q ∈ storage.getRoomParticipants s roomId
            /\ RoomParticipant.userId q.1 = u.
Proof.
  intros Huser (p & rest & Hm)%isUserInRoom_true.
  assert (p ∈ storage.membership s roomId u) as Hp
    by (rewrite Hm; apply list_elem_of_here).
  apply membership_elem in Hp as (Hp & Hr & Hu).
  exists (p, UserSummary.of_user user). split; [|done].
  unfold storage.getRoomParticipants. apply list_elem_of_omap. exists p. split.
  - by apply list_elem_of_filter.
  - by rewrite Hu, Huser.
Qed.

(** C4, as the code has it: in every reachable state and for every room,
    a user is in the online list derived for the room exactly when the
    user is one of the participants the store lists for the room and at
    least one connection id is registered for the user in onlineUsers.
    Joining the live group plays no part: once authenticate has succeeded
    for a user, the user is in the online list of every room the user is a
    member of. *)
Theorem online_members_characterisation
    (JSON_parse : string -> option ParsedResult.t) (w : World) :
  reachable JSON_parse w ->
  (forall roomId u,
     u ∈ online_in_room w roomId
     <-> (exists q, q ∈ storage.getRoomParticipants (db w) roomId
                    /\ RoomParticipant.userId q.1 = u)
         /\ (exists sid, sid ∈ default [] (onlineUsers w !! u)))
  /\ (forall roomId, socket.getOnlineUsersInRoom roomId w
                     = Returned (online_in_room w roomId) w)
  /\ (forall sid userId user roomId,
        storage.getUserById (db w) userId = Some user ->
        storage.isUserInRoom (db w) roomId userId = true ->
        userId ∈ online_in_room (state_of (socket.authenticate sid userId w)) roomId).
Proof.
  intros Hreach. pose proof (reachable_presence_ok _ _ Hreach) as Hok.
  split; [|split; [done|]].
  - intros roomId u. rewrite online_in_room_elem.
    assert (is_Some (onlineUsers w !! u)
            <-> exists sid, sid ∈ default [] (onlineUsers w !! u)) as ->; [|done].
    split.
    + intros [sockets Hlook]. rewrite Hlook. cbn.
      destruct sockets as [|sid sockets]; [by destruct (Hok u [])|].
      exists sid. apply list_elem_of_here.
    + intros [sid Hsid]. destruct (onlineUsers w !! u); [done|].
      by apply elem_of_nil in Hsid.
  - intros sid userId user roomId Huser Hin.
    rewrite (authenticate_known_user w sid userId user) by done.
    apply online_in_room_elem. split.
    + by apply (member_is_listed (db w) roomId userId user).
    + cbn. by rewrite lookup_insert_eq.
Qed.

Lemma online_members_characterisation_witness :
  1 ∈ online_in_room
        (Sample.world_of (Sample.setup ++ [Connection "a"; Authenticate "a" 1])) 1
  <-> (exists q,
         q ∈ storage.getRoomParticipants
               (db (Sample.world_of
                      (Sample.setup ++ [Connection "a"; Authenticate "a" 1]))) 1
         /\ RoomParticipant.userId q.1 = 1)
      /\ (exists sid,
            sid ∈ default []
                    (onlineUsers
                       (Sample.world_of
                          (Sample.setup ++ [Connection "a"; Authenticate "a" 1]))
                     !! 1)).
Proof.
  apply (online_members_characterisation Sample.JSON_parse).
  exists (Sample.setup ++ [Connection "a"; Authenticate "a" 1]).
  vm_compute. reflexivity.
Defined.

(** C4 as stated fails: Alice is authenticated on connection a and is a
    participant of room 1; no connection has joined the live group of room
    1, and Alice is in the online list of room 1. *)
Lemma online_without_joining :
  let w := Sample.world_of (Sample.setup ++ [Connection "a"; Authenticate "a" 1]) in
  reachable Sample.JSON_parse w
  /\ authenticated_as w "a" = Some 1
  /\ storage.isUserInRoom (db w) 1 1 = true
  /\ socket.sockets_in w (socket.roomKey 1) = []
  /\ userRooms w !! "a" = None
  /\ socket.getOnlineUsersInRoom 1 w = Returned [1] w.
Proof.
  split.
  - exists (Sample.setup ++ [Connection "a"; Authenticate "a" 1]).
    vm_compute. reflexivity.
  - vm_compute. done.
Qed.

(** ** The integrity of the database is kept by every storage call *)

Lemma length_filter_filter {A} (P Q : A -> Prop) `{forall x, Decision (P x)}
    `{forall x, Decision (Q x)} (l : list A) :
  (length (filter P (filter Q l)) <= length (filter P l))%nat.
Proof.
  induction l as [|x l IH]; [done|].
  rewrite (filter_cons Q). destruct (decide (Q x)).
  - rewrite !(filter_cons P). destruct (decide (P x)); simpl; lia.
  - rewrite (filter_cons P). destruct (decide (P x)); simpl; lia.
Qed.

Lemma length_filter_fmap {A} (P : A -> Prop) `{forall x, Decision (P x)}
    (f : A -> A) (l : list A) :
  (forall x, P (f x) <-> P x) ->
  length (filter P (f <$> l)) = length (filter P l).
Proof.
  intros Hf. induction l as [|x l IH]; [done|].
  rewrite fmap_cons, !filter_cons.
  destruct (decide (P (f x))) as [Hy|Hn], (decide (P x)) as [Hy'|Hn']; simpl;
    [ by rewrite IH | exfalso; apply Hn'; by apply Hf
    | exfalso; apply Hn; by apply Hf | done ].
Qed.

Section Tables.
Lemma store_ok_tables (s : Store) :
  Inv.store_ok s
  <-> tables_ok (users s) (rooms s) (roomParticipants s) (messages s)
                (rooms_id_seq s).
Proof.
  split.
  - intros [[F1 F2 F3 F4 F5] Hone Hids]. repeat split; auto.
  - intros (Hp & Hm & Hr & Hone). split; [split|..].
    + intros p Hin. by apply Hp.
    + intros p Hin. by apply Hp.
    + intros m Hin. by apply Hm.
    + intros m Hin. by apply Hm.
    + intros r Hin. by apply Hr.
    + exact Hone.
    + intros r Hin. by apply Hr.
Qed.

Context (us : list User.t) (rs : list Room.t) (ps : list RoomParticipant.t)
        (ms : list Message.t) (q : Z).
Hypothesis Hok : tables_ok us rs ps ms q.

Lemma tables_ok_users (us' : list User.t) :
  (forall i, i ∈ User.id <$> us -> i ∈ User.id <$> us') ->
  tables_ok us' rs ps ms q.
Proof.
  destruct Hok as (Hp & Hm & Hr & Hone). intros Hsub. repeat split.
  - by apply Hp.
  - by apply Hsub, Hp.
  - by apply Hm.
  - by apply Hsub, Hm.
  - by apply Hsub, Hr.
  - by apply Hr.
  - apply Hone.
Qed.

Lemma tables_ok_rooms (rs' : list Room.t) (q' : Z) :
  (forall i, i ∈ Room.id <$> rs -> i ∈ Room.id <$> rs') ->
  (forall r, r ∈ rs' -> Room.createdBy r ∈ User.id <$> us /\ Room.id r < q') ->
  tables_ok us rs' ps ms q'.
Proof.
  destruct Hok as (Hp & Hm & Hr & Hone). intros Hsub Hnew. repeat split.
  - by apply Hsub, Hp.
  - by apply Hp.
  - by apply Hsub, Hm.
  - by apply Hm.
  - by apply Hnew.
  - by apply Hnew.
  - apply Hone.
Qed.

Lemma tables_ok_filter_participants (keep : RoomParticipant.t -> Prop)
    `{forall p, Decision (keep p)} :
  tables_ok us rs (filter keep ps) ms q.
Proof.
  destruct Hok as (Hp & Hm & Hr & Hone). repeat split.
  - apply Hp. by apply list_elem_of_filter in H0 as [_ ?].
  - apply Hp. by apply list_elem_of_filter in H0 as [_ ?].
  - by apply Hm.
  - by apply Hm.
  - by apply Hr.
  - by apply Hr.
  - intros roomId userId. etrans; [|apply (Hone roomId userId)].
    apply length_filter_filter.
Qed.

Lemma tables_ok_update_participants (f : RoomParticipant.t -> RoomParticipant.t) :
  (forall p, RoomParticipant.roomId (f p) = RoomParticipant.roomId p) ->
  (forall p, RoomParticipant.userId (f p) = RoomParticipant.userId p) ->
  tables_ok us rs (f <$> ps) ms q.
Proof.
  destruct Hok as (Hp & Hm & Hr & Hone). intros Hroom Huser. repeat split.
  - apply list_elem_of_fmap in H as (p0 & -> & Hin). rewrite Hroom. by apply Hp.
  - apply list_elem_of_fmap in H as (p0 & -> & Hin). rewrite Huser. by apply Hp.
  - by apply Hm.
  - by apply Hm.
  - by apply Hr.
  - by apply Hr.
  - intros roomId userId. rewrite length_filter_fmap; [apply Hone|].
    intros p. by rewrite Hroom, Huser.
Qed.

Lemma tables_ok_add_participant (row : RoomParticipant.t) :
  RoomParticipant.roomId row ∈ Room.id <$> rs ->
  RoomParticipant.userId row ∈ User.id <$> us ->
  filter (fun p => RoomParticipant.roomId p = RoomParticipant.roomId row
                   ∧ RoomParticipant.userId p = RoomParticipant.userId row) ps = [] ->
  tables_ok us rs (ps ++ [row]) ms q.
Proof.
  destruct Hok as (Hp & Hm & Hr & Hone). intros Hroom Huser Hnew. repeat split.
  - apply elem_of_app in H as [Hin|Hrow%list_elem_of_singleton];
      [by apply Hp | by subst].
  - apply elem_of_app in H as [Hin|Hrow%list_elem_of_singleton];
      [by apply Hp | by subst].
  - by apply Hm.
  - by apply Hm.
  - by apply Hr.
  - by apply Hr.
  - intros roomId userId. rewrite filter_app, length_app.
    rewrite filter_cons, filter_nil. case_decide as Hrow; simpl.
    + destruct Hrow as [<- <-]. rewrite Hnew. simpl. lia.
    + specialize (Hone roomId userId). lia.
Qed.

Lemma tables_ok_filter_messages (keep : Message.t -> Prop)
    `{forall m, Decision (keep m)} :
  tables_ok us rs ps (filter keep ms) q.
Proof.
  destruct Hok as (Hp & Hm & Hr & Hone). repeat split.
  - by apply Hp.
  - by apply Hp.
  - apply Hm. by apply list_elem_of_filter in H0 as [_ ?].
  - apply Hm. by apply list_elem_of_filter in H0 as [_ ?].
  - by apply Hr.
  - by apply Hr.
  - apply Hone.
Qed.

Lemma tables_ok_add_message (row : Message.t) :
  Message.roomId row ∈ Room.id <$> rs ->
  Message.senderId row ∈ User.id <$> us ->
  tables_ok us rs ps (ms ++ [row]) q.
Proof.
  destruct Hok as (Hp & Hm & Hr & Hone). intros Hroom Huser. repeat split.
  - by apply Hp.
  - by apply Hp.
  - apply elem_of_app in H as [Hin|Hrow%list_elem_of_singleton];
      [by apply Hm | by subst].
  - apply elem_of_app in H as [Hin|Hrow%list_elem_of_singleton];
      [by apply Hm | by subst].
  - by apply Hr.
  - by apply Hr.
  - apply Hone.
Qed.

Lemma tables_ok_remove_user (id : Z) :
  (forall p, p ∈ ps -> RoomParticipant.userId p ≠ id) ->
  (forall m, m ∈ ms -> Message.senderId m ≠ id) ->
  (forall r, r ∈ rs -> Room.createdBy r ≠ id) ->
  tables_ok (filter (fun u => User.id u ≠ id) us) rs ps ms q.
Proof.
  destruct Hok as (Hp & Hm & Hr & Hone). intros Hnp Hnm Hnr.
  assert (forall i, i ≠ id -> i ∈ User.id <$> us ->
                    i ∈ User.id <$> filter (fun u => User.id u ≠ id) us) as Hkeep.
  { intros i Hne (u & -> & Hu)%list_elem_of_fmap.
    apply list_elem_of_fmap. exists u. split; [done|].
    by apply list_elem_of_filter. }
  repeat split.
  - by apply Hp.
  - apply Hkeep; [by apply Hnp | by apply Hp].
  - by apply Hm.
  - apply Hkeep; [by apply Hnm | by apply Hm].
  - apply Hkeep; [by apply Hnr | by apply Hr].
  - by apply Hr.
  - apply Hone.
Qed.
End Tables.

(** A store with the same tables and a room sequence that has not gone
    back is as sound as the one it comes from. *)
Lemma store_ok_same_tables (s s' : Store) :
  users s' = users s -> rooms s' = rooms s ->
  roomParticipants s' = roomParticipants s -> messages s' = messages s ->
  rooms_id_seq s <= rooms_id_seq s' ->
  Inv.store_ok s -> Inv.store_ok s'.
Proof.
  intros Hu Hr Hp Hm Hseq Hok%store_ok_tables. apply store_ok_tables.
  rewrite Hu, Hp, Hm. rewrite Hr.
  apply (tables_ok_rooms _ _ _ _ _ Hok); [done|].
  intros r Hin. destruct Hok as (_ & _ & Hrooms & _).
  destruct (Hrooms r Hin). split; [done | lia].
Qed.

Lemma fmap_id_preserved {A} (key : A -> Z) (f : A -> A) (l : list A) :
  (forall x, key (f x) = key x) -> key <$> (f <$> l) = key <$> l.
Proof.
  intros Hf. induction l as [|x l IH]; [done|].
  rewrite !fmap_cons, Hf. by f_equal.
Qed.

(** Reads the tables of the store a call leaves. *)
Ltac tables_of_state :=
  cbv beta iota zeta delta
    [storage.updateUser storage.setUserRole storage.setRoomActive
     storage.leaveRoom storage.updateParticipantLanguage
     mbind M_bind modify gets mret M_ret state_of];
  apply store_ok_tables;
  cbn [users rooms roomParticipants messages rooms_id_seq
       Db.set_users Db.set_rooms Db.set_roomParticipants Db.set_messages
       state_of Db.next_user_id Db.next_room_id Db.next_participant_id
       Db.next_message_id].

Lemma createUser_store_ok data hashedPassword (s : Store) :
  Inv.store_ok s -> Inv.store_ok (state_of (storage.createUser data hashedPassword s)).
Proof.
  intros Hok. unfold storage.createUser, Db.insert_user. monad_simpl.
  repeat case_bool_decide; simpl;
    try (by apply (store_ok_same_tables s)).
  tables_of_state. apply store_ok_tables in Hok.
  apply (tables_ok_users _ _ _ _ _ Hok). intros i Hi.
  rewrite fmap_app. apply elem_of_app. by left.
Qed.

Lemma updateUser_store_ok id data (s : Store) :
  Inv.store_ok s -> Inv.store_ok (state_of (storage.updateUser id data s)).
Proof.
  intros Hok%store_ok_tables. tables_of_state.
  apply (tables_ok_users _ _ _ _ _ Hok). intros i Hi.
  rewrite fmap_id_preserved; [done|]. intros u. by case_decide.
Qed.

Lemma setUserRole_store_ok userId role (s : Store) :
  Inv.store_ok s -> Inv.store_ok (state_of (storage.setUserRole userId role s)).
Proof.
  intros Hok%store_ok_tables. tables_of_state.
  apply (tables_ok_users _ _ _ _ _ Hok). intros i Hi.
  rewrite fmap_id_preserved; [done|]. intros u. by case_decide.
Qed.

Lemma setRoomActive_store_ok roomId isActive (s : Store) :
  Inv.store_ok s -> Inv.store_ok (state_of (storage.setRoomActive roomId isActive s)).
Proof.
  intros Hok%store_ok_tables. tables_of_state.
  apply (tables_ok_rooms _ _ _ _ _ Hok).
  - intros i Hi. rewrite fmap_id_preserved; [done|]. intros r. by case_decide.
  - intros r (r0 & -> & Hin)%list_elem_of_fmap.
    destruct Hok as (_ & _ & Hrooms & _). destruct (Hrooms r0 Hin).
    by case_decide.
Qed.

Lemma leaveRoom_store_ok roomId userId (s : Store) :
  Inv.store_ok s -> Inv.store_ok (state_of (storage.leaveRoom roomId userId s)).
Proof.
  intros Hok%store_ok_tables. tables_of_state.
  by apply tables_ok_filter_participants.
Qed.

Lemma updateParticipantLanguage_store_ok roomId userId language (s : Store) :
  Inv.store_ok s ->
  Inv.store_ok (state_of (storage.updateParticipantLanguage roomId userId language s)).
Proof.
  intros Hok%store_ok_tables. tables_of_state.
  apply (tables_ok_update_participants _ _ _ _ _ Hok); intros p; by case_decide.
Qed.

Lemma joinRoom_store_ok roomId userId language (s : Store) :
  Inv.store_ok s -> Inv.store_ok (state_of (storage.joinRoom roomId userId language s)).
Proof.
  intros Hok.
  destruct (storage.membership s roomId userId) as [|p rest] eqn:Hm.
  - rewrite joinRoom_fresh by done.
    destruct (insert_participant_cases roomId userId (default "en" language) s)
      as [(Hr & Hu & ->)|(_ & e & ->)].
    + tables_of_state. apply store_ok_tables in Hok.
      by apply (tables_ok_add_participant _ _ _ _ _ Hok).
    + by apply (store_ok_same_tables s).
  - by rewrite (joinRoom_existing s _ _ _ p rest).
Qed.

Lemma createMessage_store_ok roomId senderId content messageType originalLanguage
    translatedContent (s : Store) :
  Inv.store_ok s ->
  Inv.store_ok (state_of (storage.createMessage roomId senderId content messageType
                            originalLanguage translatedContent s)).
Proof.
  intros Hok. unfold storage.createMessage.
  destruct (insert_message_cases roomId senderId content (default "text" messageType)
              originalLanguage translatedContent s)
    as [(Hr & Hu & ->)|(_ & e & ->)].
  - tables_of_state. apply store_ok_tables in Hok.
    by apply (tables_ok_add_message _ _ _ _ _ Hok).
  - by apply (store_ok_same_tables s).
Qed.

Lemma createRoom_store_ok name createdBy languages random (s : Store) :
  Inv.store_ok s ->
  Inv.store_ok (state_of (storage.createRoom name createdBy languages random s)).
Proof.
  intros Hok.
  destruct (createRoom_cases name createdBy languages random s)
    as [(_ & _ & Hu & ->)|(_ & e & ->)].
  - pose proof (no_membership_of_next_room s createdBy Hok) as Hnew.
    tables_of_state. apply store_ok_tables in Hok.
    apply tables_ok_add_participant.
    + apply (tables_ok_rooms _ _ _ _ _ Hok).
      * intros i Hi. rewrite fmap_app. apply elem_of_app. by left.
      * intros r [Hin|Hrow%list_elem_of_singleton]%elem_of_app.
        -- destruct Hok as (_ & _ & Hrooms & _). destruct (Hrooms r Hin).
           split; [done | lia].
        -- subst r. cbn. split; [done | lia].
    + cbn. rewrite fmap_app. apply elem_of_app. right.
      by apply list_elem_of_singleton.
    + done.
    + exact Hnew.
  - apply (store_ok_same_tables s); try done. cbn. lia.
Qed.

Lemma deleteUser_store_ok id (s : Store) :
  Inv.store_ok s -> Inv.store_ok (state_of (storage.deleteUser id s)).
Proof.
  intros Hok%store_ok_tables.
  assert (tables_ok (users s) (rooms s)
            (filter (fun p => RoomParticipant.userId p ≠ id) (roomParticipants s))
            (filter (fun m => Message.senderId m ≠ id) (messages s))
            (rooms_id_seq s)) as Hok2.
  { apply tables_ok_filter_messages. by apply tables_ok_filter_participants. }
  unfold storage.deleteUser, Db.delete_user, Db.user_exists. monad_simpl.
  destruct (decide (id ∈ User.id <$> users s)) as [Huser|Huser].
  - rewrite (bool_decide_eq_true_2 _ Huser). simpl.
    destruct (decide (id ∈ Room.createdBy <$> rooms s)) as [Hcreator|Hcreator].
    { rewrite (bool_decide_eq_true_2 _ Hcreator). simpl.
      tables_of_state. exact Hok2. }
    rewrite (bool_decide_eq_false_2 _ Hcreator). simpl.
    destruct (decide (id ∈ Message.senderId
                            <$> filter (fun m => Message.senderId m ≠ id) (messages s)))
      as [Hsender|Hsender].
    { rewrite (bool_decide_eq_true_2 _ Hsender). simpl.
      tables_of_state. exact Hok2. }
    rewrite (bool_decide_eq_false_2 _ Hsender). simpl.
    tables_of_state.
    apply tables_ok_remove_user.
    + by apply tables_ok_filter_participants.
    + intros p [_ Hp]%list_elem_of_filter.
      by apply list_elem_of_filter in Hp as [Hne _].
    + intros m Hm. by apply list_elem_of_filter in Hm as [Hne _].
    + intros r Hr Heq. apply Hcreator. apply list_elem_of_fmap. eauto.
  - rewrite (bool_decide_eq_false_2 _ Huser). simpl.
    tables_of_state.
    apply tables_ok_remove_user.
    + by apply tables_ok_filter_participants.
    + intros p [_ Hp]%list_elem_of_filter.
      by apply list_elem_of_filter in Hp as [Hne _].
    + intros m Hm. by apply list_elem_of_filter in Hm as [Hne _].
    + intros r Hr Heq. apply Huser. rewrite <- Heq.
      destruct Hok as (_ & _ & Hrooms & _). by destruct (Hrooms r Hr).
Qed.

Lemma storage_call_store_ok (c : StorageCall) (s : Store) :
  Inv.store_ok s -> Inv.store_ok (state_of (storage_call c s)).
Proof.
  intros Hok.
  assert (forall A (m : M Store A),
            state_of ((m ≫= fun _ => mret tt) s) = state_of (m s)) as Hdrop.
  { intros A m. unfold mbind, M_bind. by destruct (m s). }
  destruct c; cbn [storage_call]; rewrite ?Hdrop.
  - by apply createUser_store_ok.
  - by apply updateUser_store_ok.
  - by apply deleteUser_store_ok.
  - by apply createRoom_store_ok.
  - by apply joinRoom_store_ok.
  - by apply leaveRoom_store_ok.
  - by apply setRoomActive_store_ok.
  - by apply setUserRole_store_ok.
  - by apply updateParticipantLanguage_store_ok.
Qed.

(** ** The database stays sound in every reachable state *)













(** ** Missing rooms and users in a reachable state (C7) *)



(** * Further properties of the code *)

(** ** Accounts (storage.ts) *)

Lemma head_filter_snoc_fresh {A} (P : A -> Prop) `{forall x, Decision (P x)}
    (l : list A) (x : A) :
  (forall y, y ∈ l -> ¬ P y) -> P x -> head (filter P (l ++ [x])) = Some x.
Proof.
  intros Hno Hx. rewrite filter_app.
  rewrite (proj2 (filter_nil_iff P l) Hno). simpl.
  rewrite filter_cons. destruct (decide (P x)); [reflexivity | contradiction].
Qed.

Lemma insert_user_cases (v : InsertUser.t) (s : Store) :
  let s0 := state_of (Db.next_user_id s) in
  let row := {| User.id := users_id_seq s;
                User.email := InsertUser.email v;
                User.username := InsertUser.username v;
                User.password := InsertUser.password v;
                User.displayName := InsertUser.displayName v;
                User.profilePhoto := None;
                User.publicKey := None;
                User.role := "user";
                User.preferredLanguage := default "en" (InsertUser.preferredLanguage v);
                User.createdAt := CURRENT_TIMESTAMP s |} in
  (InsertUser.email v ∈ User.email <$> users s
   /\ Db.insert_user v s = Threw (UniqueViolation "email") s0)
  \/ (¬ (InsertUser.email v ∈ User.email <$> users s)
      /\ InsertUser.username v ∈ User.username <$> users s
      /\ Db.insert_user v s = Threw (UniqueViolation "username") s0)
  \/ (¬ (InsertUser.email v ∈ User.email <$> users s)
      /\ ¬ (InsertUser.username v ∈ User.username <$> users s)
      /\ Db.insert_user v s = Returned row (Db.set_users (fun t => t ++ [row]) s0)).
Proof.
  intros s0 row. unfold Db.insert_user. monad_simpl.
  destruct (decide (InsertUser.email v ∈ User.email <$> users s)) as [He|He].
  { left. split; [exact He|]. rewrite (bool_decide_eq_true_2 _ He). reflexivity. }
  right. rewrite (bool_decide_eq_false_2 _ He). simpl.
  destruct (decide (InsertUser.username v ∈ User.username <$> users s)) as [Hu|Hu].
  { left. split; [exact He|]. split; [exact Hu|].
    rewrite (bool_decide_eq_true_2 _ Hu). reflexivity. }
  right. rewrite (bool_decide_eq_false_2 _ Hu). simpl.
  split; [exact He|]. split; [exact Hu|]. reflexivity.
Qed.

Lemma createUser_cases (data : InsertUser.t) (hashedPassword : string) (s : Store) :
  let s0 := state_of (Db.next_user_id s) in
  let row := {| User.id := users_id_seq s;
                User.email := InsertUser.email data;
                User.username := InsertUser.username data;
                User.password := hashedPassword;
                User.displayName := InsertUser.displayName data;
                User.profilePhoto := None;
                User.publicKey := None;
                User.role := "user";
                User.preferredLanguage :=
                  default "en" (InsertUser.preferredLanguage data);
                User.createdAt := CURRENT_TIMESTAMP s |} in
  (InsertUser.email data ∈ User.email <$> users s
   /\ storage.createUser data hashedPassword s = Threw (UniqueViolation "email") s0)
  \/ (¬ (InsertUser.email data ∈ User.email <$> users s)
      /\ InsertUser.username data ∈ User.username <$> users s
      /\ storage.createUser data hashedPassword s
         = Threw (UniqueViolation "username") s0)
  \/ (¬ (InsertUser.email data ∈ User.email <$> users s)
      /\ ¬ (InsertUser.username data ∈ User.username <$> users s)
      /\ storage.createUser data hashedPassword s
         = Returned row (Db.set_users (fun t => t ++ [row]) s0)).
Proof.
  intros s0 row. unfold storage.createUser.
  exact (insert_user_cases
           {| InsertUser.email := InsertUser.email data;
              InsertUser.username := InsertUser.username data;
              InsertUser.password := hashedPassword;
              InsertUser.displayName := InsertUser.displayName data;
              InsertUser.preferredLanguage := InsertUser.preferredLanguage data |} s).
Qed.

Lemma getUserByEmail_snoc (s : Store) (row : User.t) :
  User.email row ∉ User.email <$> users s ->
  storage.getUserByEmail (Db.set_users (fun t => t ++ [row]) s) (User.email row)
  = Some row.
Proof.
  intros He. unfold storage.getUserByEmail. simpl.
  apply head_filter_snoc_fresh; [|reflexivity].
  intros y Hy Heq. apply He. apply list_elem_of_fmap. exists y. split; [|exact Hy].
  symmetry; exact Heq.
Qed.



Lemma getUserByEmail_None (s : Store) (email : string) :
  email ∉ User.email <$> users s -> storage.getUserByEmail s email = None.
Proof.
  intros He. unfold storage.getUserByEmail.
  rewrite (proj2 (filter_nil_iff _ (users s))); [reflexivity|].
  intros y Hy Heq. apply He. apply list_elem_of_fmap. exists y.
  split; [symmetry; exact Heq | exact Hy].
Qed.

(** X2 (verifyPassword after createUser).  Registration then login: before
    the account exists verifyPassword answers null under its email; once
    createUser has returned, verifyPassword under that email returns the
    created row exactly when bcrypt.compare accepts the password against
    the hash that was stored, and null otherwise. *)
Theorem register_then_login (compare : string -> string -> bool)
    (data : InsertUser.t) (hashedPassword : string) (s s' : Store)
    (row : User.t) (password : string) :
  storage.createUser data hashedPassword s = Returned row s' ->
  storage.verifyPassword compare s (InsertUser.email data) password = None
  /\ storage.verifyPassword compare s' (InsertUser.email data) password
     = (if compare password hashedPassword then Some row else None).
Proof.
  intros Hrun.
  pose proof (createUser_cases data hashedPassword s) as Hc. cbv zeta in Hc.
  set (row0 := User.mk _ _ _ _ _ _ _ _ _ _) in Hc.
  destruct Hc as [[_ Hthrew]|[(_ & _ & Hthrew)|(He & Hu & Hret)]];
    try (rewrite Hthrew in Hrun; discriminate Hrun).
  rewrite Hret in Hrun. injection Hrun as <- <-.
  unfold storage.verifyPassword.
  split.
  - rewrite (getUserByEmail_None _ _ He). reflexivity.
  - replace (storage.getUserByEmail _ _) with (Some row0); [reflexivity|].
    symmetry. exact (getUserByEmail_snoc (state_of (Db.next_user_id s)) row0 He).
Qed.

Lemma register_then_login_witness :
  storage.verifyPassword (fun _ hash => bool_decide (hash = "hash1")) empty_store
    "alice@example.org" "secret1" = None
  /\ storage.verifyPassword (fun _ hash => bool_decide (hash = "hash1"))
       Sample.store_alice "alice@example.org" "secret1"
     = (if bool_decide ("hash1" = "hash1")
        then Some {| User.id := 1; User.email := "alice@example.org";
                     User.username := "alice"; User.password := "hash1";
                     User.displayName := "Alice"; User.profilePhoto := None;
                     User.publicKey := None; User.role := "user";
                     User.preferredLanguage := "en"; User.createdAt := 0 |}
        else None).
Proof.
  apply (register_then_login (fun _ hash => bool_decide (hash = "hash1"))
           Sample.alice "hash1" empty_store Sample.store_alice
           {| User.id := 1; User.email := "alice@example.org";
              User.username := "alice"; User.password := "hash1";
              User.displayName := "Alice"; User.profilePhoto := None;
              User.publicKey := None; User.role := "user";
              User.preferredLanguage := "en"; User.createdAt := 0 |}
           "secret1").
  vm_compute. reflexivity.
Defined.

(** ** Deleting an account (storage.ts) *)

Lemma head_filter_Some {A} (P : A -> Prop) `{forall x, Decision (P x)}
    (l : list A) (x : A) :
  head (filter P l) = Some x -> x ∈ l /\ P x.
Proof.
  intros Hhead. apply head_Some_elem_of in Hhead.
  apply list_elem_of_filter in Hhead. tauto.
Qed.

Lemma getUserById_Some (s : Store) (u : Z) (user : User.t) :
  storage.getUserById s u = Some user -> user ∈ users s /\ User.id user = u.
Proof.
  intros Hget. exact (head_filter_Some (fun x => User.id x = u) (users s) user Hget).
Qed.

Lemma getRoomById_Some (s : Store) (r : Z) (room : Room.t) :
  storage.getRoomById s r = Some room -> room ∈ rooms s /\ Room.id room = r.
Proof.
  intros Hget. exact (head_filter_Some (fun x => Room.id x = r) (rooms s) room Hget).
Qed.

Lemma membership_filter (keep : RoomParticipant.t -> Prop)
    `{forall p, Decision (keep p)} (s : Store) (roomId userId : Z) :
  storage.membership (Db.set_roomParticipants (filter keep) s) roomId userId
  = filter keep (storage.membership s roomId userId).
Proof.
  unfold storage.membership. simpl.
  rewrite !list_filter_filter. apply list_filter_iff. tauto.
Qed.

Lemma not_member_after_filter (keep : RoomParticipant.t -> Prop)
    `{forall p, Decision (keep p)} (s : Store) (roomId userId : Z) :
  (forall p, RoomParticipant.roomId p = roomId -> RoomParticipant.userId p = userId ->
             ¬ keep p) ->
  storage.isUserInRoom (Db.set_roomParticipants (filter keep) s) roomId userId = false.
Proof.
  intros Hdrop. apply isUserInRoom_false. rewrite membership_filter.
  apply filter_nil_iff. intros p Hp. apply membership_elem in Hp.
  destruct Hp as (_ & Hr & Hu). exact (Hdrop p Hr Hu).
Qed.

Lemma deleteUser_cases (id : Z) (s : Store) :
  let s1 := Db.set_messages (filter (fun m => Message.senderId m ≠ id))
              (Db.set_roomParticipants
                 (filter (fun p => RoomParticipant.userId p ≠ id)) s) in
  (id ∈ User.id <$> users s /\ id ∈ Room.createdBy <$> rooms s
   /\ storage.deleteUser id s = Threw (ForeignKeyViolation "created_by") s1)
  \/ (¬ (id ∈ User.id <$> users s /\ id ∈ Room.createdBy <$> rooms s)
      /\ storage.deleteUser id s
         = Returned tt
             (Db.set_users (filter (fun u => User.id u ≠ id))
                (Db.set_roomParticipants
                   (filter (fun p => RoomParticipant.userId p ≠ id)) s1))).
Proof.
  intros s1. unfold storage.deleteUser, Db.delete_user, Db.user_exists.
  monad_simpl. fold s1.
  assert (Hmsg : bool_decide
            (id ∈ Message.senderId
                    <$> filter (fun m => Message.senderId m ≠ id) (messages s))
          = false).
  { apply bool_decide_eq_false_2. intros Hin.
    apply list_elem_of_fmap in Hin. destruct Hin as (m & Hid & Hm).
    apply list_elem_of_filter in Hm. destruct Hm as [Hne _]. apply Hne.
    symmetry; exact Hid. }
  destruct (decide (id ∈ User.id <$> users s)) as [Hu|Hu].
  - rewrite (bool_decide_eq_true_2 _ Hu). simpl.
    destruct (decide (id ∈ Room.createdBy <$> rooms s)) as [Hr|Hr].
    + left. rewrite (bool_decide_eq_true_2 _ Hr). simpl. auto.
    + right. rewrite (bool_decide_eq_false_2 _ Hr). simpl.
      rewrite Hmsg. simpl. split; [tauto | reflexivity].
  - right. rewrite (bool_decide_eq_false_2 _ Hu). simpl.
    split; [tauto | reflexivity].
Qed.

(** X3 (deleteUser of a user who created a room).  deleteUser is three
    separate DELETE statements.  For an existing user who created a room
    the third one is rejected (rooms.created_by refers to the row): the
    call throws, the account and the rooms are still there, but the
    user's memberships and messages are already gone, the membership of
    the user's own rooms included. *)
Theorem deleteUser_of_room_creator (id : Z) (s : Store) :
  id ∈ User.id <$> users s ->
  id ∈ Room.createdBy <$> rooms s ->
  exists s',
    storage.deleteUser id s = Threw (ForeignKeyViolation "created_by") s'
    /\ users s' = users s
    /\ rooms s' = rooms s
    /\ (forall roomId, storage.isUserInRoom s' roomId id = false)
    /\ (forall m, m ∈ messages s' <-> m ∈ messages s /\ Message.senderId m ≠ id)
    /\ (forall roomId u, u ≠ id ->
          storage.membership s' roomId u = storage.membership s roomId u).
Proof.
  intros Hu Hr.
  destruct (deleteUser_cases id s) as [(_ & _ & Hrun)|[Hno _]]; [|tauto].
  eexists. split; [exact Hrun|]. split; [reflexivity|]. split; [reflexivity|].
  split; [|split].
  - intros roomId.
    apply (not_member_after_filter (fun p => RoomParticipant.userId p ≠ id) s).
    intros p _ Hp Hne. exact (Hne Hp).
  - intros m. simpl. rewrite list_elem_of_filter. tauto.
  - intros roomId u Hne.
    change (storage.membership
              (Db.set_roomParticipants
                 (filter (fun p => RoomParticipant.userId p ≠ id)) s) roomId u
            = storage.membership s roomId u).
    rewrite membership_filter. unfold storage.membership.
    rewrite list_filter_filter. apply list_filter_iff.
    intros p. split; [tauto|]. intros [Hp1 Hp2]. split; [congruence|tauto].
Qed.

Lemma deleteUser_of_room_creator_witness :
  exists s',
    storage.deleteUser 1 Sample.store_room
    = Threw (ForeignKeyViolation "created_by") s'
    /\ users s' = users Sample.store_room
    /\ rooms s' = rooms Sample.store_room
    /\ (forall roomId, storage.isUserInRoom s' roomId 1 = false)
    /\ (forall m, m ∈ messages s'
                  <-> m ∈ messages Sample.store_room /\ Message.senderId m ≠ 1)
    /\ (forall roomId u, u ≠ 1 ->
          storage.membership s' roomId u
          = storage.membership Sample.store_room roomId u).
Proof.
  apply (deleteUser_of_room_creator 1 Sample.store_room); by_evaluation.
Defined.

Lemma getUserById_filter_other (s : Store) (id u : Z) (l : list User.t) :
  u ≠ id ->
  head (filter (fun x => User.id x = u) (filter (fun x => User.id x ≠ id) l))
  = head (filter (fun x => User.id x = u) l).
Proof.
  intros Hne. rewrite list_filter_filter. f_equal. apply list_filter_iff.
  intros x. split; [tauto|]. intros Hx. split; [exact Hx | congruence].
Qed.

(** X4 (deleteUser of a user who created no room).  The call returns;
    afterwards getUserById finds no such user, the user is a member of no
    room and no message of the user is left, while the rooms and every
    other account are as before.  For an id that no user has, the same
    holds: the call returns. *)
Theorem deleteUser_removes_account (id : Z) (s : Store) :
  ¬ (id ∈ Room.createdBy <$> rooms s) ->
  exists s',
    storage.deleteUser id s = Returned tt s'
    /\ storage.getUserById s' id = None
    /\ (forall u, u ≠ id -> storage.getUserById s' u = storage.getUserById s u)
    /\ (forall roomId, storage.isUserInRoom s' roomId id = false)
    /\ (forall m, m ∈ messages s' <-> m ∈ messages s /\ Message.senderId m ≠ id)
    /\ rooms s' = rooms s.
Proof.
  intros Hr.
  destruct (deleteUser_cases id s) as [(_ & Hin & _)|[_ Hrun]]; [contradiction|].
  eexists. split; [exact Hrun|]. split; [|split; [|split; [|split]]].
  - apply getUserById_None. simpl. intros Hin.
    apply list_elem_of_fmap in Hin. destruct Hin as (x & Hid & Hx).
    apply list_elem_of_filter in Hx. destruct Hx as [Hne _]. apply Hne.
    symmetry; exact Hid.
  - intros u Hne. unfold storage.getUserById. simpl.
    apply (getUserById_filter_other s id u (users s) Hne).
  - intros roomId.
    apply (not_member_after_filter (fun p => RoomParticipant.userId p ≠ id)).
    intros p _ Hp Hne. exact (Hne Hp).
  - intros m. simpl. rewrite list_elem_of_filter. tauto.
  - reflexivity.
Qed.

Lemma deleteUser_removes_account_witness :
  exists s',
    storage.deleteUser 2 (db Sample.world_online) = Returned tt s'
    /\ storage.getUserById s' 2 = None
    /\ (forall u, u ≠ 2 ->
          storage.getUserById s' u = storage.getUserById (db Sample.world_online) u)
    /\ (forall roomId, storage.isUserInRoom s' roomId 2 = false)
    /\ (forall m, m ∈ messages s'
                  <-> m ∈ messages (db Sample.world_online) /\ Message.senderId m ≠ 2)
    /\ rooms s' = rooms (db Sample.world_online).
Proof.
  apply (deleteUser_removes_account 2 (db Sample.world_online)).
  by_evaluation.
Defined.

(** ** Memberships (storage.ts) *)





(** ** Listing participants and rooms (storage.ts) *)

Lemma getRoomParticipants_rows (s : Store) (l : list RoomParticipant.t) :
  (forall p, p ∈ l -> RoomParticipant.userId p ∈ User.id <$> users s) ->
  fst <$> omap (fun p => match storage.getUserById s (RoomParticipant.userId p) with
                         | Some user => Some (p, UserSummary.of_user user)
                         | None => None
                         end) l
  = l.
Proof.
  induction l as [|p l IH]; intros Hfk; [reflexivity|].
  simpl.
  destruct (getUserById_Some_of_id s (RoomParticipant.userId p)) as [user Huser].
  { apply Hfk. apply elem_of_cons. left; reflexivity. }
  rewrite Huser. simpl. f_equal. apply IH.
  intros q Hq. apply Hfk. apply elem_of_cons. right; exact Hq.
Qed.

(** X7 (getRoomParticipants).  On a store where every participant row
    refers to a user (the foreign key of the schema), getRoomParticipants
    returns the participant rows of the room as the select yields them,
    none dropped and none twice, and the summary next to a row is that of
    a user of the table whose id is the row's userId. *)
Theorem getRoomParticipants_complete (s : Store) (roomId : Z) :
  Inv.foreign_keys s ->
  fst <$> storage.getRoomParticipants s roomId
  = filter (fun p => RoomParticipant.roomId p = roomId) (roomParticipants s)
  /\ (forall q, q ∈ storage.getRoomParticipants s roomId ->
        UserSummary.id q.2 = RoomParticipant.userId q.1
        /\ exists user, user ∈ users s /\ q.2 = UserSummary.of_user user).
Proof.
  intros Hfk. split.
  - apply getRoomParticipants_rows. intros p Hp.
    apply list_elem_of_filter in Hp. destruct Hp as [_ Hp].
    exact (Inv.fk_participant_user s Hfk p Hp).
  - intros q Hq. unfold storage.getRoomParticipants in Hq.
    apply list_elem_of_omap in Hq. destruct Hq as (p & _ & Hq).
    destruct (storage.getUserById s (RoomParticipant.userId p)) as [user|] eqn:Huser;
      [|discriminate Hq].
    injection Hq as <-. simpl.
    apply getUserById_Some in Huser. destruct Huser as [Hin Hid].
    split; [exact Hid|]. exists user. split; [exact Hin | reflexivity].
Qed.

Lemma getRoomParticipants_complete_witness :
  fst <$> storage.getRoomParticipants (db Sample.world_online) 1
  = filter (fun p => RoomParticipant.roomId p = 1)
           (roomParticipants (db Sample.world_online))
  /\ (forall q, q ∈ storage.getRoomParticipants (db Sample.world_online) 1 ->
        UserSummary.id q.2 = RoomParticipant.userId q.1
        /\ exists user, user ∈ users (db Sample.world_online)
                        /\ q.2 = UserSummary.of_user user).
Proof.
  apply (getRoomParticipants_complete (db Sample.world_online) 1).
  exact world_online_foreign_keys.
Defined.

Lemma getUserRooms_elem (s : Store) (userId : Z) (x : RoomWithCount.t) :
  x ∈ storage.getUserRooms s userId
  <-> exists p, p ∈ roomParticipants s
        /\ RoomParticipant.userId p = userId
        /\ storage.getRoomById s (RoomParticipant.roomId p) = Some (RoomWithCount.room x)
        /\ Room.isActive (RoomWithCount.room x) = true
        /\ RoomWithCount.participantCount x
           = length (filter (fun q => RoomParticipant.roomId q
                                      = Room.id (RoomWithCount.room x))
                            (roomParticipants s)).
Proof.
  unfold storage.getUserRooms. rewrite list_elem_of_omap. split.
  - intros (p & Hp & Hx). apply list_elem_of_filter in Hp. destruct Hp as [Hu Hp].
    exists p. split; [exact Hp|]. split; [exact Hu|].
    destruct (storage.getRoomById s (RoomParticipant.roomId p)) as [room|];
      [|discriminate Hx].
    destruct (Room.isActive room) eqn:Hact; [|discriminate Hx].
    injection Hx as <-. simpl. auto.
  - intros (p & Hp & Hu & Hroom & Hact & Hcount). exists p.
    split; [apply list_elem_of_filter; auto|].
    rewrite Hroom, Hact. destruct x as [room n]. simpl in *. rewrite Hcount.
    reflexivity.
Qed.

(** X8 (getUserRooms).  Every entry of a user's room list is a room of the
    table that is active and of which the user is a member, and its
    participantCount is the number of participant rows of that room, hence
    at least one.  Conversely every active room the user is a member of is
    listed. *)
Theorem getUserRooms_lists_active_memberships (s : Store) (userId : Z) :
  (forall x, x ∈ storage.getUserRooms s userId ->
     RoomWithCount.room x ∈ rooms s
     /\ Room.isActive (RoomWithCount.room x) = true
     /\ storage.isUserInRoom s (Room.id (RoomWithCount.room x)) userId = true
     /\ (1 <= RoomWithCount.participantCount x)%nat
     /\ RoomWithCount.participantCount x
        = length (filter (fun q => RoomParticipant.roomId q
                                   = Room.id (RoomWithCount.room x))
                         (roomParticipants s)))
  /\ (forall roomId room,
        storage.getRoomById s roomId = Some room ->
        Room.isActive room = true ->
        storage.isUserInRoom s roomId userId = true ->
        exists x, x ∈ storage.getUserRooms s userId /\ RoomWithCount.room x = room).
Proof.
  split.
  - intros x Hx. apply getUserRooms_elem in Hx.
    destruct Hx as (p & Hp & Hu & Hroom & Hact & Hcount).
    apply getRoomById_Some in Hroom. destruct Hroom as [Hin Hid].
    assert (Hmem : p ∈ storage.membership s (Room.id (RoomWithCount.room x)) userId).
    { apply membership_elem. rewrite Hid. auto. }
    split; [exact Hin|]. split; [exact Hact|]. split; [|split; [|exact Hcount]].
    + apply isUserInRoom_true.
      destruct (storage.membership s (Room.id (RoomWithCount.room x)) userId)
        as [|p0 rest]; [|eauto].
      apply elem_of_nil in Hmem. contradiction.
    + rewrite Hcount.
      assert (Hp' : p ∈ filter (fun q => RoomParticipant.roomId q
                                         = Room.id (RoomWithCount.room x))
                               (roomParticipants s)).
      { apply list_elem_of_filter. rewrite Hid. auto. }
      destruct (filter _ (roomParticipants s)) as [|p0 rest];
        [apply elem_of_nil in Hp'; contradiction | simpl; lia].
  - intros roomId room Hroom Hact Hmem.
    apply isUserInRoom_true in Hmem. destruct Hmem as (p & rest & Hm).
    assert (Hp : p ∈ storage.membership s roomId userId)
      by (rewrite Hm; apply elem_of_cons; left; reflexivity).
    apply membership_elem in Hp. destruct Hp as (Hp & Hr & Hu).
    exists {| RoomWithCount.room := room;
              RoomWithCount.participantCount :=
                length (filter (fun q => RoomParticipant.roomId q = Room.id room)
                               (roomParticipants s)) |}.
    split; [|reflexivity]. apply getUserRooms_elem. exists p. simpl.
    rewrite Hr. auto.
Qed.


(** X9 (setRoomActive, getUserRooms, isUserInRoom).  setRoomActive never
    throws and changes no membership: who is a member of which room is as
    before, of the disabled room too.  Once a room has been disabled it is
    in no user's room list (a room that is listed under that id after
    setRoomActive was given true); every other room reads as before. *)
Theorem setRoomActive_hides_room (roomId : Z) (isActive : bool) (s : Store) :
  exists s',
    storage.setRoomActive roomId isActive s = Returned tt s'
    /\ (forall u x, x ∈ storage.getUserRooms s' u ->
          Room.id (RoomWithCount.room x) = roomId -> isActive = true)
    /\ (forall r u, storage.isUserInRoom s' r u = storage.isUserInRoom s r u)
    /\ (forall r, r ≠ roomId -> storage.getRoomById s' r = storage.getRoomById s r)
    /\ (forall room, storage.getRoomById s roomId = Some room ->
          storage.getRoomById s' roomId = Some (with_active isActive room)).
Proof.
  eexists. split; [reflexivity|]. split; [|split; [|split]].
  - intros u x Hx Hid. apply getUserRooms_elem in Hx.
    destruct Hx as (p & _ & _ & Hroom & Hact & _).
    apply getRoomById_Some in Hroom. destruct Hroom as [Hin _]. simpl in Hin.
    apply list_elem_of_fmap in Hin. destruct Hin as (room0 & Heq & _).
    destruct (decide (Room.id room0 = roomId)) as [_|Hne].
    + rewrite Heq in Hact. simpl in Hact. exact Hact.
    + rewrite Heq in Hid. contradiction.
  - intros r u. reflexivity.
  - intros r Hne. unfold storage.getRoomById. simpl.
    induction (rooms s) as [|x l IH]; [reflexivity|].
    rewrite fmap_cons, !filter_cons.
    destruct (decide (Room.id x = roomId)) as [Hx|Hx]; simpl.
    + destruct (decide (Room.id x = r)); [congruence|]. exact IH.
    + destruct (decide (Room.id x = r)); [reflexivity | exact IH].
  - intros room. unfold storage.getRoomById. simpl.
    induction (rooms s) as [|x l IH]; [discriminate|].
    rewrite fmap_cons, !filter_cons.
    destruct (decide (Room.id x = roomId)) as [Hx|Hx]; simpl.
    + destruct (decide (Room.id x = roomId)); [|contradiction].
      simpl. intros [= <-]. reflexivity.
    + destruct (decide (Room.id x = roomId)); [contradiction|]. exact IH.
Qed.

(** ** Finding a room by its code (storage.ts) *)

(** X10 (getRoomByCode after createRoom).  Once createRoom has returned a
    room, getRoomByCode finds that very room for every text whose upper
    case is the room's code, in whatever case it was typed; a code of
    which no room has the upper case finds nothing. *)
Theorem createRoom_then_getRoomByCode (toUpperCase : string -> string)
    (s : Store) (name : string) (createdBy : Z) (languages : option (list string))
    (random : JS.Rand) (room : Room.t) (s' : Store) (typed : string) :
  storage.createRoom name createdBy languages random s = Returned room s' ->
  toUpperCase typed = Room.roomCode room ->
  storage.getRoomByCode toUpperCase s' typed = Some room
  /\ storage.getRoomByCode toUpperCase s typed = None.
Proof.
  intros Hrun Hcode.
  pose proof (createRoom_cases name createdBy languages random s) as Hc.
  cbv zeta in Hc. set (room0 := Room.mk _ _ _ _ _ _ _) in Hc.
  destruct Hc as [(_ & Hfree & _ & Hret)|[_ [e Hthrew]]];
    [|rewrite Hthrew in Hrun; discriminate Hrun].
  rewrite Hret in Hrun. injection Hrun as <- <-.
  assert (Hno : forall y, y ∈ rooms s -> ¬ Room.roomCode y = toUpperCase typed).
  { intros y Hy Heq. apply Hfree. unfold Codes.collides.
    apply list_elem_of_fmap. exists y. split; [|exact Hy].
    rewrite Heq, Hcode. reflexivity. }
  unfold storage.getRoomByCode. split.
  - simpl. apply head_filter_snoc_fresh; [exact Hno|]. symmetry; exact Hcode.
  - rewrite (proj2 (filter_nil_iff _ (rooms s)) Hno). reflexivity.
Qed.

Lemma createRoom_then_getRoomByCode_witness :
  storage.getRoomByCode ascii_toUpperCase Sample.store_room "aaaAAA"
  = Some {| Room.id := 1; Room.roomCode := "AAAAAA"; Room.name := "R42";
            Room.createdBy := 1; Room.languages := ["en"];
            Room.isActive := true; Room.createdAt := 0 |}
  /\ storage.getRoomByCode ascii_toUpperCase Sample.store_alice "aaaAAA" = None.
Proof.
  apply (createRoom_then_getRoomByCode ascii_toUpperCase Sample.store_alice
           "R42" 1 (Some ["en"]) Sample.zeros).
  - vm_compute. reflexivity.
  - vm_compute. reflexivity.
Defined.

(** ** Joining a room for the first time (storage.ts) *)


(** ** The storage object keeps the database sound *)

(** X12 (every mutator of storage.ts).  Whatever call is made on the
    storage object (createUser, updateUser, deleteUser, createRoom,
    joinRoom, leaveRoom, setRoomActive, setUserRole,
    updateParticipantLanguage, createMessage), with whatever arguments and
    whether it returns or throws half way, a database in which the
    references of the schema hold, no (room, user) pair has two participant
    rows and every room id was drawn from the sequence is left in such a
    state. *)
Theorem storage_keeps_database_sound (s : Store) :
  Inv.store_ok s ->
  (forall c, Inv.store_ok (state_of (storage_call c s)))
  /\ (forall roomId senderId content messageType originalLanguage translatedContent,
        Inv.store_ok
          (state_of (storage.createMessage roomId senderId content messageType
                       originalLanguage translatedContent s))).
Proof.
  intros Hok. split.
  - intros c. exact (storage_call_store_ok c s Hok).
  - intros roomId senderId content messageType originalLanguage translatedContent.
    exact (createMessage_store_ok roomId senderId content messageType
             originalLanguage translatedContent s Hok).
Qed.

Lemma storage_keeps_database_sound_witness :
  (forall c, Inv.store_ok (state_of (storage_call c Sample.store_alice)))
  /\ (forall roomId senderId content messageType originalLanguage translatedContent,
        Inv.store_ok
          (state_of (storage.createMessage roomId senderId content messageType
                       originalLanguage translatedContent Sample.store_alice))).
Proof.
  apply (storage_keeps_database_sound Sample.store_alice). exact store_alice_ok.
Defined.

(** ** The Translator (translation.ts) *)

Lemma append_cons (c : ascii) (a b : string) : String c a +:+ b = String c (a +:+ b).
Proof. reflexivity. Qed.

Lemma append_nil (b : string) : "" +:+ b = b.
Proof. reflexivity. Qed.

Lemma from_first_open_Some (s t : string) :
  translation.from_first_open s = Some t
  <-> exists pre t', s = pre +:+ t /\ t = String translation.open_brace t'
                     /\ translation.open_brace ∉ list_ascii_of_string pre.
Proof.
  split.
  - revert t. induction s as [|c r IH]; intros t Hs; [discriminate Hs|].
    simpl in Hs. destruct (decide (c = translation.open_brace)) as [->|Hc].
    + injection Hs as <-. exists "", r. rewrite append_nil.
      split; [reflexivity|]. split; [reflexivity|]. simpl. apply not_elem_of_nil.
    + destruct (IH t Hs) as (pre & t' & -> & -> & Hpre).
      exists (String c pre), t'. rewrite append_cons.
      split; [reflexivity|]. split; [reflexivity|]. simpl.
      intros Hin. apply elem_of_cons in Hin. destruct Hin as [Heq|Hin]; [|tauto].
      apply Hc. symmetry; exact Heq.
  - intros (pre & t' & -> & -> & Hpre).
    induction pre as [|c pre IH].
    + rewrite append_nil. simpl.
      destruct (decide (translation.open_brace = translation.open_brace));
        [reflexivity|contradiction].
    + rewrite append_cons. simpl. simpl in Hpre.
      destruct (decide (c = translation.open_brace)) as [->|Hc].
      * exfalso. apply Hpre. apply elem_of_cons. left; reflexivity.
      * apply IH. intros Hin. apply Hpre. apply elem_of_cons. right; exact Hin.
Qed.

Lemma to_last_close_None (s : string) :
  translation.close_brace ∉ list_ascii_of_string s ->
  translation.to_last_close s = None.
Proof.
  induction s as [|c r IH]; intros Hs; [reflexivity|].
  simpl in *. rewrite IH.
  - destruct (decide (c = translation.close_brace)) as [->|Hc]; [|reflexivity].
    exfalso. apply Hs. apply elem_of_cons. left; reflexivity.
  - intros Hin. apply Hs. apply elem_of_cons. right; exact Hin.
Qed.

Lemma to_last_close_Some (s p : string) :
  translation.to_last_close s = Some p
  <-> exists body post,
        s = body +:+ String translation.close_brace post
        /\ p = body +:+ String translation.close_brace ""
        /\ translation.close_brace ∉ list_ascii_of_string post.
Proof.
  split.
  - revert p. induction s as [|c r IH]; intros p Hs; [discriminate Hs|].
    simpl in Hs. destruct (translation.to_last_close r) as [p'|] eqn:Hr.
    + injection Hs as <-. destruct (IH p' eq_refl) as (body & post & -> & -> & Hpost).
      exists (String c body), post. rewrite !append_cons. auto.
    + destruct (decide (c = translation.close_brace)) as [->|Hc]; [|discriminate Hs].
      injection Hs as <-. exists "", r. rewrite !append_nil.
      split; [reflexivity|]. split; [reflexivity|].
      intros Hin. clear IH. revert Hr Hin. generalize r. clear.
      induction r as [|c r IH]; simpl; intros Hr Hin.
      * apply elem_of_nil in Hin. exact Hin.
      * destruct (translation.to_last_close r) eqn:Hr'; [discriminate Hr|].
        destruct (decide (c = translation.close_brace)) as [->|Hc]; [discriminate Hr|].
        apply elem_of_cons in Hin. destruct Hin as [Heq|Hin]; [congruence|].
        exact (IH eq_refl Hin).
  - intros (body & post & -> & -> & Hpost).
    induction body as [|c body IH].
    + rewrite !append_nil. simpl. rewrite (to_last_close_None post Hpost).
      destruct (decide (translation.close_brace = translation.close_brace));
        [reflexivity|contradiction].
    + rewrite !append_cons. simpl. rewrite IH. reflexivity.
Qed.

(** X13 (translateMessage, the regular expression of line 92).  The text
    taken from the answer of the completion API is the part from its first
    opening brace to its last closing brace: the match exists exactly
    when the answer reads pre { body } post with no opening brace in pre
    and no closing brace in post, and it is then { body }.  What stands
    before and after (an explanation, a code fence) is dropped; a nested
    or a second object stays inside the match. *)
Theorem json_match_first_to_last_brace (content m : string) :
  translation.json_match content = Some m
  <-> exists pre body post,
        content = pre +:+ String translation.open_brace
                            (body +:+ String translation.close_brace post)
        /\ m = String translation.open_brace
                 (body +:+ String translation.close_brace "")
        /\ ¬ (translation.open_brace ∈ list_ascii_of_string pre)
        /\ ¬ (translation.close_brace ∈ list_ascii_of_string post).
Proof.
  unfold translation.json_match. split.
  - intros Hm.
    destruct (translation.from_first_open content) as [t|] eqn:Ht; [|discriminate Hm].
    simpl in Hm. apply from_first_open_Some in Ht.
    destruct Ht as (pre & t' & -> & -> & Hpre).
    apply to_last_close_Some in Hm. destruct Hm as (body & post & Heq & -> & Hpost).
    destruct body as [|c body].
    + rewrite append_nil in Heq. injection Heq as Hc _. discriminate Hc.
    + rewrite append_cons in Heq. injection Heq as <- ->.
      exists pre, body, post. rewrite append_cons. auto.
  - intros (pre & body & post & -> & -> & Hpre & Hpost).
    assert (Hopen : translation.from_first_open
                      (pre +:+ String translation.open_brace
                                 (body +:+ String translation.close_brace post))
                    = Some (String translation.open_brace
                              (body +:+ String translation.close_brace post))).
    { apply from_first_open_Some. eauto. }
    rewrite Hopen. simpl.
    rewrite (proj2 (to_last_close_Some
                      (body +:+ String translation.close_brace post)
                      (body +:+ String translation.close_brace "")));
      [reflexivity|].
    exists body, post. auto.
Qed.

Lemma or_number_nonzero (a : option Q) (d : Q) :
  ¬ (d == 0)%Q -> ¬ (JS.or_number a d == 0)%Q.
Proof.
  intros Hd. unfold JS.or_number. destruct a as [q|]; [|exact Hd].
  destruct (Qeq_bool q 0) eqn:Hq; [exact Hd|].
  intros Heq. apply Qeq_bool_iff in Heq. congruence.
Qed.

Lemma attempt_confidence JSON_parse (api : ApiOutcome) (result : TranslationResult.t) :
  translation.attempt JSON_parse api = Some result ->
  ¬ (TranslationResult.confidence result == 0)%Q.
Proof.
  unfold translation.attempt. destruct api as [|content]; [discriminate|].
  destruct (translation.json_match (JS.or_string content "")) as [t|]; [|discriminate].
  destruct (JSON_parse t) as [parsed|]; [|discriminate].
  intros [= <-]. simpl. apply or_number_nonzero. discriminate.
Qed.

(** X14 (translateMessage).  For a non-empty list of target languages
    translateMessage always returns (it never throws), touches neither the
    database nor the presence maps and sends nothing to any connection;
    and the confidence of what it returns is 0 exactly when the Translator
    failed.  A successful answer never carries confidence 0: a confidence
    of 0 (or none) in the parsed answer is replaced by 0.8. *)
Theorem confidence_zero_iff_translator_failed
    (JSON_parse : string -> option ParsedResult.t) (text : string)
    (targetLanguages : list string) (api : ApiOutcome) (w : World) :
  targetLanguages ≠ [] ->
  exists result console,
    translation.translateMessage JSON_parse text targetLanguages api w
    = Returned result (logged w (TranslatorCall text targetLanguages :: console))
    /\ Forall (fun e => exists label, e = ConsoleError label) console
    /\ ((TranslationResult.confidence result == 0)%Q
        <-> translator_fails JSON_parse api).
Proof.
  intros Hne.
  destruct (translation.attempt JSON_parse api) as [result|] eqn:Hattempt.
  - exists result, []. split; [|split].
    + unfold translation.translateMessage. monad_simpl.
      destruct (decide (length targetLanguages = 0%nat)) as [Hlen|_].
      { destruct targetLanguages; [contradiction|discriminate Hlen]. }
      rewrite Hattempt. reflexivity.
    + constructor.
    + split.
      * intros Hzero. exfalso.
        exact (attempt_confidence JSON_parse api result Hattempt Hzero).
      * intros Hfails. apply attempt_None_iff in Hfails. congruence.
  - apply attempt_None_iff in Hattempt.
    eexists. exists [ConsoleError "Translation error:"].
    split; [exact (translateMessage_fails JSON_parse text targetLanguages api w
                     Hne Hattempt)|].
    split.
    + constructor; [eauto | constructor].
    + simpl. split; [intros _; exact Hattempt | reflexivity].
Qed.

Lemma confidence_zero_iff_translator_failed_witness :
  exists result console,
    translation.translateMessage Sample.JSON_parse "hola" ["en"]
      (ApiResolves (Some "Sure: {} done")) initial_world
    = Returned result (logged initial_world (TranslatorCall "hola" ["en"] :: console))
    /\ Forall (fun e => exists label, e = ConsoleError label) console
    /\ ((TranslationResult.confidence result == 0)%Q
        <-> translator_fails Sample.JSON_parse (ApiResolves (Some "Sure: {} done"))).
Proof.
  apply (confidence_zero_iff_translator_failed Sample.JSON_parse "hola" ["en"]
           (ApiResolves (Some "Sure: {} done")) initial_world).
  discriminate.
Defined.

(** X15 (translateMessage, lines 97 to 102).  What a successful call
    returns is what JSON.parse made of the answer, field by field: the
    translations are the parsed ones as they are (none when the field is
    absent), so a requested language that the answer leaves out has no
    entry in the result; nothing is filled in from the text, unlike on the
    failure path. *)
Theorem translateMessage_returns_the_answer
    (JSON_parse : string -> option ParsedResult.t) (text : string)
    (targetLanguages : list string) (content : option string) (jsonText : string)
    (parsed : ParsedResult.t) (w : World) :
  targetLanguages ≠ [] ->
  translation.json_match (JS.or_string content "") = Some jsonText ->
  JSON_parse jsonText = Some parsed ->
  exists result,
    translation.translateMessage JSON_parse text targetLanguages
      (ApiResolves content) w
    = Returned result (logged w [TranslatorCall text targetLanguages])
    /\ TranslationResult.translations result
       = default ∅ (ParsedResult.translations parsed)
    /\ TranslationResult.detectedLanguage result
       = JS.or_string (ParsedResult.detectedLanguage parsed) "en"
    /\ (forall lang, lang ∈ targetLanguages ->
          default ∅ (ParsedResult.translations parsed) !! lang = None ->
          TranslationResult.translations result !! lang = None).
Proof.
  intros Hne Hmatch Hparse. eexists. split; [|split; [|split]].
  - unfold translation.translateMessage. monad_simpl.
    destruct (decide (length targetLanguages = 0%nat)) as [Hlen|_].
    { destruct targetLanguages; [contradiction|discriminate Hlen]. }
    rewrite Hmatch, Hparse. reflexivity.
  - reflexivity.
  - reflexivity.
  - intros lang _ Hnone. exact Hnone.
Qed.

Lemma translateMessage_returns_the_answer_witness :
  exists result,
    translation.translateMessage Sample.JSON_parse "hola" ["en"]
      (ApiResolves (Some "Sure: {} done")) initial_world
    = Returned result (logged initial_world [TranslatorCall "hola" ["en"]])
    /\ TranslationResult.translations result = default ∅ None
    /\ TranslationResult.detectedLanguage result = JS.or_string None "en"
    /\ (forall lang, lang ∈ ["en"] ->
          default ∅ (None : option (gmap string string)) !! lang = None ->
          TranslationResult.translations result !! lang = None).
Proof.
  apply (translateMessage_returns_the_answer Sample.JSON_parse "hola" ["en"]
           (Some "Sure: {} done") "{}"
           {| ParsedResult.detectedLanguage := None;
              ParsedResult.translations := None;
              ParsedResult.confidence := None |} initial_world).
  - discriminate.
  - vm_compute. reflexivity.
  - vm_compute. reflexivity.
Defined.


(** ** What the handlers write (socket.ts) *)

Ltac db_is_leaves :=
  unfold log;
  apply preserves_modify; intros ? ?;
  unfold db_is in *; etransitivity; [|eassumption];
  cbn; repeat case_match; reflexivity.

Lemma authenticate_db_is s sid userId :
  preserves (db_is s) (socket.authenticate sid userId).
Proof. unfold socket.authenticate. preserves_steps; db_is_leaves. Qed.

Lemma join_room_db_is s sid roomId : preserves (db_is s) (socket.join_room sid roomId).
Proof. unfold socket.join_room. preserves_steps; db_is_leaves. Qed.

Lemma leave_room_db_is s sid roomId : preserves (db_is s) (socket.leave_room sid roomId).
Proof. unfold socket.leave_room. preserves_steps; db_is_leaves. Qed.

Lemma typing_db_is s sid roomId isTyping :
  preserves (db_is s) (socket.typing sid roomId isTyping).
Proof. unfold socket.typing. preserves_steps; db_is_leaves. Qed.

Lemma disconnect_db_is s sid : preserves (db_is s) (socket.disconnect sid).
Proof. unfold socket.disconnect. preserves_steps; db_is_leaves. Qed.

(** X17 (authenticate, join_room, leave_room, typing, disconnect).  None of
    these handlers writes to the database, from whatever state and with
    whatever payload: join_room creates no membership and leave_room and
    disconnect remove none (membership changes through the storage
    object only). *)
Theorem presence_handlers_never_write (w : World) (sid : SocketId)
    (userId roomId : Z) (isTyping : bool) :
  db (state_of (socket.authenticate sid userId w)) = db w
  /\ db (state_of (socket.join_room sid roomId w)) = db w
  /\ db (state_of (socket.leave_room sid roomId w)) = db w
  /\ db (state_of (socket.typing sid roomId isTyping w)) = db w
  /\ db (state_of (socket.disconnect sid w)) = db w.
Proof.
  split; [|split; [|split; [|split]]].
  - exact (authenticate_db_is (db w) sid userId w eq_refl).
  - exact (join_room_db_is (db w) sid roomId w eq_refl).
  - exact (leave_room_db_is (db w) sid roomId w eq_refl).
  - exact (typing_db_is (db w) sid roomId isTyping w eq_refl).
  - exact (disconnect_db_is (db w) sid w eq_refl).
Qed.

(** X18 (send_message).  send_message changes nothing of the presence
    maps, the live groups or the connections, and in the database nothing
    but the messages table, to which it adds at most one row: a row is
    added only for a connection that is authenticated as a member of the
    room, and it has the room, that user as sender and the content of the
    payload. *)
Theorem send_message_footprint (JSON_parse : string -> option ParsedResult.t)
    (w : World) (sid : SocketId) (roomId : Z) (content : string)
    (messageType : option string) (api : ApiOutcome) :
  exists w',
    state_of (socket.send_message JSON_parse sid roomId content messageType api w) = w'
    /\ onlineUsers w' = onlineUsers w
    /\ userRooms w' = userRooms w
    /\ adapter_rooms w' = adapter_rooms w
    /\ currentUserId w' = currentUserId w
    /\ users (db w') = users (db w)
    /\ rooms (db w') = rooms (db w)
    /\ roomParticipants (db w') = roomParticipants (db w)
    /\ (messages (db w') = messages (db w)
        \/ exists u row,
             authenticated_as w sid = Some u
             /\ storage.isUserInRoom (db w) roomId u = true
             /\ messages (db w') = messages (db w) ++ [row]
             /\ Message.roomId row = roomId
             /\ Message.senderId row = u
             /\ Message.content row = content).
Proof.
  eexists. split; [reflexivity|].
  destruct (authenticated_as w sid) as [u|] eqn:Hcur.
  2:{ rewrite (send_message_unauthenticated JSON_parse w sid roomId content
                 messageType api Hcur). simpl. repeat split; try reflexivity.
      left; reflexivity. }
  destruct (storage.isUserInRoom (db w) roomId u) eqn:Hin.
  2:{ rewrite (send_message_not_member JSON_parse w sid roomId u content
                 messageType api Hcur Hin). simpl. repeat split; try reflexivity.
      left; reflexivity. }
  destruct (storage.getRoomById (db w) roomId) as [room|] eqn:Hroom.
  2:{ rewrite (send_message_no_room JSON_parse w sid roomId u content
                 messageType api Hcur Hin Hroom). simpl.
      repeat split; try reflexivity. left; reflexivity. }
  rewrite (send_message_member JSON_parse w sid roomId u content messageType api
             room Hcur Hin Hroom).
  assert (Hresult : exists result es,
            (if bool_decide (0 < length (targetLanguages (db w) roomId u))%nat
                && bool_decide (0 < String.length (JS.trim content))%nat
             then translation.translateMessage JSON_parse content
                    (targetLanguages (db w) roomId u) api
             else mret {| TranslationResult.detectedLanguage :=
                            senderLang_of (db w) roomId u;
                          TranslationResult.translations := ∅;
                          TranslationResult.confidence := 1 |}) w
            = Returned result (logged w es)).
  { destruct (bool_decide _ && bool_decide _).
    - destruct (translateMessage_run JSON_parse content
                  (targetLanguages (db w) roomId u) api w)
        as (result & console & Hrun & _).
      eauto.
    - eexists. exists []. unfold mret, M_ret. f_equal.
      apply world_eq; try reflexivity. simpl. rewrite app_nil_r. reflexivity. }
  destruct Hresult as (result & es & Hresult).
  rewrite (bind_returned _ _ _ _ _ Hresult).
  destruct (persist_and_broadcast_cases roomId u content messageType result
              (logged w es)) as [(_ & _ & Hrun)|(_ & e & Hrun)];
    rewrite Hrun; simpl; repeat split; try reflexivity.
  - right. exists u. eexists. split; [reflexivity|]. split; [exact Hin|].
    split; [reflexivity|]. repeat split.
  - left; reflexivity.
Qed.

(** ** Errors go to the caller (socket.ts) *)

Lemma grown_by_frame (ok : Effect -> Prop) (tr0 : list Effect) (w w' : World) :
  trace w' = trace w -> grown_by ok tr0 w -> grown_by ok tr0 w'.
Proof. intros Htr (es & Hes & Hq). exists es. rewrite Htr. auto. Qed.

Lemma grown_by_log (ok : Effect -> Prop) (tr0 : list Effect) (es : list Effect) :
  Forall ok es -> preserves (grown_by ok tr0) (log es).
Proof.
  intros Hes w (es0 & Htr & Hq). exists (es0 ++ es). split.
  - cbn. rewrite Htr, app_assoc. reflexivity.
  - apply Forall_app. auto.
Qed.

Ltac grown_by_leaves :=
  first
    [ apply grown_by_log;
      first [ repeat constructor; fail
            | apply Forall_fmap, Forall_forall; intros ? ?; exact I ]
    | apply preserves_modify; intros ? ?;
      eapply grown_by_frame; [|eassumption];
      cbn; repeat case_match; reflexivity
    | apply preserves_await_storage; intros ? ?;
      eapply grown_by_frame; [|eassumption]; reflexivity ].

Lemma authenticate_errors sid userId tr0 :
  preserves (grown_by (error_only_to sid) tr0) (socket.authenticate sid userId).
Proof. unfold socket.authenticate. preserves_steps; grown_by_leaves. Qed.

Lemma join_room_errors sid roomId tr0 :
  preserves (grown_by (error_only_to sid) tr0) (socket.join_room sid roomId).
Proof. unfold socket.join_room. preserves_steps; grown_by_leaves. Qed.

Lemma leave_room_errors sid roomId tr0 :
  preserves (grown_by (error_only_to sid) tr0) (socket.leave_room sid roomId).
Proof. unfold socket.leave_room. preserves_steps; grown_by_leaves. Qed.

Lemma typing_errors sid roomId isTyping tr0 :
  preserves (grown_by (error_only_to sid) tr0) (socket.typing sid roomId isTyping).
Proof. unfold socket.typing. preserves_steps; grown_by_leaves. Qed.

Lemma disconnect_errors sid tr0 :
  preserves (grown_by (error_only_to sid) tr0) (socket.disconnect sid).
Proof. unfold socket.disconnect. preserves_steps; grown_by_leaves. Qed.

Lemma send_message_errors JSON_parse sid roomId content messageType api tr0 :
  preserves (grown_by (error_only_to sid) tr0)
    (socket.send_message JSON_parse sid roomId content messageType api).
Proof.
  unfold socket.send_message, translation.translateMessage.
  preserves_steps; grown_by_leaves.
Qed.

(** X19 (all handlers of socket.ts).  Whatever event the process takes,
    every error packet it sends because of it goes to the connection the
    event came from and to no other; a storage call of a route and the
    passing of time send nothing. *)
Theorem errors_go_to_the_caller (JSON_parse : string -> option ParsedResult.t)
    (ev : Event) (w w' : World) :
  step JSON_parse ev w = Some w' ->
  exists es,
    trace w' = trace w ++ es
    /\ (forall to message, Emit to (Out.error message) ∈ es -> socket_of ev = Some to)
    /\ (socket_of ev = None -> es = []).
Proof.
  intros Hstep.
  assert (Hgrown : forall sid (m : M World unit) w0,
            trace w0 = trace w ->
            preserves (grown_by (error_only_to sid) (trace w)) m ->
            exists es, trace (state_of (m w0)) = trace w ++ es
              /\ (forall to message, Emit to (Out.error message) ∈ es -> Some sid = Some to)
              /\ (Some sid = @None SocketId -> es = [])).
  { intros sid m w0 Hw0 Hm. destruct (Hm w0) as (es & Htr & Hes).
    - exists []. rewrite app_nil_r. split; [exact Hw0 | constructor].
    - exists es. split; [exact Htr|]. split; [|discriminate].
      intros to message Hin. rewrite Forall_forall in Hes.
      specialize (Hes _ Hin). simpl in Hes. rewrite Hes. reflexivity. }
  unfold step in Hstep.
  destruct ev as [sid|sid userId|sid roomId|sid roomId|sid roomId content mt api
                 |sid roomId isTyping|sid|c|now];
    try destruct (connected w sid); try discriminate Hstep;
    injection Hstep as <-; simpl socket_of.
  - exists []. simpl. rewrite app_nil_r. split; [reflexivity|].
    split; [|reflexivity]. intros to message Hin. apply elem_of_nil in Hin. contradiction.
  - apply Hgrown; [reflexivity | apply authenticate_errors].
  - apply Hgrown; [reflexivity | apply join_room_errors].
  - apply Hgrown; [reflexivity | apply leave_room_errors].
  - apply Hgrown; [reflexivity | apply send_message_errors].
  - apply Hgrown; [reflexivity | apply typing_errors].
  - destruct (Hgrown sid (socket.disconnect sid) (leaveAll sid w) eq_refl
                (disconnect_errors sid (trace w))) as (es & Htr & Hes).
    exists es. split; [exact Htr | exact Hes].
  - exists []. rewrite app_nil_r. split.
    + unfold await_storage, zoom. destruct (storage_call c (db w)); reflexivity.
    + split; [|reflexivity].
      intros to message Hin. apply elem_of_nil in Hin. contradiction.
  - exists []. rewrite app_nil_r. split; [reflexivity|]. split; [|reflexivity].
    intros to message Hin. apply elem_of_nil in Hin. contradiction.
Qed.

Lemma errors_go_to_the_caller_witness :
  exists es,
    trace (Sample.world_of (Sample.setup ++ [Connection "a"; Join_room "a" 1]))
    = trace (Sample.world_of (Sample.setup ++ [Connection "a"])) ++ es
    /\ (forall to message, Emit to (Out.error message) ∈ es ->
          socket_of (Join_room "a" 1) = Some to)
    /\ (socket_of (Join_room "a" 1) = None -> es = []).
Proof.
  apply (errors_go_to_the_caller Sample.JSON_parse (Join_room "a" 1)
           (Sample.world_of (Sample.setup ++ [Connection "a"]))
           (Sample.world_of (Sample.setup ++ [Connection "a"; Join_room "a" 1]))).
  vm_compute. reflexivity.
Defined.

(** ** Leaving a live group, typing (socket.ts) *)

Lemma logged_nil (w : World) : logged w [] = w.
Proof. apply world_eq; try reflexivity. simpl. apply app_nil_r. Qed.

Lemma set_delete_twice `{EqDecision A} (x : A) (l : list A) :
  JS.set_delete x (JS.set_delete x l) = JS.set_delete x l.
Proof.
  unfold JS.set_delete. rewrite list_filter_filter. apply list_filter_iff. tauto.
Qed.

Lemma set_delete_not_elem `{EqDecision A} (x : A) (l : list A) :
  ¬ (x ∈ JS.set_delete x l).
Proof. rewrite set_delete_elem. tauto. Qed.

Lemma set_add_twice `{EqDecision A} (x : A) (l : list A) :
  JS.set_add x (JS.set_add x l) = JS.set_add x l.
Proof.
  unfold JS.set_add at 1.
  destruct (decide (x ∈ JS.set_add x l)) as [_|Hno]; [reflexivity|].
  exfalso. apply Hno. apply set_add_elem.
Qed.

Lemma sockets_in_socket_leave (sid : SocketId) (key key' : string) (w : World) :
  socket.sockets_in (state_of (socket.socket_leave sid key w)) key'
  = if decide (key' = key) then JS.set_delete sid (socket.sockets_in w key)
    else socket.sockets_in w key'.
Proof.
  unfold socket.socket_leave, modify, socket.sockets_in. simpl.
  destruct (adapter_rooms w !! key) as [l|] eqn:Hl.
  - destruct (decide (length (JS.set_delete sid l) = 0%nat)) as [Hlen|Hlen]; simpl.
    + destruct (decide (key' = key)) as [->|Hne].
      * rewrite lookup_delete_eq. simpl. symmetry.
        destruct (JS.set_delete sid l); [reflexivity | discriminate Hlen].
      * rewrite lookup_delete_ne by congruence. reflexivity.
    + destruct (decide (key' = key)) as [->|Hne].
      * rewrite lookup_insert_eq. reflexivity.
      * rewrite lookup_insert_ne by congruence. reflexivity.
  - destruct (decide (key' = key)) as [->|Hne]; [|reflexivity].
    rewrite Hl. reflexivity.
Qed.

Lemma roomKey_inj (r r' : Z) : socket.roomKey r = socket.roomKey r' -> r = r'.
Proof.
  unfold socket.roomKey. intros Heq.
  apply (inj (String.app "room:")) in Heq. apply (inj pretty) in Heq. exact Heq.
Qed.

(** X20 (leave_room).  leave_room never fails and checks neither
    authentication nor membership before it detaches: afterwards the
    connection is out of the live group of the room and the room is out
    of the connection's entry in userRooms, every other group and entry
    being as before, and nothing else changes.  An authenticated
    connection has user_left sent once to each other socket of the group,
    never to itself, whether or not it had joined; an unauthenticated one
    sends nothing. *)
Theorem leave_room_detaches (w : World) (sid : SocketId) (roomId : Z) :
  exists w',
    socket.leave_room sid roomId w = Returned tt w'
    /\ (forall r, socket.sockets_in w' (socket.roomKey r)
                  = if decide (r = roomId) then others_in w sid roomId
                    else socket.sockets_in w (socket.roomKey r))
    /\ ¬ (sid ∈ socket.sockets_in w' (socket.roomKey roomId))
    /\ (forall sid', default [] (userRooms w' !! sid')
                     = if decide (sid' = sid)
                       then JS.set_delete roomId (default [] (userRooms w !! sid))
                       else default [] (userRooms w !! sid'))
    /\ onlineUsers w' = onlineUsers w
    /\ currentUserId w' = currentUserId w
    /\ db w' = db w
    /\ trace w'
       = trace w
         ++ match authenticated_as w sid with
            | Some u => (fun to => Emit to (Out.user_left u roomId))
                          <$> others_in w sid roomId
            | None => []
            end.
Proof.
  assert (Hgroup : forall w0 r,
            adapter_rooms w0
            = adapter_rooms (state_of (socket.socket_leave sid (socket.roomKey roomId) w)) ->
            socket.sockets_in w0 (socket.roomKey r)
            = if decide (r = roomId) then others_in w sid roomId
              else socket.sockets_in w (socket.roomKey r)).
  { intros w0 r Hw0.
    transitivity (socket.sockets_in
                    (state_of (socket.socket_leave sid (socket.roomKey roomId) w))
                    (socket.roomKey r)).
    { unfold socket.sockets_in. rewrite Hw0. reflexivity. }
    rewrite sockets_in_socket_leave.
    destruct (decide (r = roomId)) as [->|Hne].
    - destruct (decide (socket.roomKey roomId = socket.roomKey roomId));
        [reflexivity|contradiction].
    - destruct (decide (socket.roomKey r = socket.roomKey roomId)) as [Heq|_];
        [|reflexivity].
      apply roomKey_inj in Heq. contradiction. }
  assert (Hrooms : forall w0 sid',
            userRooms w0
            = alter (JS.set_delete roomId) sid
                (userRooms (state_of (socket.socket_leave sid (socket.roomKey roomId) w))) ->
            default [] (userRooms w0 !! sid')
            = if decide (sid' = sid)
              then JS.set_delete roomId (default [] (userRooms w !! sid))
              else default [] (userRooms w !! sid')).
  { intros w0 sid' ->.
    assert (Hsame : userRooms (state_of (socket.socket_leave sid
                                           (socket.roomKey roomId) w))
                    = userRooms w).
    { unfold socket.socket_leave, modify. simpl.
      repeat case_match; reflexivity. }
    rewrite Hsame.
    destruct (decide (sid' = sid)) as [->|Hne].
    - rewrite lookup_alter_eq. destruct (userRooms w !! sid); reflexivity.
    - rewrite lookup_alter_ne by congruence. reflexivity. }
  assert (Hframe : forall w0 : World,
            w0 = state_of (socket.socket_leave sid (socket.roomKey roomId) w) ->
            onlineUsers w0 = onlineUsers w /\ currentUserId w0 = currentUserId w
            /\ db w0 = db w /\ trace w0 = trace w).
  { intros w0 ->. unfold socket.socket_leave, modify. simpl.
    repeat case_match; repeat split; reflexivity. }
  destruct (Hframe _ eq_refl) as (Honline & Hcur & Hdb & Htrace).
  unfold socket.leave_room. run_handler.
  set (w1 := state_of (socket.socket_leave sid (socket.roomKey roomId) w)) in *.
  change (socket.socket_leave sid (socket.roomKey roomId) w) with (Returned tt w1).
  cbv beta iota. cbn [currentUserId set_userRooms]. rewrite Hcur.
  destruct (socket.truthy (default None (currentUserId w !! sid))) as [u|] eqn:Hu.
  - eexists. split; [reflexivity|].
    split; [intros r; apply Hgroup; reflexivity|].
    split; [rewrite Hgroup by reflexivity;
            destruct (decide (roomId = roomId)); [|contradiction];
            apply set_delete_not_elem|].
    split; [intros sid'; apply Hrooms; reflexivity|].
    split; [exact Honline|]. split; [exact Hcur|]. split; [exact Hdb|].
    cbn [trace logged set_userRooms]. rewrite Htrace. f_equal. f_equal.
    change (socket.sockets_in (set_userRooms _ w1) (socket.roomKey roomId))
      with (socket.sockets_in w1 (socket.roomKey roomId)).
    rewrite (Hgroup w1 roomId eq_refl).
    destruct (decide (roomId = roomId)); [|contradiction].
    apply set_delete_twice.
  - eexists. split; [reflexivity|].
    split; [intros r; apply Hgroup; reflexivity|].
    split; [rewrite Hgroup by reflexivity;
            destruct (decide (roomId = roomId)); [|contradiction];
            apply set_delete_not_elem|].
    split; [intros sid'; apply Hrooms; reflexivity|].
    split; [exact Honline|]. split; [exact Hcur|]. split; [exact Hdb|].
    cbn [trace set_userRooms]. rewrite Htrace, app_nil_r. reflexivity.
Qed.

(** X21 (typing).  typing changes nothing but the trace.  From an
    authenticated connection the indicator is sent once to each other
    socket of the live group of the room named in the payload and never
    back to the sender; the handler checks neither that the user is a
    member of that room nor that the connection has joined it.  From an
    unauthenticated connection nothing is sent. *)
Theorem typing_relayed_to_others (w : World) (sid : SocketId) (roomId : Z)
    (isTyping : bool) :
  socket.typing sid roomId isTyping w
  = Returned tt
      (logged w
         match authenticated_as w sid with
         | Some u => (fun to => Emit to (Out.user_typing u roomId isTyping))
                       <$> others_in w sid roomId
         | None => []
         end)
  /\ ¬ (sid ∈ others_in w sid roomId)
  /\ (forall to, to ∈ others_in w sid roomId
                 <-> to ∈ socket.sockets_in w (socket.roomKey roomId) /\ to ≠ sid).
Proof.
  split; [|split].
  - unfold socket.typing. run_handler.
    destruct (socket.truthy (default None (currentUserId w !! sid))) as [u|].
    + reflexivity.
    + rewrite logged_nil. reflexivity.
  - apply set_delete_not_elem.
  - intros to. apply set_delete_elem.
Qed.

(** ** Doing it twice (socket.ts) *)

(** X22 (authenticate).  Registration is idempotent: for a user of the
    table, a second authenticate of the same connection as the same user
    leaves onlineUsers and currentUserId as the first one left them (the
    connection is in the user's set once) and only sends authenticated
    again. *)
Theorem authenticate_twice (w : World) (sid : SocketId) (userId : Z)
    (user : User.t) :
  storage.getUserById (db w) userId = Some user ->
  exists w1 w2,
    socket.authenticate sid userId w = Returned tt w1
    /\ socket.authenticate sid userId w1 = Returned tt w2
    /\ onlineUsers w1 !! userId
       = Some (JS.set_add sid (default [] (onlineUsers w !! userId)))
    /\ onlineUsers w2 = onlineUsers w1
    /\ currentUserId w2 = currentUserId w1
    /\ trace w1 = trace w ++ [Emit sid (Out.authenticated userId)]
    /\ trace w2 = trace w1 ++ [Emit sid (Out.authenticated userId)].
Proof.
  intros Huser. eexists. eexists.
  split; [exact (authenticate_known_user w sid userId user Huser)|].
  split; [apply (authenticate_known_user _ sid userId user); exact Huser|].
  cbn [onlineUsers currentUserId trace logged set_onlineUsers set_currentUserId].
  split; [apply lookup_insert_eq|].
  split; [|split; [|split; reflexivity]].
  - rewrite lookup_insert_eq. cbn [from_option id]. rewrite set_add_twice.
    apply insert_insert_eq.
  - apply insert_insert_eq.
Qed.

Lemma authenticate_twice_witness :
  exists w1 w2,
    socket.authenticate "a" 1 Sample.world_online = Returned tt w1
    /\ socket.authenticate "a" 1 w1 = Returned tt w2
    /\ onlineUsers w1 !! 1
       = Some (JS.set_add "a" (default [] (onlineUsers Sample.world_online !! 1)))
    /\ onlineUsers w2 = onlineUsers w1
    /\ currentUserId w2 = currentUserId w1
    /\ trace w1 = trace Sample.world_online ++ [Emit "a" (Out.authenticated 1)]
    /\ trace w2 = trace w1 ++ [Emit "a" (Out.authenticated 1)].
Proof.
  apply (authenticate_twice Sample.world_online "a" 1
           {| User.id := 1; User.email := "alice@example.org";
              User.username := "alice"; User.password := "hash1";
              User.displayName := "Alice"; User.profilePhoto := None;
              User.publicKey := None; User.role := "user";
              User.preferredLanguage := "en"; User.createdAt := 0 |}).
  vm_compute. reflexivity.
Defined.

Lemma joined_twice (sid : SocketId) (roomId : Z) (w : World) (es : list Effect) :
  joined sid roomId (logged (joined sid roomId w) es)
  = logged (joined sid roomId w) es.
Proof.
  apply world_eq; try reflexivity.
  - cbn [userRooms joined logged set_userRooms set_adapter_rooms].
    rewrite lookup_insert_eq. cbn [from_option id]. rewrite set_add_twice.
    apply insert_insert_eq.
  - cbn [adapter_rooms joined logged set_userRooms set_adapter_rooms].
    unfold socket.sockets_in.
    cbn [adapter_rooms joined logged set_userRooms set_adapter_rooms].
    rewrite lookup_insert_eq. cbn [from_option id]. rewrite set_add_twice.
    apply insert_insert_eq.
Qed.

(** X23 (join_room).  A second join_room of a connection that is already
    attached changes neither the live group nor userRooms (the connection
    and the room are in their sets once), and it sends again exactly what
    the first one sent: user_joined to each other socket of the group and
    online_users to every socket of the group. *)
Theorem join_room_twice (w : World) (sid : SocketId) (roomId u : Z) :
  authenticated_as w sid = Some u ->
  storage.isUserInRoom (db w) roomId u = true ->
  exists w1 w2 es,
    socket.join_room sid roomId w = Returned tt w1
    /\ socket.join_room sid roomId w1 = Returned tt w2
    /\ trace w1 = trace w ++ es
    /\ trace w2 = trace w1 ++ es
    /\ adapter_rooms w2 = adapter_rooms w1
    /\ userRooms w2 = userRooms w1
    /\ onlineUsers w2 = onlineUsers w1
    /\ es = ((fun to =>
                Emit to (Out.user_joined u
                           (User.displayName <$> storage.getUserById (db w) u)
                           roomId))
               <$> others_in w1 sid roomId)
            ++ ((fun to => Emit to (Out.online_users roomId (online_in_room w roomId)))
                  <$> socket.sockets_in w1 (socket.roomKey roomId)).
Proof.
  intros Hcur Hin.
  pose proof (join_room_member w sid roomId u Hcur Hin) as Hfirst.
  set (es := _ ++ _) in Hfirst.
  pose proof (join_room_member (logged (joined sid roomId w) es) sid roomId u
                Hcur Hin) as Hsecond.
  rewrite joined_twice in Hsecond.
  exists (logged (joined sid roomId w) es), (logged (logged (joined sid roomId w) es) es), es.
  split; [exact Hfirst|]. split; [exact Hsecond|].
  repeat split.
Qed.

Lemma join_room_twice_witness :
  exists w1 w2 es,
    socket.join_room "a" 1 Sample.world_online = Returned tt w1
    /\ socket.join_room "a" 1 w1 = Returned tt w2
    /\ trace w1 = trace Sample.world_online ++ es
    /\ trace w2 = trace w1 ++ es
    /\ adapter_rooms w2 = adapter_rooms w1
    /\ userRooms w2 = userRooms w1
    /\ onlineUsers w2 = onlineUsers w1
    /\ es = ((fun to =>
                Emit to (Out.user_joined 1
                           (User.displayName
                              <$> storage.getUserById (db Sample.world_online) 1)
                           1))
               <$> others_in w1 "a" 1)
            ++ ((fun to => Emit to (Out.online_users 1
                                      (online_in_room Sample.world_online 1)))
                  <$> socket.sockets_in w1 (socket.roomKey 1)).
Proof.
  apply (join_room_twice Sample.world_online "a" 1 1).
  - vm_compute. reflexivity.
  - vm_compute. reflexivity.
Defined.

(** ** Disconnecting (socket.ts) *)

Lemma logged_logged (w : World) (es1 es2 : list Effect) :
  logged (logged w es1) es2 = logged w (es1 ++ es2).
Proof. apply world_eq; try reflexivity. simpl. symmetry. apply app_assoc. Qed.

Lemma for_of_farewell (sid : SocketId) (u : Z) (rooms : list Z) (w : World) :
  for_of rooms
    (fun roomId =>
       socket.socket_to_emit sid (socket.roomKey roomId) (Out.user_left u roomId);;
       onlineInRoom ← socket.getOnlineUsersInRoom roomId;
       socket.io_to_emit (socket.roomKey roomId)
         (Out.online_users roomId onlineInRoom)) w
  = Returned tt (logged w (farewell w sid u rooms)).
Proof.
  revert w. induction rooms as [|r rooms IH]; intros w.
  - simpl. rewrite logged_nil. reflexivity.
  - cbn [for_of].
    rewrite (bind_returned _ _ w tt
               (logged w
                  (((fun to => Emit to (Out.user_left u r)) <$> others_in w sid r)
                   ++ ((fun to => Emit to (Out.online_users r (online_in_room w r)))
                         <$> socket.sockets_in w (socket.roomKey r))))).
    + rewrite IH, logged_logged. reflexivity.
    + run_handler. rewrite logged_logged. reflexivity.
Qed.

Lemma unregister_run (sid : SocketId) (u : Z) (w : World) :
  match onlineUsers w !! u with
  | Some sockets =>
      modify (set_onlineUsers (insert u (JS.set_delete sid sockets)));;
      when_ (bool_decide (length (JS.set_delete sid sockets) = 0%nat))
            (modify (set_onlineUsers (delete u)))
  | None => mret tt
  end w
  = Returned tt (set_onlineUsers (unregistered sid u) w).
Proof.
  unfold unregistered, set_onlineUsers.
  destruct (onlineUsers w !! u) as [sockets|] eqn:Hu; rewrite ?Hu.
  - monad_simpl.
    destruct (decide (length (JS.set_delete sid sockets) = 0%nat)) as [Hlen|Hlen].
    + rewrite (bool_decide_eq_true_2 _ Hlen). simpl. f_equal.
      apply world_eq; try reflexivity. simpl. apply delete_insert_eq.
    + rewrite (bool_decide_eq_false_2 _ Hlen). reflexivity.
  - unfold mret, M_ret. f_equal. apply world_eq; reflexivity.
Qed.

Lemma disconnect_run (w : World) (sid : SocketId) (u : Z) :
  authenticated_as w sid = Some u ->
  socket.disconnect sid w
  = Returned tt
      (set_userRooms (delete sid)
         (logged (set_onlineUsers (unregistered sid u) w)
            (farewell (set_onlineUsers (unregistered sid u) w) sid u
               (default [] (userRooms w !! sid))))).
Proof.
  intros Hcur. unfold socket.disconnect.
  erewrite bind_returned; [|reflexivity].
  unfold authenticated_as in Hcur. rewrite Hcur.
  erewrite bind_returned; [|reflexivity].
  erewrite bind_returned; [|apply unregister_run].
  erewrite bind_returned; [|reflexivity].
  cbn [userRooms set_onlineUsers].
  destruct (userRooms w !! sid) as [rooms|].
  - erewrite bind_returned; [|apply for_of_farewell]. reflexivity.
  - erewrite bind_returned; [|reflexivity].
    cbn [from_option]. unfold farewell. simpl concat. rewrite logged_nil.
    reflexivity.
Qed.

Lemma disconnect_unauthenticated (w : World) (sid : SocketId) :
  authenticated_as w sid = None -> socket.disconnect sid w = Returned tt w.
Proof.
  intros Hcur. unfold socket.disconnect.
  erewrite bind_returned; [|reflexivity].
  unfold authenticated_as in Hcur. rewrite Hcur. reflexivity.
Qed.

Lemma sockets_in_leaveAll (sid : SocketId) (w : World) (key : string) :
  socket.sockets_in (leaveAll sid w) key
  = JS.set_delete sid (socket.sockets_in w key).
Proof.
  unfold socket.sockets_in, leaveAll. cbn [adapter_rooms set_adapter_rooms].
  rewrite lookup_omap. destruct (adapter_rooms w !! key) as [l|]; [|reflexivity].
  simpl. destruct (decide (length (JS.set_delete sid l) = 0%nat)) as [Hlen|_];
    [|reflexivity].
  simpl. destruct (JS.set_delete sid l); [reflexivity | discriminate Hlen].
Qed.

Lemma lookup_unregistered (sid : SocketId) (u u' : Z) (m : gmap Z (list SocketId)) :
  unregistered sid u m !! u'
  = if decide (u' = u)
    then match m !! u with
         | Some sockets =>
             if decide (length (JS.set_delete sid sockets) = 0%nat) then None
             else Some (JS.set_delete sid sockets)
         | None => None
         end
    else m !! u'.
Proof.
  unfold unregistered.
  destruct (decide (u' = u)) as [->|Hne].
  - destruct (m !! u) as [sockets|] eqn:Hu; [|exact Hu].
    destruct (decide (length (JS.set_delete sid sockets) = 0%nat)).
    + apply lookup_delete_eq.
    + apply lookup_insert_eq.
  - destruct (m !! u) as [sockets|]; [|reflexivity].
    destruct (decide (length (JS.set_delete sid sockets) = 0%nat)).
    + apply lookup_delete_ne. congruence.
    + apply lookup_insert_ne. congruence.
Qed.

(** X24 (disconnect of an authenticated connection).  When a connection
    that is authenticated as user u closes, it is taken out of every live
    group, of userRooms and of the set onlineUsers keeps for u; the sets of
    the other users and the database are untouched.  For each room of its
    userRooms entry, in order, each remaining socket of the live group is
    sent user_left and then online_users, once each, with the list computed
    after the removal.  The user is still listed online in a room exactly
    when the user was listed before and another connection of the user
    remains. *)
Theorem disconnect_cleans_up (JSON_parse : string -> option ParsedResult.t)
    (w w' : World) (sid : SocketId) (u : Z) :
  authenticated_as w sid = Some u ->
  step JSON_parse (Disconnect sid) w = Some w' ->
  connected w' sid = false
  /\ userRooms w' !! sid = None
  /\ (forall key, ¬ (sid ∈ socket.sockets_in w' key))
  /\ ¬ (sid ∈ default [] (onlineUsers w' !! u))
  /\ (forall u', u' ≠ u -> onlineUsers w' !! u' = onlineUsers w !! u')
  /\ (forall r, u ∈ online_in_room w' r
                <-> u ∈ online_in_room w r
                    /\ exists other, other ∈ default [] (onlineUsers w !! u)
                                     /\ other ≠ sid)
  /\ db w' = db w
  /\ trace w'
     = trace w
       ++ concat
            ((fun r =>
                ((fun to => Emit to (Out.user_left u r)) <$> others_in w sid r)
                ++ ((fun to => Emit to (Out.online_users r (online_in_room w' r)))
                      <$> others_in w sid r))
               <$> default [] (userRooms w !! sid)).
Proof.
  intros Hcur Hstep. unfold step in Hstep.
  destruct (connected w sid); [|discriminate Hstep].
  injection Hstep as <-.
  rewrite (disconnect_run (leaveAll sid w) sid u Hcur).
  cbn [state_of].
  set (w1 := set_onlineUsers (unregistered sid u) (leaveAll sid w)).
  assert (Hlookup : forall u', onlineUsers w1 !! u'
            = if decide (u' = u)
              then match onlineUsers w !! u with
                   | Some sockets =>
                       if decide (length (JS.set_delete sid sockets) = 0%nat)
                       then None else Some (JS.set_delete sid sockets)
                   | None => None
                   end
              else onlineUsers w !! u').
  { intros u'. exact (lookup_unregistered sid u u' (onlineUsers w)). }
  assert (Hself := Hlookup u).
  destruct (decide (u = u)); [|contradiction].
  split; [|split; [|split; [|split; [|split; [|split; [|split]]]]]].
  - unfold connected. apply bool_decide_eq_false_2.
    cbn [currentUserId set_currentUserId]. rewrite lookup_delete_eq.
    intros [x Hx]. discriminate Hx.
  - cbn [userRooms set_currentUserId set_userRooms]. apply lookup_delete_eq.
  - intros key.
    change (¬ (sid ∈ socket.sockets_in (leaveAll sid w) key)).
    rewrite sockets_in_leaveAll. apply set_delete_not_elem.
  - change (¬ (sid ∈ default [] (onlineUsers w1 !! u))). rewrite Hself.
    destruct (onlineUsers w !! u) as [sockets|]; [|apply not_elem_of_nil].
    destruct (decide (length (JS.set_delete sid sockets) = 0%nat));
      [apply not_elem_of_nil | apply set_delete_not_elem].
  - intros u' Hne. change (onlineUsers w1 !! u' = onlineUsers w !! u').
    rewrite Hlookup. destruct (decide (u' = u)); [contradiction|reflexivity].
  - intros r. rewrite !online_in_room_elem.
    change (onlineUsers (set_currentUserId _ _) !! u) with (onlineUsers w1 !! u).
    change (db (set_currentUserId _ _)) with (db w).
    rewrite Hself.
    destruct (onlineUsers w !! u) as [sockets|] eqn:Hu.
    + cbn [from_option id].
      destruct (decide (length (JS.set_delete sid sockets) = 0%nat)) as [Hlen|Hlen].
      * split; [intros [_ [x Hx]]; discriminate Hx|].
        intros (_ & other & Hother & Hne). exfalso.
        assert (Hin : other ∈ JS.set_delete sid sockets)
          by (apply set_delete_elem; auto).
        destruct (JS.set_delete sid sockets);
          [apply elem_of_nil in Hin; exact Hin | discriminate Hlen].
      * split.
        -- intros [Hq _]. split; [split; [exact Hq | eauto]|].
           destruct (JS.set_delete sid sockets) as [|other rest] eqn:Hdel;
             [contradiction|].
           exists other.
           apply set_delete_elem. rewrite Hdel. apply elem_of_cons. left; reflexivity.
        -- intros [[Hq _] _]. split; [exact Hq | eauto].
    + split; [intros [_ [x Hx]]; discriminate Hx|].
      intros [[_ [x Hx]] _]. discriminate Hx.
  - reflexivity.
  - cbn [trace set_currentUserId set_userRooms logged]. f_equal.
    unfold farewell. f_equal.
    change (userRooms (leaveAll sid w)) with (userRooms w).
    apply list_fmap_ext. intros _ r _.
    assert (Hothers : others_in w1 sid r = others_in w sid r).
    { unfold others_in.
      change (socket.sockets_in w1 (socket.roomKey r))
        with (socket.sockets_in (leaveAll sid w) (socket.roomKey r)).
      rewrite sockets_in_leaveAll. apply set_delete_twice. }
    assert (Hall : socket.sockets_in w1 (socket.roomKey r) = others_in w sid r).
    { change (socket.sockets_in w1 (socket.roomKey r))
        with (socket.sockets_in (leaveAll sid w) (socket.roomKey r)).
      apply sockets_in_leaveAll. }
    rewrite Hothers, Hall. reflexivity.
Qed.

Lemma disconnect_cleans_up_witness :
  connected (Sample.world_of (Sample.setup ++ [Connection "a"; Authenticate "a" 1;
                                               Disconnect "a"])) "a" = false
  /\ userRooms (Sample.world_of (Sample.setup ++ [Connection "a"; Authenticate "a" 1;
                                                  Disconnect "a"])) !! "a" = None
  /\ ¬ ("a" ∈ default []
               (onlineUsers
                  (Sample.world_of (Sample.setup ++ [Connection "a"; Authenticate "a" 1;
                                                     Disconnect "a"])) !! 1)).
Proof.
  destruct (disconnect_cleans_up Sample.JSON_parse
              (Sample.world_of (Sample.setup ++ [Connection "a"; Authenticate "a" 1]))
              (Sample.world_of (Sample.setup ++ [Connection "a"; Authenticate "a" 1;
                                                 Disconnect "a"]))
              "a" 1)
    as (Hconn & Hrooms & _ & Honline & _).
  - vm_compute. reflexivity.
  - vm_compute. reflexivity.
  - split; [exact Hconn|]. split; [exact Hrooms | exact Honline].
Defined.

(** ** A second identity on one connection (socket.ts) *)

(** X25 (authenticate, disconnect).  disconnect removes the connection
    from the set of the user it is authenticated as at that moment only.
    A connection that authenticates as u1, then as another user u2, and
    then closes is therefore left in the set onlineUsers keeps for u1: u1
    stays listed online in every room u1 is a member of, held by a
    connection that is no longer open. *)
Theorem reauthentication_leaves_stale_presence
    (JSON_parse : string -> option ParsedResult.t) (w w' : World) (sid : SocketId)
    (u1 u2 : Z) (user1 user2 : User.t) :
  storage.getUserById (db w) u1 = Some user1 ->
  storage.getUserById (db w) u2 = Some user2 ->
  u1 ≠ u2 ->
  u2 ≠ 0 ->
  run JSON_parse [Authenticate sid u1; Authenticate sid u2; Disconnect sid] w
  = Some w' ->
  connected w' sid = false
  /\ sid ∈ default [] (onlineUsers w' !! u1)
  /\ (forall roomId, storage.isUserInRoom (db w') roomId u1 = true ->
                     u1 ∈ online_in_room w' roomId).
Proof.
  intros Huser1 Huser2 Hne Hnz Hrun.
  cbn [run] in Hrun. unfold step in Hrun.
  destruct (connected w sid); [|discriminate Hrun].
  rewrite (authenticate_known_user w sid u1 user1 Huser1) in Hrun.
  cbn [state_of] in Hrun.
  set (w1 := logged _ _) in Hrun.
  assert (Hconn1 : connected w1 sid = true).
  { unfold connected. apply bool_decide_eq_true_2.
    cbn [currentUserId w1 logged set_onlineUsers set_currentUserId].
    rewrite lookup_insert_eq. eauto. }
  rewrite Hconn1 in Hrun.
  rewrite (authenticate_known_user w1 sid u2 user2 Huser2) in Hrun.
  cbn [state_of] in Hrun.
  set (w2 := logged _ _) in Hrun.
  assert (Hconn2 : connected w2 sid = true).
  { unfold connected. apply bool_decide_eq_true_2.
    cbn [currentUserId w2 logged set_onlineUsers set_currentUserId].
    rewrite lookup_insert_eq. eauto. }
  rewrite Hconn2 in Hrun.
  assert (Hcur : authenticated_as (leaveAll sid w2) sid = Some u2).
  { unfold authenticated_as.
    cbn [currentUserId leaveAll set_adapter_rooms w2 logged set_onlineUsers
         set_currentUserId].
    rewrite lookup_insert_eq. cbn [from_option id].
    unfold socket.truthy, JS.falsy_number.
    rewrite (bool_decide_eq_false_2 _ Hnz). reflexivity. }
  rewrite (disconnect_run (leaveAll sid w2) sid u2 Hcur) in Hrun.
  injection Hrun as <-.
  assert (Hstale : sid ∈ default []
                     (onlineUsers
                        (set_onlineUsers (unregistered sid u2) (leaveAll sid w2))
                      !! u1)).
  { cbn [onlineUsers set_onlineUsers leaveAll set_adapter_rooms].
    rewrite lookup_unregistered.
    destruct (decide (u1 = u2)); [contradiction|].
    cbn [onlineUsers w2 w1 logged set_onlineUsers set_currentUserId].
    rewrite lookup_insert_ne by congruence. rewrite lookup_insert_eq.
    cbn [from_option id]. apply set_add_elem. }
  split; [|split].
  - unfold connected. apply bool_decide_eq_false_2.
    cbn [currentUserId set_currentUserId state_of]. rewrite lookup_delete_eq.
    intros [x Hx]. discriminate Hx.
  - exact Hstale.
  - intros roomId Hmember. apply online_in_room_elem. split.
    + exact (member_is_listed (db w) roomId u1 user1 Huser1 Hmember).
    + change (is_Some (onlineUsers
                         (set_onlineUsers (unregistered sid u2) (leaveAll sid w2))
                       !! u1)).
      destruct (onlineUsers
                  (set_onlineUsers (unregistered sid u2) (leaveAll sid w2)) !! u1);
        [eauto|].
      apply elem_of_nil in Hstale. contradiction.
Qed.

Lemma reauthentication_leaves_stale_presence_witness :
  exists w',
    run Sample.JSON_parse [Authenticate "c" 1; Authenticate "c" 2; Disconnect "c"]
      (Sample.world_of (Sample.setup ++ [Connection "c"])) = Some w'
    /\ connected w' "c" = false
    /\ "c" ∈ default [] (onlineUsers w' !! 1)
    /\ (forall roomId, storage.isUserInRoom (db w') roomId 1 = true ->
                       1 ∈ online_in_room w' roomId).
Proof.
  eexists. split; [vm_compute; reflexivity|].
  apply (reauthentication_leaves_stale_presence Sample.JSON_parse
           (Sample.world_of (Sample.setup ++ [Connection "c"])) _ "c" 1 2
           {| User.id := 1; User.email := "alice@example.org";
              User.username := "alice"; User.password := "hash1";
              User.displayName := "Alice"; User.profilePhoto := None;
              User.publicKey := None; User.role := "user";
              User.preferredLanguage := "en"; User.createdAt := 0 |}
           {| User.id := 2; User.email := "bob@example.org";
              User.username := "bob"; User.password := "hash2";
              User.displayName := "Bob"; User.profilePhoto := None;
              User.publicKey := None; User.role := "user";
              User.preferredLanguage := "es"; User.createdAt := 0 |}).
  - vm_compute. reflexivity.
  - vm_compute. reflexivity.
  - discriminate.
  - discriminate.
  - vm_compute. reflexivity.
Defined.

(** ** send_message: refusal and the translated path (socket.ts) *)





(** ** The languages to translate into (socket.ts) *)

Lemma foldl_set_add_elem `{EqDecision A} (l acc : list A) (x : A) :
  x ∈ foldl (fun acc y => JS.set_add y acc) acc l <-> x ∈ acc \/ x ∈ l.
Proof.
  revert acc. induction l as [|y l IH]; intros acc; simpl.
  - rewrite elem_of_nil. tauto.
  - rewrite IH. unfold JS.set_add. rewrite elem_of_cons.
    destruct (decide (y ∈ acc)) as [Hy|Hy].
    + split; [tauto|]. intros [Hx|[->|Hx]]; tauto.
    + rewrite elem_of_app, list_elem_of_singleton. tauto.
Qed.

Lemma foldl_set_add_NoDup `{EqDecision A} (l acc : list A) :
  NoDup acc -> NoDup (foldl (fun acc y => JS.set_add y acc) acc l).
Proof.
  revert acc. induction l as [|y l IH]; intros acc Hacc; simpl; [exact Hacc|].
  apply IH. unfold JS.set_add. destruct (decide (y ∈ acc)) as [Hy|Hy]; [exact Hacc|].
  apply NoDup_app. split; [exact Hacc|]. split.
  - intros x Hx Hx'. apply list_elem_of_singleton in Hx'. subst x. contradiction.
  - apply NoDup_singleton.
Qed.

(** X28 (send_message, lines 102 to 106).  The languages the Translator is
    asked for are exactly the languages of the participants that differ
    from the sender's language: the sender's language is never among them,
    no language is asked for twice, and every language of another
    participant that differs is asked for. *)
Theorem targetLanguages_of_spec
    (participants : list (RoomParticipant.t * UserSummary.t)) (senderLang : string) :
  NoDup (socket.targetLanguages_of participants senderLang)
  /\ ¬ (senderLang ∈ socket.targetLanguages_of participants senderLang)
  /\ (forall lang,
        lang ∈ socket.targetLanguages_of participants senderLang
        <-> lang ≠ senderLang
            /\ exists p, p ∈ participants /\ RoomParticipant.language p.1 = lang).
Proof.
  assert (Hspec : forall lang,
            lang ∈ socket.targetLanguages_of participants senderLang
            <-> lang ≠ senderLang
                /\ exists p, p ∈ participants /\ RoomParticipant.language p.1 = lang).
  { intros lang. unfold socket.targetLanguages_of, JS.distinct.
    rewrite foldl_set_add_elem, elem_of_nil, list_elem_of_filter, list_elem_of_fmap.
    split.
    - intros [[]|[Hne (p & -> & Hp)]]. split; [exact Hne | eauto].
    - intros [Hne (p & Hp & <-)]. right. split; [exact Hne | eauto]. }
  split; [|split; [|exact Hspec]].
  - unfold socket.targetLanguages_of, JS.distinct.
    apply foldl_set_add_NoDup. apply NoDup_nil_2.
  - intros Hin. apply Hspec in Hin. destruct Hin as [Hne _]. contradiction.
Qed.

(** ** Updating an account (storage.ts) *)




(** ** A disabled room (storage.ts, socket.ts) *)

Lemma getRoomById_setRoomActive (roomId : Z) (isActive : bool) (s : Store) (r : Z) :
  is_Some (storage.getRoomById (state_of (storage.setRoomActive roomId isActive s)) r)
  <-> is_Some (storage.getRoomById s r).
Proof.
  unfold storage.getRoomById. simpl.
  induction (rooms s) as [|x l IH]; [reflexivity|].
  rewrite fmap_cons, !filter_cons.
  destruct (decide (Room.id x = roomId)) as [Hx|Hx]; simpl.
  - destruct (decide (Room.id x = r)); [|exact IH].
    simpl. split; intros _; eauto.
  - destruct (decide (Room.id x = r)); [|exact IH].
    simpl. split; intros _; eauto.
Qed.

Lemma room_ids_setRoomActive (roomId : Z) (isActive : bool) (s : Store) :
  Room.id <$> rooms (state_of (storage.setRoomActive roomId isActive s))
  = Room.id <$> rooms s.
Proof.
  simpl. rewrite <- list_fmap_compose. apply list_fmap_ext.
  intros _ x _. simpl. destruct (decide (Room.id x = roomId)); reflexivity.
Qed.

Lemma translateMessage_uniform JSON_parse (text : string)
    (targetLanguages : list string) (api : ApiOutcome) :
  exists result es, forall w,
    translation.translateMessage JSON_parse text targetLanguages api w
    = Returned result (logged w es).
Proof.
  unfold translation.translateMessage.
  destruct (decide (length targetLanguages = 0%nat)).
  - eexists. eexists. intros w. monad_simpl. reflexivity.
  - destruct (translation.attempt JSON_parse api) as [result|].
    + eexists. eexists. intros w. monad_simpl. reflexivity.
    + eexists. exists [TranslatorCall text targetLanguages;
                       ConsoleError "Translation error:"].
      intros w. monad_simpl. unfold log, modify. f_equal.
      apply world_eq; try reflexivity. simpl. rewrite <- app_assoc. reflexivity.
Qed.

(** X30 (send_message after setRoomActive).  send_message never looks at
    isActive: in a room that has just been disabled (or enabled) it does
    exactly what it would have done otherwise, with the same packets to the
    same connections, the same row stored, the same outcome.  Disabling a
    room takes it out of the room lists but does not stop the chat of the
    connections that are in it. *)
Theorem send_message_ignores_isActive (JSON_parse : string -> option ParsedResult.t)
    (w : World) (sid : SocketId) (roomId : Z) (content : string)
    (messageType : option string) (api : ApiOutcome) (r0 : Z) (isActive : bool) :
  trace (state_of (socket.send_message JSON_parse sid roomId content messageType api
                     (with_room_active r0 isActive w)))
  = trace (state_of (socket.send_message JSON_parse sid roomId content messageType
                       api w))
  /\ messages (db (state_of (socket.send_message JSON_parse sid roomId content
                               messageType api (with_room_active r0 isActive w))))
     = messages (db (state_of (socket.send_message JSON_parse sid roomId content
                                 messageType api w)))
  /\ throws (socket.send_message JSON_parse sid roomId content messageType api
               (with_room_active r0 isActive w))
     = throws (socket.send_message JSON_parse sid roomId content messageType api w).
Proof.
  set (w0 := with_room_active r0 isActive w).
  destruct (authenticated_as w sid) as [u|] eqn:Hcur.
  2:{ rewrite (send_message_unauthenticated JSON_parse w sid roomId content
                 messageType api Hcur).
      rewrite (send_message_unauthenticated JSON_parse w0 sid roomId content
                 messageType api Hcur).
      repeat split. }
  destruct (storage.isUserInRoom (db w) roomId u) eqn:Hin.
  2:{ rewrite (send_message_not_member JSON_parse w sid roomId u content
                 messageType api Hcur Hin).
      rewrite (send_message_not_member JSON_parse w0 sid roomId u content
                 messageType api Hcur Hin).
      repeat split. }
  pose proof (getRoomById_setRoomActive r0 isActive (db w) roomId) as Hsome.
  change (state_of (storage.setRoomActive r0 isActive (db w))) with (db w0) in Hsome.
  destruct (storage.getRoomById (db w) roomId) as [room|] eqn:Hroom.
  2:{ destruct (storage.getRoomById (db w0) roomId) as [room'|] eqn:Hroom'.
      { destruct (proj1 Hsome) as [x Hx]; [eauto | discriminate Hx]. }
      rewrite (send_message_no_room JSON_parse w sid roomId u content
                 messageType api Hcur Hin Hroom).
      rewrite (send_message_no_room JSON_parse w0 sid roomId u content
                 messageType api Hcur Hin Hroom').
      repeat split. }
  destruct (storage.getRoomById (db w0) roomId) as [room'|] eqn:Hroom'.
  2:{ destruct (proj2 Hsome) as [x Hx]; [eauto | discriminate Hx]. }
  rewrite (send_message_member JSON_parse w sid roomId u content messageType api
             room Hcur Hin Hroom).
  rewrite (send_message_member JSON_parse w0 sid roomId u content messageType api
             room' Hcur Hin Hroom').
  change (targetLanguages (db w0) roomId u) with (targetLanguages (db w) roomId u).
  change (senderLang_of (db w0) roomId u) with (senderLang_of (db w) roomId u).
  assert (Hresult : exists result es, forall w' : World,
            (if bool_decide (0 < length (targetLanguages (db w) roomId u))%nat
                && bool_decide (0 < String.length (JS.trim content))%nat
             then translation.translateMessage JSON_parse content
                    (targetLanguages (db w) roomId u) api
             else mret {| TranslationResult.detectedLanguage :=
                            senderLang_of (db w) roomId u;
                          TranslationResult.translations := ∅;
                          TranslationResult.confidence := 1 |}) w'
            = Returned result (logged w' es)).
  { destruct (bool_decide _ && bool_decide _).
    - apply translateMessage_uniform.
    - eexists. exists []. intros w'. rewrite logged_nil. reflexivity. }
  destruct Hresult as (result & es & Hresult).
  rewrite (bind_returned _ _ _ _ _ (Hresult w)).
  rewrite (bind_returned _ _ _ _ _ (Hresult w0)).
  pose proof (room_ids_setRoomActive r0 isActive (db w)) as Hids.
  destruct (persist_and_broadcast_cases roomId u content messageType result
              (logged w es)) as [(Hr & Hu & ->)|(Hno & e & ->)];
    destruct (persist_and_broadcast_cases roomId u content messageType result
                (logged w0 es)) as [(Hr0 & Hu0 & ->)|(Hno0 & e0 & ->)].
  - repeat split.
  - exfalso. cbn [db logged w0 with_room_active set_db] in Hno0.
    rewrite Hids in Hno0. destruct Hno0 as [Hno0|Hno0]; apply Hno0; assumption.
  - exfalso. cbn [db logged w0 with_room_active set_db] in Hr0.
    rewrite Hids in Hr0. destruct Hno as [Hno|Hno]; apply Hno; assumption.
  - repeat split.
Qed.
